(** * TubeLoader: the job lifecycle engine of [server/routes.ts]

    A shallow embedding of the HTTP handlers and background tasks that drive a
    download job ([POST /api/download], cancel, retry, delete, file download,
    manual upload to the NAS, [processDownload], [autoUploadToNas]) over the
    record store of [server/storage.ts], followed by the properties of the
    job state machine and of the resumable (TUS 1.0.0) upload client.

    Around the engine, each in a module of its own: the registry of
    WebSocket clients ([Realtime]), the client's view of a job ([Client]),
    the session store ([SessionStore]), the accounts and the routes that
    open and close a session ([Auth]) and the connection test of the
    settings page ([ConnectionTest]).

    Conventions.
    - A JavaScript [string] is a Rocq [string]; a video title, the only text
      that goes through a Unicode-aware regular expression, is a list of
      UTF-16 code units.
    - Byte counts and offsets are JavaScript numbers holding integers (below
      2^53): they are [Z], and [NaN] is the missing value of [jsnum]. The
      quotients and products of the progress formulas are doubles: rationals
      rounded to 53 significant bits ([Double]).
    - An [async] function is a computation in the monad [M]: state passing
      over [World], with [Throw] for a rejected promise or an exception and
      [OutOfFuel] for a [while] loop cut short by the fuel of the model.
      Every handler body runs without interleaving; interleavings are written
      as sequences of such computations. *)

From stdpp Require Import gmap strings list pretty sorting.
From Stdlib Require Import ZArith QArith Qround Qpower Ascii String Lia Lqa.
From Stdlib Require OrderedTypeEx.

Local Open Scope string_scope.
Local Open Scope Z_scope.

(** ** JavaScript strings *)

Module JsString.

(** [s.startsWith(p)] *)
Fixpoint startsWith (p s : string) : bool :=
  match p, s with
  | EmptyString, _ => true
  | String a p', String b s' => if Ascii.eqb a b then startsWith p' s' else false
  | String _ _, EmptyString => false
  end.

(** [s.includes(n)] *)
Fixpoint includes (n s : string) : bool :=
  startsWith n s ||
  match s with
  | EmptyString => false
  | String _ s' => includes n s'
  end.

(** [s.endsWith(p)] *)
Definition endsWith (p s : string) : bool :=
  startsWith (String.rev p) (String.rev s).

(** White space and line terminators of ECMAScript among the code units
    below 256: tab to carriage return, the space and the no-break space
    U+00A0. A character of a string stands for one code unit. *)
Definition is_space (c : ascii) : bool :=
  let n := N_of_ascii c in
  ((9 <=? n) && (n <=? 13) || (n =? 32) || (n =? 160))%N.

Fixpoint trimStart (s : string) : string :=
  match s with
  | String c s' => if is_space c then trimStart s' else s
  | EmptyString => EmptyString
  end.

(** [s.trim()] *)
Definition trim (s : string) : string :=
  String.rev (trimStart (String.rev (trimStart s))).

(** [s.replace(/\/$/, '')]: one trailing slash is removed. *)
Definition stripTrailingSlash (s : string) : string :=
  match String.rev s with
  | String "/" r => String.rev r
  | _ => s
  end.

(** [s.replace(/^http:/, 'https:')] *)
Definition upgradeScheme (s : string) : string :=
  if startsWith "http:" s then "https:" ++ String.substring 5 (String.length s - 5) s
  else s.

(** [n.toString()] for an integer. *)
Definition toString (z : Z) : string := pretty z.

End JsString.

(** ** JavaScript numbers that hold an integer or [NaN] *)

Inductive jsnum : Type :=
| Num (z : Z)
| NaN.

(** [Math.round(q)]: the nearest integer, a tie going up. *)
Definition Math_round (q : Q) : Z := Qfloor (q + (1 # 2)).

(** ** Arithmetic on doubles *)

(** The finite numbers of IEEE 754 binary64 as the rationals they stand for,
    with the rounding of the arithmetic operators: to the nearest number
    with 53 significant bits, a tie going to the one whose last bit is 0.
    The exponent is not bounded: between integers below 2^53 no quotient or
    product of the formulas below leaves the range of the normal numbers. *)
Module Double.

Definition two_to (e : Z) : Q := (2 ^ e)%Q.

(** The [e] with [2^e <= q < 2^(e+1)], for [q > 0]. *)
Definition exponent (q : Q) : Z :=
  let e := Z.log2 (Qnum q) - Z.log2 (Zpos (Qden q)) in
  if Qle_bool (two_to e) q then e else e - 1.

(** The nearest integer, a tie going to the even one. *)
Definition nearest_even (q : Q) : Z :=
  let f := Qfloor q in
  match (q - inject_Z f ?= 1 # 2)%Q with
  | Lt => f
  | Gt => f + 1
  | Eq => if Z.even f then f else f + 1
  end.

Definition round_pos (q : Q) : Q :=
  let e := exponent q in
  (inject_Z (nearest_even (q * two_to (52 - e))) * two_to (e - 52))%Q.

(** The double nearest to [q]. *)
Definition round (q : Q) : Q :=
  match (q ?= 0)%Q with
  | Eq => 0%Q
  | Gt => round_pos q
  | Lt => (- round_pos (- q))%Q
  end.

(** [x / y] and [x * y] on doubles, for [y] other than 0. *)
Definition div (x y : Q) : Q := round (x / y).

Definition mul (x y : Q) : Q := round (x * y).

End Double.

(** ** The record store ([shared/schema.ts], [server/storage.ts]) *)

Inductive Status : Type :=
| queued | downloading | converting | uploading | completed | failed.

Inductive Format : Type := audio | video.

#[global] Instance Status_eq_dec : EqDecision Status.
Proof. solve_decision. Defined.

#[global] Instance Format_eq_dec : EqDecision Format.
Proof. solve_decision. Defined.

(** A title is a sequence of UTF-16 code units. *)
Definition ustring : Type := list N.

(** A row of [download_jobs]. A [NULL] column is [None]. *)
Record DownloadJob : Type := mkJob {
  id : string;
  userId : string;
  youtubeUrl : string;
  videoTitle : option ustring;
  videoThumbnail : option string;
  format : Format;
  quality : option string;
  status : Status;
  progress : option Z;
  errorMessage : option string;
  filePath : option string;
  fileSize : option Z;
  uploadedToNas : option Z;
  createdAt : option Z;
  updatedAt : option Z
}.

(** [Partial<DownloadJob>] as the callers of [updateDownloadJob] build it: a
    column that is absent is [None], a column set to [null] is [Some None]. *)
Record JobUpdates : Type := mkUpd {
  u_status : option Status;
  u_progress : option (option Z);
  u_errorMessage : option (option string);
  u_filePath : option (option string);
  u_fileSize : option (option Z);
  u_uploadedToNas : option (option Z)
}.

(** [.set({ ...updates, updatedAt: now })] on one row. *)
Definition apply_updates (u : JobUpdates) (now : Z) (j : DownloadJob) : DownloadJob :=
  {| id := id j;
     userId := userId j;
     youtubeUrl := youtubeUrl j;
     videoTitle := videoTitle j;
     videoThumbnail := videoThumbnail j;
     format := format j;
     quality := quality j;
     status := default (status j) (u_status u);
     progress := default (progress j) (u_progress u);
     errorMessage := default (errorMessage j) (u_errorMessage u);
     filePath := default (filePath j) (u_filePath u);
     fileSize := default (fileSize j) (u_fileSize u);
     uploadedToNas := default (uploadedToNas j) (u_uploadedToNas u);
     createdAt := createdAt j;
     updatedAt := Some now |}.

(** A row of [user_settings], the columns the job engine reads. *)
Record UserSettings : Type := mkSettings {
  synologyEndpoint : option string;
  autoUpload : option Z;
  proxyEnabled : option Z;
  proxyType : option string;
  proxyHost : option string;
  proxyPort : option Z;
  proxyUsername : option string;
  proxyPassword : option string
}.

Record ProxyConfig : Type := mkProxy {
  px_type : string;
  px_host : string;
  px_port : Z;
  px_username : option string;
  px_password : option string
}.

(** ** Observable effects *)

(** A message pushed on the realtime channel by [broadcastToUser]. *)
Inductive WsMessage : Type :=
| job_update (job : option DownloadJob) (speed eta : option string)
| job_deleted (jobId : string).

(** The body of an outgoing request: nothing, or a buffer of [len] bytes
    filled by [fs.readSync] from the local file [path]: with the [len] bytes
    at position [pos] ([FileSlice]), or with the [read] bytes at position
    [pos] followed by zeros, as [Buffer.alloc] left them ([Padded]). *)
Inductive ReqBody : Type :=
| NoBody
| FileSlice (path : string) (pos len : Z)
| Padded (path : string) (pos read len : Z).

Record HttpRequest : Type := mkRequest {
  rq_method : string;
  rq_url : string;
  rq_headers : list (string * string);
  rq_body : ReqBody
}.

(** What [fetch] resolves to. [rs_text] is [None] when reading the body
    fails ([.text().catch(() => '')]). *)
Record HttpResponse : Type := mkResponse {
  rs_status : Z;
  rs_statusText : string;
  rs_headers : list (string * string);
  rs_text : option string
}.

(** [response.headers.get(name)], the headers being listed under the names
    the client asks for. *)
Fixpoint headers_get (name : string) (hs : list (string * string)) : option string :=
  match hs with
  | [] => None
  | (k, v) :: hs' => if String.eqb k name then Some v else headers_get name hs'
  end.

(** The arguments of one call of [processDownload]. *)
Record Task : Type := mkTask {
  t_jobId : string;
  t_userId : string;
  t_url : string;
  t_format : Format;
  t_quality : option string;
  t_proxy : option ProxyConfig
}.

Inductive Event : Type :=
| EvDb (jobId : string) (u : JobUpdates)
| EvInsert (j : DownloadJob)
| EvDelete (jobId : string)
| EvBroadcast (user : string) (m : WsMessage)
| EvFetch (rq : HttpRequest)
| EvUnlink (path : string)
| EvSpawn (t : Task).

(** The state the server works on: the two tables, the download directory
    (path to size), the wall clock, the number of identifiers drawn so far,
    and the effects performed so far, the latest first. *)
Record World : Type := mkWorld {
  jobs : gmap string DownloadJob;
  settings : gmap string UserSettings;
  files : gmap string Z;
  clock : Z;
  drawn : nat;
  trace : list Event
}.

Definition set_jobs (f : gmap string DownloadJob -> gmap string DownloadJob) (w : World) : World :=
  {| jobs := f (jobs w); settings := settings w; files := files w;
     clock := clock w; drawn := drawn w; trace := trace w |}.

Definition set_files (f : gmap string Z -> gmap string Z) (w : World) : World :=
  {| jobs := jobs w; settings := settings w; files := f (files w);
     clock := clock w; drawn := drawn w; trace := trace w |}.

Definition emit (e : Event) (w : World) : World :=
  {| jobs := jobs w; settings := settings w; files := files w;
     clock := clock w; drawn := drawn w; trace := e :: trace w |}.

Definition draw (w : World) : World :=
  {| jobs := jobs w; settings := settings w; files := files w;
     clock := clock w; drawn := S (drawn w); trace := trace w |}.

(** ** The monad of asynchronous computations *)

Inductive Result (A : Type) : Type :=
| Ok (a : A)
| Throw (e : string)
| OutOfFuel.

Arguments Ok {A} a.
Arguments Throw {A} e.
Arguments OutOfFuel {A}.

Definition M (A : Type) : Type := World -> Result A * World.

Definition ret {A} (a : A) : M A := fun w => (Ok a, w).

Definition bind {A B} (c : M A) (k : A -> M B) : M B :=
  fun w =>
    match c w with
    | (Ok a, w') => k a w'
    | (Throw e, w') => (Throw e, w')
    | (OutOfFuel, w') => (OutOfFuel, w')
    end.

Definition throw {A} (e : string) : M A := fun w => (Throw e, w).

(** [try { c } catch (error) { h(error.message) }] *)
Definition try_catch {A} (c : M A) (h : string -> M A) : M A :=
  fun w =>
    match c w with
    | (Throw e, w') => h e w'
    | r => r
    end.

(** [try { c } finally { f }], for an [f] that does not throw. *)
Definition try_finally {A} (c : M A) (f : World -> World) : M A :=
  fun w => let (r, w') := c w in (r, f w').

Definition get {A} (f : World -> A) : M A := fun w => (Ok (f w), w).

Definition modify (f : World -> World) : M unit := fun w => (Ok tt, f w).

Notation "x <- c ;; k" := (bind c (fun x => k))
  (at level 100, c at next level, k at level 200, only parsing).
Notation "c ;; k" := (bind c (fun _ => k))
  (at level 100, k at level 200, only parsing).

(** *** [DatabaseStorage] *)

Definition getDownloadJob (jobId : string) : M (option DownloadJob) :=
  get (fun w => jobs w !! jobId).

Definition getUserSettings (user : string) : M (option UserSettings) :=
  get (fun w => settings w !! user).

(** [UPDATE download_jobs SET ... WHERE id = ?], then the row read back. A
    row that does not exist is not created. *)
Definition updateDownloadJob (jobId : string) (u : JobUpdates) : M (option DownloadJob) :=
  modify (fun w => emit (EvDb jobId u) (set_jobs (alter (apply_updates u (clock w)) jobId) w)) ;;
  getDownloadJob jobId.

Definition deleteDownloadJob (jobId : string) : M unit :=
  modify (fun w => emit (EvDelete jobId) (set_jobs (delete jobId) w)).

(** [getUploadedToNasJobIds]: the jobs of the user with [uploaded_to_nas = 1]. *)
Definition getUploadedToNasJobIds (user : string) : M (list string) :=
  get (fun w =>
    (map_to_list
       (filter (fun kv => userId kv.2 = user ∧ uploadedToNas kv.2 = Some 1) (jobs w))).*1).

Definition broadcastToUser (user : string) (m : WsMessage) : M unit :=
  modify (emit (EvBroadcast user m)).

(** ** File names and their encoding *)

Module FileName.

Local Open Scope N_scope.

(** The code units of a string of one-byte characters. *)
Fixpoint units (s : string) : ustring :=
  match s with
  | EmptyString => []
  | String c s' => N_of_ascii c :: units s'
  end.

(** [\s] of a regular expression without the [u] flag. *)
Definition is_regexp_space (c : N) : bool :=
  (9 <=? c) && (c <=? 13) || (c =? 32) || (c =? 160) || (c =? 5760) ||
  (8192 <=? c) && (c <=? 8202) || (c =? 8232) || (c =? 8233) || (c =? 8239) ||
  (c =? 8287) || (c =? 12288) || (c =? 65279).

(** The class [[a-zA-Z0-9а-яА-ЯёЁ\s\-_]]. *)
Definition is_safe (c : N) : bool :=
  (97 <=? c) && (c <=? 122) || (65 <=? c) && (c <=? 90) || (48 <=? c) && (c <=? 57) ||
  (1072 <=? c) && (c <=? 1103) || (1040 <=? c) && (c <=? 1071) ||
  (c =? 1105) || (c =? 1025) || is_regexp_space c || (c =? 45) || (c =? 95).

(** [(job.videoTitle || "video").replace(/[^...]/g, "").substring(0, 100)] *)
Definition safeTitle (title : option ustring) : ustring :=
  let t := match title with
           | Some (c :: r) => c :: r
           | _ => units "video"
           end in
  take 100 (List.filter is_safe t).

Definition ext (f : Format) : string :=
  match f with audio => "mp3" | video => "mp4" end.

(** [`${safeTitle}.${ext}`] *)
Definition filename (j : DownloadJob) : ustring :=
  (safeTitle (videoTitle j) ++ units "." ++ units (ext (format j)))%list.

(** [Buffer.from(s)]: the UTF-8 bytes of a string given by its UTF-16 code
    units; a surrogate without its partner becomes U+FFFD. *)
Definition utf8_of_code_point (c : N) : list N :=
  if c <? 128 then [c]
  else if c <? 2048 then [192 + c / 64; 128 + c mod 64]
  else if c <? 65536 then [224 + c / 4096; 128 + (c / 64) mod 64; 128 + c mod 64]
  else [240 + c / 262144; 128 + (c / 4096) mod 64; 128 + (c / 64) mod 64; 128 + c mod 64].

Definition is_high (c : N) : bool := (55296 <=? c) && (c <=? 56319).
Definition is_low (c : N) : bool := (56320 <=? c) && (c <=? 57343).

Fixpoint utf8 (s : ustring) : list N :=
  match s with
  | [] => []
  | c :: r =>
    if is_high c then
      match r with
      | d :: r' =>
        if is_low d
        then (utf8_of_code_point (65536 + (c - 55296) * 1024 + (d - 56320)) ++ utf8 r')%list
        else (utf8_of_code_point 65533 ++ utf8 r)%list
      | [] => utf8_of_code_point 65533
      end
    else if is_low c then (utf8_of_code_point 65533 ++ utf8 r)%list
    else (utf8_of_code_point c ++ utf8 r)%list
  end.

(** The base64 alphabet. *)
Definition b64_char (n : N) : ascii :=
  if n <? 26 then ascii_of_N (65 + n)
  else if n <? 52 then ascii_of_N (97 + (n - 26))
  else if n <? 62 then ascii_of_N (48 + (n - 52))
  else if n =? 62 then "+"%char
  else "/"%char.

(** [buffer.toString('base64')] *)
Fixpoint base64 (bs : list N) : string :=
  match bs with
  | [] => EmptyString
  | [a] =>
    String (b64_char (a / 4)) (String (b64_char ((a mod 4) * 16)) "==")
  | [a; b] =>
    String (b64_char (a / 4)) (String (b64_char ((a mod 4) * 16 + b / 16))
      (String (b64_char ((b mod 16) * 4)) "="))
  | a :: b :: c :: r =>
    String (b64_char (a / 4)) (String (b64_char ((a mod 4) * 16 + b / 16))
      (String (b64_char ((b mod 16) * 4 + c / 64)) (String (b64_char (c mod 64)) (base64 r))))
  end.

(** [Buffer.from(filename).toString('base64')] *)
Definition filenameBase64 (name : ustring) : string := base64 (utf8 name).

(** The characters of a base64 text: the alphabet and the padding. *)
Definition is_b64 (c : ascii) : bool :=
  let n := N_of_ascii c in
  (65 <=? n) && (n <=? 90) || (97 <=? n) && (n <=? 122) || (48 <=? n) && (n <=? 57)
  || (n =? 43) || (n =? 47) || (n =? 61).

Fixpoint all_chars (p : ascii -> bool) (s : string) : bool :=
  match s with
  | EmptyString => true
  | String c s' => p c && all_chars p s'
  end.

End FileName.

(** [parseInt(s, 10)]: leading white space, an optional sign, then the
    longest run of decimal digits; [NaN] when there is no digit. *)
Module ParseInt.

Definition digit (c : ascii) : option Z :=
  let n := Z.of_N (N_of_ascii c) in
  if (48 <=? n) && (n <=? 57) then Some (n - 48) else None.

Fixpoint digits (acc : Z) (s : string) : Z :=
  match s with
  | String c s' =>
    match digit c with
    | Some d => digits (10 * acc + d) s'
    | None => acc
    end
  | EmptyString => acc
  end.

Definition unsigned (s : string) : jsnum :=
  match s with
  | String c _ =>
    match digit c with
    | Some _ => Num (digits 0 s)
    | None => NaN
    end
  | EmptyString => NaN
  end.

Definition negate (n : jsnum) : jsnum :=
  match n with
  | Num z => Num (- z)
  | NaN => NaN
  end.

Definition parseInt (s : string) : jsnum :=
  match JsString.trimStart s with
  | String "-" r => negate (unsigned r)
  | String "+" r => unsigned r
  | r => unsigned r
  end.

End ParseInt.

Example parseInt_digits : ParseInt.parseInt " 5242880;x" = Num 5242880.
Proof. reflexivity. Qed.

Example parseInt_nan : ParseInt.parseInt "abc" = NaN.
Proof. reflexivity. Qed.

Example base64_video_mp4 :
  FileName.filenameBase64 (FileName.units "video.mp4") = "dmlkZW8ubXA0".
Proof. reflexivity. Qed.

Example base64_padding :
  FileName.base64 [77%N] = "TQ==" /\ FileName.base64 [77%N; 97%N] = "TWE=".
Proof. split; reflexivity. Qed.

(** "Привет" keeps its Cyrillic letters and is sent as UTF-8. *)
Example base64_cyrillic :
  FileName.filenameBase64
    (FileName.safeTitle (Some [1055; 1088; 1080; 1074; 1077; 1090; 33]%N))
  = "0J/RgNC40LLQtdGC".
Proof. reflexivity. Qed.

(** ** The collaborators of [routes.ts] *)

Record VideoInfo : Type := mkInfo {
  title : ustring;
  thumbnail : string
}.

(** What the fetch client hands to its progress callback. *)
Record Progress : Type := mkProgress {
  pg_status : Status;
  pg_progress : Q;
  pg_speed : option string;
  pg_eta : option string;
  pg_error : option string
}.

Record DownloadResult : Type := mkResult {
  res_filePath : string;
  res_fileSize : Z
}.

(** One run of [downloadVideo]: the progress it reports, in order, the
    download directory it leaves, and what its promise settles to. *)
Record Download : Type := mkDownload {
  dl_progress : list Progress;
  dl_files : gmap string Z;
  dl_result : string + DownloadResult
}.

(** The functions of [server/youtube.ts], the remote upload endpoint and the
    JavaScript runtime, none of which is part of [routes.ts]. The helpers of
    [youtube.ts] work on the download directory only. [fetch] answers a
    request knowing every effect that came before it; [inl] is a rejected
    promise. [URL_resolve r b] is [new URL(r, b).toString()], [None] when it
    throws. [telemetry] gives the speed and ETA labels of the chunk just
    sent, which the source computes from [Date.now()]. [ERR_OUT_OF_RANGE n]
    is the message of the [RangeError] that [fs.readSync] throws for the
    position [n]. *)
Record Env : Type := mkEnv {
  getVideoInfo : string -> option ProxyConfig -> string + VideoInfo;
  downloadVideo : Task -> gmap string Z -> Download;
  getDownloadFilePath : string -> Format -> gmap string Z -> option string;
  cleanupDownloadFile : string -> gmap string Z -> gmap string Z;
  autoCleanupIfNeeded : list string -> gmap string Z -> gmap string Z;
  fetch : list Event -> HttpRequest -> string + HttpResponse;
  URL_resolve : string -> string -> option string;
  isUrl : string -> bool;
  randomUUID : nat -> string;
  telemetry : list Event -> option string * option string;
  ERR_OUT_OF_RANGE : Z -> string
}.

(** ** Replies of the HTTP handlers *)

Inductive Body : Type :=
| BMessage (message : string)
| BInvalid (message : string)
| BJob (job : option DownloadJob)
| BSuccess
| BUploadError (message : string) (details : option string)
| BUploadStarted (message : string) (name : ustring) (size : Z)
| BFile (path : string) (name : ustring) (contentType : string).

Record Reply : Type := Json {
  code : Z;
  body : Body
}.

(** The JSON body of [POST /api/download] before validation. *)
Record DownloadRequest : Type := mkBody {
  b_url : option string;
  b_format : option string;
  b_quality : option string
}.

Record ValidRequest : Type := mkValid {
  v_url : string;
  v_format : Format;
  v_quality : option string
}.

(** [x || undefined] and [x || null] on an optional string. *)
Definition nonempty (x : option string) : option string :=
  match x with
  | Some EmptyString => None
  | _ => x
  end.

Section Routes.

Variable env : Env.

(** [downloadRequestSchema.parse]: [None] is a [ZodError]. *)
Definition downloadRequestSchema (b : DownloadRequest) : option ValidRequest :=
  match b_url b, b_format b with
  | Some url, Some f =>
    if isUrl env url &&
       (JsString.includes "youtube.com" url || JsString.includes "youtu.be" url)
    then
      if String.eqb f "audio" then Some (mkValid url audio (b_quality b))
      else if String.eqb f "video" then Some (mkValid url video (b_quality b))
      else None
    else None
  | _, _ => None
  end.

(** The middleware [requireAuth]. *)
Definition requireAuth (session : option string) (next : string -> M Reply) : M Reply :=
  match nonempty session with
  | Some user => next user
  | None => ret (Json 401 (BMessage "Unauthorized"))
  end.

(** [processDownload(...)] called without [await]: the task is started and
    the caller goes on. *)
Definition spawn (t : Task) : M unit := modify (emit (EvSpawn t)).

Definition not_found : M Reply := ret (Json 404 (BMessage "Job not found")).

(** The guard [if (!job || job.userId !== userId)] of every per-job route. *)
Definition owned (user : string) (job : option DownloadJob) : option DownloadJob :=
  match job with
  | Some j => if String.eqb (userId j) user then Some j else None
  | None => None
  end.

(** [POST /api/jobs/:id/cancel] *)
Definition post_cancel (session : option string) (jobId : string) : M Reply :=
  requireAuth session (fun user =>
    try_catch
      (job <- getDownloadJob jobId ;;
       match owned user job with
       | None => not_found
       | Some _ =>
         updatedJob <- updateDownloadJob jobId
           {| u_status := Some failed; u_progress := None;
              u_errorMessage := Some (Some "Cancelled by user");
              u_filePath := None; u_fileSize := None; u_uploadedToNas := None |} ;;
         broadcastToUser user (job_update updatedJob None None) ;;
         ret (Json 200 (BJob updatedJob))
       end)
      (fun _ => ret (Json 500 (BMessage "Failed to cancel job")))).

(** [POST /api/jobs/:id/retry] *)
Definition post_retry (session : option string) (jobId : string) : M Reply :=
  requireAuth session (fun user =>
    try_catch
      (job <- getDownloadJob jobId ;;
       match owned user job with
       | None => not_found
       | Some j =>
         modify (set_files (cleanupDownloadFile env jobId)) ;;
         updatedJob <- updateDownloadJob jobId
           {| u_status := Some queued; u_progress := Some (Some 0);
              u_errorMessage := Some None;
              u_filePath := Some None; u_fileSize := Some None;
              u_uploadedToNas := Some (Some 0) |} ;;
         broadcastToUser user (job_update updatedJob None None) ;;
         spawn (mkTask jobId user (youtubeUrl j) (format j) (quality j) None) ;;
         ret (Json 200 (BJob updatedJob))
       end)
      (fun _ => ret (Json 500 (BMessage "Failed to retry job")))).

(** [DELETE /api/jobs/:id] *)
Definition delete_job (session : option string) (jobId : string) : M Reply :=
  requireAuth session (fun user =>
    try_catch
      (job <- getDownloadJob jobId ;;
       match owned user job with
       | None => not_found
       | Some _ =>
         modify (set_files (cleanupDownloadFile env jobId)) ;;
         deleteDownloadJob jobId ;;
         broadcastToUser user (job_deleted jobId) ;;
         ret (Json 200 BSuccess)
       end)
      (fun _ => ret (Json 500 (BMessage "Failed to delete job")))).

(** [filePath && fs.existsSync(filePath)] *)
Definition existing (w : World) (p : option string) : option string :=
  match nonempty p with
  | Some path => if bool_decide (is_Some (files w !! path)) then Some path else None
  | None => None
  end.

(** [GET /api/jobs/:id/download] *)
Definition get_download (session : option string) (jobId : string) : M Reply :=
  requireAuth session (fun user =>
    try_catch
      (job <- getDownloadJob jobId ;;
       match owned user job with
       | None => not_found
       | Some j =>
         if negb (bool_decide (status j = completed))
         then ret (Json 400 (BMessage "Job is not completed yet"))
         else
           path <- get (fun w => existing w (getDownloadFilePath env jobId (format j) (files w))) ;;
           match path with
           | None => ret (Json 404 (BMessage "File not found on server"))
           | Some p =>
             ret (Json 200 (BFile p (FileName.filename j)
                    (match format j with audio => "audio/mpeg" | video => "video/mp4" end)))
           end
       end)
      (fun _ => ret (Json 500 (BMessage "Failed to download file")))).

(** *** [POST /api/download] *)

(** The proxy of the user's settings, when it is enabled and has a host and
    a port. *)
Definition proxyConfig (st : option UserSettings) : option ProxyConfig :=
  match st with
  | Some s =>
    match nonempty (proxyHost s), proxyPort s with
    | Some host, Some port =>
      if bool_decide (proxyEnabled s = Some 1) && negb (port =? 0)
      then Some {| px_type := default "http" (nonempty (proxyType s));
                   px_host := host; px_port := port;
                   px_username := nonempty (proxyUsername s);
                   px_password := nonempty (proxyPassword s) |}
      else None
    | _, _ => None
    end
  | None => None
  end.

(** [storage.createDownloadJob] with the values the route passes: a fresh
    identifier, the defaults of the table for the columns left out. The
    insertion fails on an identifier that is taken. *)
Definition createDownloadJob (user : string) (rq : ValidRequest) (info : VideoInfo) : M DownloadJob :=
  fun w =>
    let jid := randomUUID env (drawn w) in
    let j := {| id := jid; userId := user; youtubeUrl := v_url rq;
                videoTitle := Some (title info);
                videoThumbnail := Some (thumbnail info);
                format := v_format rq; quality := nonempty (v_quality rq);
                status := queued; progress := Some 0; errorMessage := None;
                filePath := None; fileSize := None; uploadedToNas := Some 0;
                createdAt := Some (clock w); updatedAt := Some (clock w) |} in
    match jobs w !! jid with
    | Some _ => (Throw "UNIQUE constraint failed: download_jobs.id", draw w)
    | None => (Ok j, emit (EvInsert j) (set_jobs (insert jid j) (draw w)))
    end.

(** The handler. A [ZodError] goes straight to the [catch] that answers 400. *)
Definition post_download (session : option string) (b : DownloadRequest) : M Reply :=
  requireAuth session (fun user =>
    try_catch
      (match downloadRequestSchema b with
       | None => ret (Json 400 (BInvalid "Invalid download request"))
       | Some validatedData =>
         st <- getUserSettings user ;;
         match getVideoInfo env (v_url validatedData) (proxyConfig st) with
         | inl infoError =>
           ret (Json 400 (BMessage ("Cannot get video info: " ++ infoError)))
         | inr videoInfo =>
           job <- createDownloadJob user validatedData videoInfo ;;
           spawn (mkTask (id job) user (v_url validatedData) (v_format validatedData)
                    (nonempty (v_quality validatedData)) (proxyConfig st)) ;;
           ret (Json 200 (BJob (Some job)))
         end
       end)
      (fun _ => ret (Json 500 (BMessage "Failed to create download job")))).

(** *** The resumable upload client *)

Definition CHUNK_SIZE : Z := 5 * 1024 * 1024.

(** The endpoint the uploads are created at. *)
Definition tusEndpoint (endpoint : string) : string :=
  let e := JsString.stripTrailingSlash (JsString.trim endpoint) in
  if negb (JsString.endsWith "/files" e) then e ++ "/files/" else e ++ "/".

Definition headers : list (string * string) := [("Tus-Resumable", "1.0.0")].

Definition create_request (endpoint : string) (size : Z) (name : ustring) : HttpRequest :=
  {| rq_method := "POST";
     rq_url := endpoint;
     rq_headers := headers ++
       [("Upload-Length", JsString.toString size);
        ("Upload-Metadata", "filename " ++ FileName.filenameBase64 name)];
     rq_body := NoBody |}.

(** The request that carries the chunk in [buffer]. *)
Definition chunk_request (url : string) (uploadOffset : Z) (buffer : ReqBody) : HttpRequest :=
  {| rq_method := "PATCH";
     rq_url := url;
     rq_headers := headers ++
       [("Upload-Offset", JsString.toString uploadOffset);
        ("Content-Type", "application/offset+octet-stream")];
     rq_body := buffer |}.

(** The request for the [chunkSize] bytes of the file at [uploadOffset]. *)
Definition patch_request (url path : string) (uploadOffset chunkSize : Z) : HttpRequest :=
  chunk_request url uploadOffset (FileSlice path uploadOffset chunkSize).

(** [fs.readSync(fileHandle, buffer, 0, chunkSize, uploadOffset)] on a fresh
    buffer of [chunkSize] bytes, for a file of [size] bytes whose handle is
    at position [handle]: the buffer and the position of the handle after
    the call, or the message of the exception. A position below -1 is out
    of range. At -1 the bytes are read where the handle is, which moves by
    the number of bytes read, and what is left of the buffer stays zero.
    Otherwise the bytes are read at the position given and the handle stays;
    the loop asks for no byte after the end of the file there. *)
Definition readSync (path : string) (size handle chunkSize position : Z) : string + ReqBody * Z :=
  if position <? -1 then inl (ERR_OUT_OF_RANGE env position)
  else if position =? -1 then
    let bytesRead := Z.max 0 (Z.min chunkSize (size - handle)) in
    inr (Padded path handle bytesRead chunkSize, handle + bytesRead)
  else inr (FileSlice path position chunkSize, handle).

(** [fetch(...)] settled: the response, or the message of the rejection. *)
Definition settle_fetch (rq : HttpRequest) : M (string + HttpResponse) :=
  fun w => (Ok (fetch env (trace w) rq), emit (EvFetch rq) w).

(** [await fetch(...)] *)
Definition do_fetch (rq : HttpRequest) : M HttpResponse :=
  r <- settle_fetch rq ;;
  match r with
  | inl e => throw e
  | inr response => ret response
  end.

(** The session URL made of the [Location] header. *)
Definition fullUploadUrl (uploadUrl endpoint : string) : M string :=
  if JsString.startsWith "http://" uploadUrl || JsString.startsWith "https://" uploadUrl
  then ret (JsString.upgradeScheme uploadUrl)
  else match URL_resolve env uploadUrl endpoint with
       | Some u => ret u
       | None => throw "Invalid URL"
       end.

(** The two upload paths: the route [upload-to-nas] and [autoUploadToNas]. *)
Inductive UploadKind : Type := Manual | Auto.

(** [Math.round((uploadOffset / fileSize) * 99)], and
    [90 + Math.round((uploadOffset / fileSize) * 9)] in [autoUploadToNas],
    the quotient and the product being doubles. A [NaN] is stored as [NULL];
    [None] also stands for the result with a [fileSize] of 0, which is no
    finite number, and which the loop entered at offset 0 never computes. *)
Definition uploadProgress (k : UploadKind) (uploadOffset : jsnum) (size : Z) : option Z :=
  match uploadOffset with
  | NaN => None
  | Num o =>
    if size =? 0 then None
    else
      let share := Double.div (inject_Z o) (inject_Z size) in
      Some match k with
           | Manual => Math_round (Double.mul share (inject_Z 99))
           | Auto => 90 + Math_round (Double.mul share (inject_Z 9))
           end
  end.

(** The offset after a chunk: the [Upload-Offset] of the response when it is
    there (and not empty), else the offset moved by the chunk length. *)
Definition acknowledged (r : HttpResponse) (uploadOffset chunkSize : Z) : jsnum :=
  match nonempty (headers_get "Upload-Offset" (rs_headers r)) with
  | Some newOffset => ParseInt.parseInt newOffset
  | None => Num (uploadOffset + chunkSize)
  end.

Definition progress_update (p : option Z) : JobUpdates :=
  {| u_status := Some uploading; u_progress := Some p; u_errorMessage := None;
     u_filePath := None; u_fileSize := None; u_uploadedToNas := None |}.

(** [while (uploadOffset < fileSize) { ... }], the same in both paths but for
    the progress formula, with the handle of the file at position [handle].
    The result is the value of [uploadOffset] when the loop is left; it is
    left at once on [NaN], which is below no number. *)
Fixpoint upload_loop (fuel : nat) (k : UploadKind) (jobId user path url : string)
    (size handle : Z) (uploadOffset : jsnum) : M jsnum :=
  match uploadOffset with
  | NaN => ret NaN
  | Num off =>
    if negb (off <? size) then ret (Num off)
    else
      match fuel with
      | O => fun w => (OutOfFuel, w)
      | S fuel' =>
        let chunkSize := Z.min CHUNK_SIZE (size - off) in
        match readSync path size handle chunkSize off with
        | inl rangeError => throw rangeError
        | inr (buffer, handle') =>
          patchResponse <- do_fetch (chunk_request url off buffer) ;;
          if negb (rs_status patchResponse =? 204) && negb (rs_status patchResponse =? 200)
          then throw ("TUS patch failed: " ++ JsString.toString (rs_status patchResponse))
          else
            let newOffset := acknowledged patchResponse off chunkSize in
            labels <- get (fun w => telemetry env (trace w)) ;;
            progressJob <- updateDownloadJob jobId
              (progress_update (uploadProgress k newOffset size)) ;;
            broadcastToUser user (job_update progressJob labels.1 labels.2) ;;
            upload_loop fuel' k jobId user path url size handle' newOffset
        end
      end
  end.

(** The loop on the handle that [fs.openSync] has just given. *)
Definition upload_chunks (fuel : nat) (k : UploadKind) (jobId user path url : string)
    (size : Z) (uploadOffset : jsnum) : M jsnum :=
  upload_loop fuel k jobId user path url size 0 uploadOffset.

Definition completed_update : JobUpdates :=
  {| u_status := Some completed; u_progress := Some (Some 100); u_errorMessage := None;
     u_filePath := None; u_fileSize := None; u_uploadedToNas := Some (Some 1) |}.

(** [if (fs.existsSync(filePath)) fs.unlinkSync(filePath)] *)
Definition unlink_if_exists (path : string) : M unit :=
  fun w =>
    match files w !! path with
    | Some _ => (Ok tt, emit (EvUnlink path) (set_files (delete path) w))
    | None => (Ok tt, w)
    end.

(** The end of both upload paths: the job is marked, then the local file is
    deleted. *)
Definition upload_completed (jobId user path : string) : M unit :=
  completedJob <- updateDownloadJob jobId completed_update ;;
  broadcastToUser user (job_update completedJob None None) ;;
  unlink_if_exists path.

(** What [upload-to-nas] does after it has replied. *)
Definition upload_background (fuel : nat) (jobId user path url : string) (size : Z) : M unit :=
  try_catch
    (upload_chunks fuel Manual jobId user path url size (Num 0) ;;
     upload_completed jobId user path)
    (fun uploadError =>
       failedJob <- updateDownloadJob jobId
         {| u_status := Some failed; u_progress := Some (Some 0);
            u_errorMessage := Some (Some ("Upload failed: " ++ uploadError));
            u_filePath := None; u_fileSize := None; u_uploadedToNas := None |} ;;
       broadcastToUser user (job_update failedJob None None)).

(** [POST /api/jobs/:id/upload-to-nas]. The reply is the one sent before the
    chunks go out; the computation gives it once the part that runs after
    it has run too. *)
Definition post_upload_to_nas (fuel : nat) (session : option string) (jobId : string) : M Reply :=
  requireAuth session (fun user =>
    try_catch
      (job <- getDownloadJob jobId ;;
       match owned user job with
       | None => not_found
       | Some j =>
         if negb (bool_decide (status j = completed))
         then ret (Json 400 (BMessage "Job is not completed yet"))
         else if bool_decide (uploadedToNas j = Some 1)
         then ret (Json 400 (BMessage "Already uploaded to NAS"))
         else
           st <- getUserSettings user ;;
           match nonempty (st ≫= synologyEndpoint) with
           | None => ret (Json 400 (BMessage "TUS server not configured"))
           | Some configured =>
             found <- get (fun w => existing w (getDownloadFilePath env jobId (format j) (files w))) ;;
             match found with
             | None => ret (Json 404 (BMessage "Downloaded file not found on server"))
             | Some path =>
               let endpoint := tusEndpoint configured in
               size <- get (fun w => default 0 (files w !! path)) ;;
               let name := FileName.filename j in
               created <- settle_fetch (create_request endpoint size name) ;;
               match created with
               | inl fetchError =>
                 ret (Json 400 (BUploadError ("Cannot connect to TUS server: " ++ fetchError) None))
               | inr createResponse =>
                 if negb (rs_status createResponse =? 201)
                 then
                   ret (Json 400 (BUploadError
                     ("Upload initialization failed (HTTP "
                        ++ JsString.toString (rs_status createResponse) ++ ")")
                     (Some (default (rs_statusText createResponse)
                              (nonempty (rs_text createResponse))))))
                 else
                   match nonempty (headers_get "Location" (rs_headers createResponse)) with
                   | None =>
                     ret (Json 400 (BUploadError "Server did not return upload location" None))
                   | Some uploadUrl =>
                     url <- fullUploadUrl uploadUrl endpoint ;;
                     uploadingJob <- updateDownloadJob jobId (progress_update (Some 0)) ;;
                     broadcastToUser user (job_update uploadingJob None None) ;;
                     upload_background fuel jobId user path url size ;;
                     ret (Json 200 (BUploadStarted "Upload started" name size))
                   end
               end
             end
           end
       end)
      (fun error => ret (Json 500 (BUploadError "Failed to upload to NAS" (Some error))))).

(** *** [autoUploadToNas] *)

Definition autoUploadToNas (fuel : nat) (jobId user endpoint : string) : M unit :=
  job <- getDownloadJob jobId ;;
  match job with
  | None => ret tt
  | Some j =>
    if negb (bool_decide (status j = completed)) then ret tt
    else
      found <- get (fun w => existing w (getDownloadFilePath env jobId (format j) (files w))) ;;
      match found with
      | None => ret tt
      | Some path =>
        let tus := tusEndpoint endpoint in
        size <- get (fun w => default 0 (files w !! path)) ;;
        let name := FileName.filename j in
        updatingJob <- updateDownloadJob jobId (progress_update (Some 90)) ;;
        broadcastToUser user (job_update updatingJob None None) ;;
        createResponse <- do_fetch (create_request tus size name) ;;
        if negb (rs_status createResponse =? 201)
        then throw ("TUS create failed: " ++ JsString.toString (rs_status createResponse))
        else
          match nonempty (headers_get "Location" (rs_headers createResponse)) with
          | None => throw "No upload URL returned"
          | Some uploadUrl =>
            url <- fullUploadUrl uploadUrl tus ;;
            try_finally (upload_chunks fuel Auto jobId user path url size (Num 0)) (fun w => w) ;;
            upload_completed jobId user path
          end
      end
  end.

(** *** [processDownload] *)

(** The progress callback handed to [downloadVideo]. *)
Definition progress_callback (jobId user : string) (p : Progress) : M unit :=
  currentJob <- getDownloadJob jobId ;;
  match currentJob with
  | None => ret tt
  | Some cur =>
    if bool_decide (status cur = failed) then ret tt
    else
      job <- updateDownloadJob jobId
        {| u_status := Some (pg_status p);
           u_progress := Some (Some (Math_round (pg_progress p)));
           u_errorMessage := Some (nonempty (pg_error p));
           u_filePath := None; u_fileSize := None; u_uploadedToNas := None |} ;;
      broadcastToUser user (job_update job (pg_speed p) (pg_eta p))
  end.

Fixpoint for_each {A} (f : A -> M unit) (l : list A) : M unit :=
  match l with
  | [] => ret tt
  | a :: l' => f a ;; for_each f l'
  end.

(** [await downloadVideo(url, jobId, format, quality, callback, proxyConfig)] *)
Definition await_downloadVideo (t : Task) : M DownloadResult :=
  d <- get (fun w => downloadVideo env t (files w)) ;;
  for_each (progress_callback (t_jobId t) (t_userId t)) (dl_progress d) ;;
  modify (set_files (fun _ => dl_files d)) ;;
  match dl_result d with
  | inl e => throw e
  | inr result => ret result
  end.

(** The [try] block of [processDownload] from the point where
    [downloadVideo] has resolved. *)
Definition download_resolved (fuel : nat) (t : Task) (result : DownloadResult) : M unit :=
  completedJob <- updateDownloadJob (t_jobId t)
    {| u_status := Some completed; u_progress := Some (Some 100); u_errorMessage := None;
       u_filePath := Some (Some (res_filePath result));
       u_fileSize := Some (Some (res_fileSize result)); u_uploadedToNas := None |} ;;
  broadcastToUser (t_userId t) (job_update completedJob None None) ;;
  st <- getUserSettings (t_userId t) ;;
  match nonempty (st ≫= synologyEndpoint) with
  | Some endpoint =>
    if bool_decide (st ≫= autoUpload = Some 1)
    then try_catch (autoUploadToNas fuel (t_jobId t) (t_userId t) endpoint) (fun _ => ret tt)
    else ret tt
  | None => ret tt
  end.

(** The [catch] block of [processDownload]. *)
Definition download_failed (t : Task) (error : string) : M unit :=
  failedJob <- updateDownloadJob (t_jobId t)
    {| u_status := Some failed; u_progress := Some (Some 0);
       u_errorMessage := Some (Some error);
       u_filePath := None; u_fileSize := None; u_uploadedToNas := None |} ;;
  broadcastToUser (t_userId t) (job_update failedJob None None).

(** The [try] block of [processDownload] up to the call of [downloadVideo]. *)
Definition download_started (t : Task) : M unit :=
  uploaded <- getUploadedToNasJobIds (t_userId t) ;;
  modify (set_files (autoCleanupIfNeeded env uploaded)) ;;
  updatedJob <- updateDownloadJob (t_jobId t)
    {| u_status := Some downloading; u_progress := Some (Some 0); u_errorMessage := None;
       u_filePath := None; u_fileSize := None; u_uploadedToNas := None |} ;;
  broadcastToUser (t_userId t) (job_update updatedJob None None).

Definition processDownload (fuel : nat) (t : Task) : M unit :=
  try_catch
    (download_started t ;;
     result <- await_downloadVideo t ;;
     download_resolved fuel t result)
    (download_failed t).

End Routes.

(** ** The vocabulary of the properties *)

Section Vocabulary.

Variable env : Env.

(** The answer of a per-job route for a job that is missing or not the
    caller's. *)
Definition reply_not_found : Reply := Json 404 (BMessage "Job not found").

(** The columns written by a cancellation, by a retry and by the progress
    callback of the fetch client. *)
Definition cancel_update : JobUpdates :=
  {| u_status := Some failed; u_progress := None;
     u_errorMessage := Some (Some "Cancelled by user");
     u_filePath := None; u_fileSize := None; u_uploadedToNas := None |}.

Definition retry_update : JobUpdates :=
  {| u_status := Some queued; u_progress := Some (Some 0);
     u_errorMessage := Some None;
     u_filePath := Some None; u_fileSize := Some None;
     u_uploadedToNas := Some (Some 0) |}.

Definition callback_update (p : Progress) : JobUpdates :=
  {| u_status := Some (pg_status p);
     u_progress := Some (Some (Math_round (pg_progress p)));
     u_errorMessage := Some (nonempty (pg_error p));
     u_filePath := None; u_fileSize := None; u_uploadedToNas := None |}.

(** The value persisted once every callback of [ps] has run. *)
Definition persisted (w : World) (jobId user : string) (ps : list Progress) : option (option Z) :=
  progress <$> jobs (for_each (progress_callback jobId user) ps w).2 !! jobId.

(** The report that the callbacks of [ps] leave in the row of a job that was
    not [failed]: the first one that carries the status [failed], after which
    the callback does nothing, else the last one. *)
Fixpoint effective (ps : list Progress) : option Progress :=
  match ps with
  | [] => None
  | p :: ps' =>
    if bool_decide (pg_status p = failed) then Some p
    else match effective ps' with
         | Some q => Some q
         | None => Some p
         end
  end.

(** The requests sent so far, the oldest first. *)
Definition requests (t : list Event) : list HttpRequest :=
  rev (omap (fun e => match e with EvFetch rq => Some rq | _ => None end) t).

(** The least number of chunks of [c] bytes that hold [n] bytes. *)
Definition ceil_div (n c : Z) : Z := (n + c - 1) / c.

(** The requests of an upload that goes chunk after chunk from [off]. *)
Definition expected (url path : string) (size off : Z) (m : nat) : list HttpRequest :=
  map (fun i =>
         let o := off + Z.of_nat i * CHUNK_SIZE in
         patch_request url path o (Z.min CHUNK_SIZE (size - o)))
      (seq 0 m).

(** The requests of the upload of a whole file. *)
Definition chunk_requests (url path : string) (size : Z) : list HttpRequest :=
  map (fun i =>
         patch_request url path (Z.of_nat i * CHUNK_SIZE)
           (Z.min CHUNK_SIZE (size - Z.of_nat i * CHUNK_SIZE)))
      (seq 0 (Z.to_nat (ceil_div size CHUNK_SIZE))).

(** The endpoint applies every chunk sent to [url] and acknowledges the
    offset that the client expects: its answer has no [Upload-Offset], or
    one that reads as the old offset plus the length of the chunk. *)
Definition applies_chunks (url path : string) : Prop :=
  forall hist off len, 0 <= off -> 0 < len <= CHUNK_SIZE -> exists r,
    fetch env hist (patch_request url path off len) = inr r /\
    (rs_status r = 204 \/ rs_status r = 200) /\
    acknowledged r off len = Num (off + len).









(** A completed job whose file is on disk. *)
Record stored (w : World) (jobId : string) (j : DownloadJob) (path : string) (size : Z) : Prop := {
  st_job : jobs w !! jobId = Some j;
  st_completed : status j = completed;
  st_path : getDownloadFilePath env jobId (format j) (files w) = Some path;
  st_named : path <> "";
  st_size : files w !! path = Some size
}.

(** A job that its owner may send to the endpoint [configured]. *)
Record uploadable (w : World) (user jobId : string) (j : DownloadJob)
    (configured path : string) (size : Z) : Prop := {
  up_stored : stored w jobId j path size;
  up_user : user <> "";
  up_owner : userId j = user;
  up_fresh : uploadedToNas j <> Some 1;
  up_endpoint : settings w !! user ≫= synologyEndpoint = Some configured;
  up_configured : configured <> ""
}.

(** The error of the route for a create request answered with [r]. *)
Definition rejected_message (r : HttpResponse) : string :=
  "Upload initialization failed (HTTP " ++ JsString.toString (rs_status r) ++ ")".

Definition rejected_details (r : HttpResponse) : option string :=
  Some (default (rs_statusText r) (nonempty (rs_text r))).

End Vocabulary.

(** ** The vocabulary of the frame properties *)

Section Frames.

(** Every run of [c] takes a world to one that [R] relates to it. *)
Definition keeps {A} (R : World -> World -> Prop) (c : M A) : Prop :=
  forall w, R w (c w).2.

(** The columns of a job that say which job it is. *)
Definition same_identity (j j' : DownloadJob) : Prop :=
  id j' = id j /\ userId j' = userId j /\ youtubeUrl j' = youtubeUrl j /\
  videoTitle j' = videoTitle j /\ videoThumbnail j' = videoThumbnail j /\
  format j' = format j /\ quality j' = quality j /\ createdAt j' = createdAt j.

(** From [w] to [w'] the settings are the same, so is every row but the one
    of [jobId], and that row, if it is there afterwards, was there before
    with the same identity. *)
Definition only_job (jobId : string) (w w' : World) : Prop :=
  settings w' = settings w /\
  (forall k, k <> jobId -> jobs w' !! k = jobs w !! k) /\
  (forall j', jobs w' !! jobId = Some j' ->
     exists j, jobs w !! jobId = Some j /\ same_identity j j').

(** The same, and the row of [jobId] is not removed either. *)
Definition only_updates (jobId : string) (w w' : World) : Prop :=
  only_job jobId w w' /\ (is_Some (jobs w !! jobId) -> is_Some (jobs w' !! jobId)).

(** From [w] to [w'] the row of [jobId], if it is there afterwards, has kept
    its file path, file size and error message, and its status is the one
    from before, [uploading] or [completed]. *)
Definition upload_stage (jobId : string) (w w' : World) : Prop :=
  forall j', jobs w' !! jobId = Some j' ->
    exists j, jobs w !! jobId = Some j /\
      filePath j' = filePath j /\ fileSize j' = fileSize j /\
      errorMessage j' = errorMessage j /\
      (status j' = status j \/ status j' = uploading \/ status j' = completed).

(** An update of the upload: of the status to [uploading] or [completed] if
    at all, and not of the file path, file size or error message. *)
Definition of_upload (u : JobUpdates) : Prop :=
  u_filePath u = None /\ u_fileSize u = None /\ u_errorMessage u = None /\
  (u_status u = None \/ u_status u = Some uploading \/ u_status u = Some completed).

(** Nothing but the trace differs. *)
Definition same_state (w w' : World) : Prop :=
  jobs w' = jobs w /\ settings w' = settings w /\ files w' = files w /\
  clock w' = clock w /\ drawn w' = drawn w.

End Frames.

(** ** The vocabulary of the outcomes of a task *)

Section Outcomes.

Variable env : Env.

(** The download directory once [autoCleanupIfNeeded] has run, and the run
    of [downloadVideo] that [processDownload] starts from the world [w]. *)
Definition cleaned_files (t : Task) (w : World) : gmap string Z :=
  autoCleanupIfNeeded env
    (match (getUploadedToNasJobIds (t_userId t) w).1 with Ok ids => ids | _ => [] end)
    (files w).

Definition download_of (t : Task) (w : World) : Download :=
  downloadVideo env t (cleaned_files t w).

(** The user of the task has no endpoint, or has not asked for the automatic
    upload. *)
Definition no_auto_upload (user : string) (w : World) : Prop :=
  nonempty (settings w !! user ≫= synologyEndpoint) = None \/
  settings w !! user ≫= autoUpload <> Some 1.

(** No request was sent between [w] and [w']. *)
Definition no_request (w w' : World) : Prop :=
  requests (trace w') = requests (trace w).

(** The download directory is the same in [w] and [w']. *)
Definition same_files (w w' : World) : Prop := files w' = files w.

(** The row that the end of an upload leaves for a job that was [j]. *)
Definition uploaded_row (j j' : DownloadJob) : Prop :=
  same_identity j j' /\ status j' = completed /\ progress j' = Some 100 /\
  uploadedToNas j' = Some 1.

(** The row that a failed upload of the route leaves, with the message [e]
    of the failure. *)
Definition failed_row (e : string) (j j' : DownloadJob) : Prop :=
  same_identity j j' /\ status j' = failed /\ progress j' = Some 0 /\
  errorMessage j' = Some ("Upload failed: " ++ e).

(** The message of the error that the upload loop throws on the answer to a
    chunk: the message of the rejection when [fetch] rejects, the status when
    it is neither 204 nor 200; none when the chunk is accepted. *)
Definition chunk_error (answer : string + HttpResponse) : option string :=
  match answer with
  | inl e => Some e
  | inr r =>
    if negb (rs_status r =? 204) && negb (rs_status r =? 200)
    then Some ("TUS patch failed: " ++ JsString.toString (rs_status r))
    else None
  end.

(** An offset that [while (uploadOffset < fileSize)] leaves the loop on. *)
Definition ends_loop (size : Z) (n : jsnum) : Prop :=
  match n with
  | NaN => True
  | Num z => size <= z
  end.

(** A request that carries a chunk of the file: a PATCH to the session with
    the offset [o] in its [Upload-Offset] and a buffer of at least one and at
    most [CHUNK_SIZE] bytes. Either [o] is a position of the file and the
    buffer holds the bytes from [o] on, none beyond the end of the file; or
    [o] is -1 and the buffer holds bytes of the file read where the handle
    was, none beyond the end of the file, and zeros after them. *)
Definition chunk_of (url path : string) (size : Z) (rq : HttpRequest) : Prop :=
  exists o len,
    rq_method rq = "PATCH" /\ rq_url rq = url /\
    headers_get "Upload-Offset" (rq_headers rq) = Some (JsString.toString o) /\
    0 < len <= CHUNK_SIZE /\
    ((0 <= o /\ o + len <= size /\ rq_body rq = FileSlice path o len) \/
     (o = -1 /\
      exists handle read,
        0 <= handle /\ 0 <= read <= len /\ handle + read <= size /\
        rq_body rq = Padded path handle read len)).

(** The text of a format, as the request carries it. *)
Definition format_text (f : Format) : string :=
  match f with
  | audio => "audio"
  | video => "video"
  end.

(** The row that [POST /api/download] inserts. *)
Definition queued_row (user : string) (rq : ValidRequest) (j : DownloadJob) : Prop :=
  userId j = user /\ youtubeUrl j = v_url rq /\ format j = v_format rq /\
  quality j = nonempty (v_quality rq) /\
  status j = queued /\ progress j = Some 0 /\ errorMessage j = None /\
  filePath j = None /\ fileSize j = None /\ uploadedToNas j = Some 0.

(** The reply is a refusal: the caller is not signed in, or there is no such
    job for them. *)
Definition refused (r : Reply) : Prop :=
  r = Json 401 (BMessage "Unauthorized") \/ r = Json 404 (BMessage "Job not found").

End Outcomes.

(** ** A concrete deployment, for the examples *)

Module Demo.

(** Modelled from the spec: the helpers of [server/youtube.ts], which is not
    among the sources. The artifact of a job is at a path derived from the
    job identifier and the kind; [cleanupDownloadFile] removes it when it is
    there; the disk has room, so [autoCleanupIfNeeded] deletes nothing. *)
Definition artifact (jobId : string) (f : Format) : string :=
  "/downloads/" ++ jobId ++ "." ++ FileName.ext f.

Definition demo_getDownloadFilePath (jobId : string) (f : Format) (fs : gmap string Z) : option string :=
  match fs !! artifact jobId f with
  | Some _ => Some (artifact jobId f)
  | None => None
  end.

Definition demo_cleanupDownloadFile (jobId : string) (fs : gmap string Z) : gmap string Z :=
  delete (artifact jobId audio) (delete (artifact jobId video) fs).

(** A fetch that reports 40 then 25 percent and then succeeds with a file of
    twelve mebibytes. *)
Definition demo_downloadVideo (t : Task) (fs : gmap string Z) : Download :=
  {| dl_progress :=
       [ mkProgress downloading (40 # 1) (Some "1.0MiB/s") (Some "00:10") None;
         mkProgress downloading (25 # 1) (Some "1.0MiB/s") (Some "00:12") None ];
     dl_files := <[artifact (t_jobId t) (t_format t) := 12582912]> fs;
     dl_result := inr (mkResult (artifact (t_jobId t) (t_format t)) 12582912) |}.

Definition is_method (m : string) (rq : HttpRequest) : bool := String.eqb (rq_method rq) m.

(** An upload endpoint that creates the session [/files/abc] and applies
    every chunk, answering with the offset it has reached. *)
Definition server_ok (_ : list Event) (rq : HttpRequest) : string + HttpResponse :=
  if is_method "POST" rq
  then inr (mkResponse 201 "Created" [("Location", "http://nas.local/files/abc")] (Some ""))
  else
    match rq_body rq with
    | FileSlice _ pos len =>
      inr (mkResponse 204 "No Content"
             [("Upload-Offset", JsString.toString (pos + len))] (Some ""))
    | Padded _ _ _ _ => inr (mkResponse 409 "Conflict" [] (Some ""))
    | NoBody => inr (mkResponse 400 "Bad Request" [] (Some ""))
    end.

(** An upload endpoint that answers 500 to everything. *)
Definition server_500 (_ : list Event) (rq : HttpRequest) : string + HttpResponse :=
  inr (mkResponse 500 "Internal Server Error" [] (Some "boom")).

(** An upload endpoint that creates a session without telling where. *)
Definition server_no_location (_ : list Event) (rq : HttpRequest) : string + HttpResponse :=
  inr (mkResponse 201 "Created" [] (Some "created")).

(** The message of Node for a position out of range. *)
Definition demo_ERR_OUT_OF_RANGE (position : Z) : string :=
  "The value of " ++ String "034" "position" ++ String "034"
    (" is out of range. It must be >= -1 && <= 9007199254740991. Received "
       ++ JsString.toString position).

Definition env_with (server : list Event -> HttpRequest -> string + HttpResponse) : Env :=
  {| getVideoInfo := fun _ _ => inr (mkInfo (FileName.units "clip") "thumb.jpg");
     downloadVideo := demo_downloadVideo;
     getDownloadFilePath := demo_getDownloadFilePath;
     cleanupDownloadFile := demo_cleanupDownloadFile;
     autoCleanupIfNeeded := fun _ fs => fs;
     fetch := server;
     URL_resolve := fun r b => Some (b ++ r);
     isUrl := JsString.startsWith "http";
     randomUUID := fun n => "job-" ++ pretty n;
     telemetry := fun _ => (Some "5.0MiB/s", Some "0:01");
     ERR_OUT_OF_RANGE := demo_ERR_OUT_OF_RANGE |}.

Definition env : Env := env_with server_ok.

Definition job1 (s : Status) : DownloadJob :=
  {| id := "j1"; userId := "alice"; youtubeUrl := "https://youtube.com/watch?v=1";
     videoTitle := Some (FileName.units "clip"); videoThumbnail := None;
     format := video; quality := Some "720p";
     status := s; progress := Some 100; errorMessage := None;
     filePath := Some (artifact "j1" video); fileSize := Some 12582912;
     uploadedToNas := Some 0; createdAt := Some 1; updatedAt := Some 2 |}.

Definition nas : UserSettings :=
  {| synologyEndpoint := Some "https://nas.local"; autoUpload := Some 1;
     proxyEnabled := Some 0; proxyType := None; proxyHost := None; proxyPort := None;
     proxyUsername := None; proxyPassword := None |}.

(** Alice has one job, in status [s], whose file is on disk. *)
Definition world (s : Status) : World :=
  {| jobs := {[ "j1" := job1 s ]};
     settings := {[ "alice" := nas ]};
     files := {[ artifact "j1" video := 12582912 ]};
     clock := 3; drawn := 0; trace := [] |}.

End Demo.

(** The task of Alice's job, and the values the examples share. *)
Definition task1 : Task := mkTask "j1" "alice" "https://youtube.com/watch?v=1" video (Some "720p") None.

(** A world like [Demo.world] where nothing is uploaded automatically. *)
Definition world_no_nas (s : Status) : World :=
  {| jobs := jobs (Demo.world s); settings := ∅; files := files (Demo.world s);
     clock := 3; drawn := 0; trace := [] |}.

Definition artifact1 : string := Demo.artifact "j1" video.

Definition twelve_MiB : Z := 12582912.

Definition env_500 : Env := Demo.env_with Demo.server_500.

Definition env_no_location : Env := Demo.env_with Demo.server_no_location.

(** An upload endpoint that creates the session and has no room for any
    chunk. *)
Definition server_full (_ : list Event) (rq : HttpRequest) : string + HttpResponse :=
  if Demo.is_method "POST" rq
  then inr (mkResponse 201 "Created" [("Location", "http://nas.local/files/abc")] (Some ""))
  else inr (mkResponse 507 "Insufficient Storage" [] (Some "")).

Definition env_full : Env := Demo.env_with server_full.



(** An upload endpoint that creates the session and acknowledges every chunk
    with the offset -5, and one that acknowledges it with the offset -1. *)
Definition server_behind (_ : list Event) (rq : HttpRequest) : string + HttpResponse :=
  if Demo.is_method "POST" rq
  then inr (mkResponse 201 "Created" [("Location", "http://nas.local/files/abc")] (Some ""))
  else inr (mkResponse 204 "No Content" [("Upload-Offset", "-5")] (Some "")).

Definition env_behind : Env := Demo.env_with server_behind.

Definition server_minus_one (_ : list Event) (rq : HttpRequest) : string + HttpResponse :=
  if Demo.is_method "POST" rq
  then inr (mkResponse 201 "Created" [("Location", "http://nas.local/files/abc")] (Some ""))
  else
    match rq_body rq with
    | FileSlice _ _ _ => inr (mkResponse 204 "No Content" [("Upload-Offset", "-1")] (Some ""))
    | _ => inr (mkResponse 409 "Conflict" [] (Some ""))
    end.

Definition env_minus_one : Env := Demo.env_with server_minus_one.



(** An upload endpoint that creates the session and acknowledges every chunk
    with an offset that is no number. *)
Definition server_garbled (_ : list Event) (rq : HttpRequest) : string + HttpResponse :=
  if Demo.is_method "POST" rq
  then inr (mkResponse 201 "Created" [("Location", "http://nas.local/files/abc")] (Some ""))
  else inr (mkResponse 204 "No Content" [("Upload-Offset", "done")] (Some "")).

Definition env_garbled : Env := Demo.env_with server_garbled.

(** A deployment where the video cannot be fetched. *)
Definition env_unavailable : Env :=
  {| getVideoInfo := getVideoInfo Demo.env;
     downloadVideo := fun _ fs =>
       {| dl_progress := [mkProgress downloading (10 # 1) None None None];
          dl_files := fs;
          dl_result := inl "Video unavailable" |};
     getDownloadFilePath := getDownloadFilePath Demo.env;
     cleanupDownloadFile := cleanupDownloadFile Demo.env;
     autoCleanupIfNeeded := autoCleanupIfNeeded Demo.env;
     fetch := fetch Demo.env;
     URL_resolve := URL_resolve Demo.env;
     isUrl := isUrl Demo.env;
     randomUUID := randomUUID Demo.env;
     telemetry := telemetry Demo.env;
     ERR_OUT_OF_RANGE := ERR_OUT_OF_RANGE Demo.env |}.

(** A submission of Alice's, as sent and as validated; the answer of the
    endpoint of the examples to a create request, and the session it names. *)
Definition submission : DownloadRequest :=
  mkBody (Some "https://youtube.com/watch?v=2") (Some "audio") (Some "best").

Definition accepted : ValidRequest :=
  mkValid "https://youtube.com/watch?v=2" audio (Some "best").

Definition created_response : HttpResponse :=
  mkResponse 201 "Created" [("Location", "http://nas.local/files/abc")] (Some "").

Definition session_url : string := "https://nas.local/files/abc".

Definition response_500 : HttpResponse :=
  mkResponse 500 "Internal Server Error" [] (Some "boom").

(** Alice's job with a file of 100 MiB, completed and not yet uploaded. *)
Definition world_100_MiB : World :=
  {| jobs := {[ "j1" := Demo.job1 completed ]};
     settings := {[ "alice" := Demo.nas ]};
     files := {[ Demo.artifact "j1" video := 104857600 ]};
     clock := 3; drawn := 0; trace := [] |}.

(** ** The list of a user's jobs *)

(** [ORDER BY created_at DESC]: [j1] may come before [j2]. A row without a
    creation time sorts as the oldest. *)
Definition not_older (j1 j2 : DownloadJob) : Prop :=
  match createdAt j1, createdAt j2 with
  | _, None => True
  | None, Some _ => False
  | Some a, Some b => b <= a
  end.

#[global] Instance not_older_dec : RelDecision not_older.
Proof.
  intros j1 j2. unfold not_older.
  destruct (createdAt j1), (createdAt j2); apply _.
Defined.

(** [storage.getDownloadJobsByUser]: the rows of the user, the newest first.
    SQL leaves the order of rows of the same creation time open; the model
    takes the one of a merge sort of the table. *)
Definition getDownloadJobsByUser (user : string) : M (list DownloadJob) :=
  get (fun w =>
         merge_sort not_older
           (filter (fun j => userId j = user) (map_to_list (jobs w)).*2)).

(** [GET /api/jobs]: the refusal of the middleware, or the list. *)
Definition get_jobs (session : option string) : M (Reply + list DownloadJob) :=
  match nonempty session with
  | Some user =>
    try_catch
      (jobs <- getDownloadJobsByUser user ;;
       ret (inr jobs))
      (fun _ => ret (inl (Json 500 (BMessage "Failed to fetch jobs"))))
  | None => ret (inl (Json 401 (BMessage "Unauthorized")))
  end.

(** ** The test of the connection to the endpoint *)

Module ConnectionTest.

(** The requests of the test: their body is empty or a buffer of zeros. *)
Inductive Payload : Type :=
| Empty
| Zeros (n : Z).

Record Request : Type := mkRequest {
  method : string;
  url : string;
  headers : list (string * string);
  payload : Payload
}.

(** The replies: that of the middleware, or a verdict. *)
Inductive Reply : Type :=
| Unauthorized
| Verdict (code : Z) (success : bool) (message : string) (details : option string).

Definition testFileSize : Z := 1024 * 1024.

(** [`test-connection-${Date.now()}.bin`] *)
Definition testFileName (now : Z) : string :=
  "test-connection-" ++ JsString.toString now ++ ".bin".

Section Route.

(** [new URL(relative, base).toString()], where [None] is the [TypeError] of
    an invalid URL, and [fetch] with the requests of the test sent before. *)
Variable URL_resolve : string -> string -> option string.
Variable fetch : list Request -> Request -> string + HttpResponse.

Definition create (endpoint : string) (now : Z) : Request :=
  {| method := "POST";
     url := endpoint;
     headers :=
       [("Tus-Resumable", "1.0.0");
        ("Upload-Length", JsString.toString testFileSize);
        ("Upload-Metadata",
         "filename " ++ FileName.filenameBase64 (FileName.units (testFileName now)))];
     payload := Empty |}.

Definition patch (fullUploadUrl : string) : Request :=
  {| method := "PATCH";
     url := fullUploadUrl;
     headers :=
       [("Tus-Resumable", "1.0.0");
        ("Upload-Offset", "0");
        ("Content-Type", "application/offset+octet-stream")];
     payload := Zeros testFileSize |}.

Definition cleanup (fullUploadUrl : string) : Request :=
  {| method := "DELETE";
     url := fullUploadUrl;
     headers := [("Tus-Resumable", "1.0.0")];
     payload := Empty |}.

(** The session URL made of the [Location] header. *)
Definition fullUploadUrl (uploadUrl endpoint : string) : option string :=
  if JsString.startsWith "http://" uploadUrl || JsString.startsWith "https://" uploadUrl
  then Some (JsString.upgradeScheme uploadUrl)
  else URL_resolve uploadUrl endpoint.

(** [POST /api/settings/test-synology], with the settings of the caller as
    [storage.getUserSettings] returns them and the time of [Date.now()]: the
    reply and the requests sent, in order. *)
Definition test_synology (session : option string) (st : option UserSettings) (now : Z)
    : Reply * list Request :=
  match nonempty session with
  | None => (Unauthorized, [])
  | Some _ =>
    match nonempty (st ≫= synologyEndpoint) with
    | None => (Verdict 400 false "TUS server endpoint not configured" None, [])
    | Some configured =>
      let endpoint := tusEndpoint configured in
      let createRequest := create endpoint now in
      match fetch [] createRequest with
      | inl fetchError =>
        (Verdict 400 false ("Cannot connect to TUS server: " ++ fetchError)
           (Some "Check if the server URL is correct and accessible via HTTPS"),
         [createRequest])
      | inr createResponse =>
        if negb (rs_status createResponse =? 201)
        then
          match nonempty (headers_get "Tus-Resumable" (rs_headers createResponse)) with
          | None =>
            (Verdict 400 false "Server does not support TUS protocol"
               (Some ("HTTP " ++ JsString.toString (rs_status createResponse)
                        ++ ": Server did not return Tus-Resumable header")),
             [createRequest])
          | Some _ =>
            (Verdict 400 false
               ("Upload initialization failed (HTTP "
                  ++ JsString.toString (rs_status createResponse) ++ ")")
               (Some (default (rs_statusText createResponse)
                        (nonempty (rs_text createResponse)))),
             [createRequest])
          end
        else
          match nonempty (headers_get "Location" (rs_headers createResponse)) with
          | None =>
            (Verdict 400 false "Server did not return upload location"
               (Some "TUS server must return Location header with upload ID"),
             [createRequest])
          | Some uploadUrl =>
            match fullUploadUrl uploadUrl endpoint with
            | None =>
              (Verdict 500 false "Internal server error during connection test"
                 (Some "Invalid URL"),
               [createRequest])
            | Some target =>
              let patchRequest := patch target in
              match fetch [createRequest] patchRequest with
              | inl patchError =>
                (Verdict 400 false ("Failed to upload test file: " ++ patchError) None,
                 [createRequest; patchRequest])
              | inr patchResponse =>
                if negb (rs_status patchResponse =? 204)
                   && negb (rs_status patchResponse =? 200)
                then
                  (Verdict 400 false
                     ("Upload failed (HTTP "
                        ++ JsString.toString (rs_status patchResponse) ++ ")")
                     (Some (default (rs_statusText patchResponse)
                              (nonempty (rs_text patchResponse)))),
                   [createRequest; patchRequest])
                else
                  let uploadComplete :=
                    bool_decide (headers_get "Upload-Offset" (rs_headers patchResponse)
                                 = Some (JsString.toString testFileSize)) in
                  (Verdict 200 true "Connection successful"
                     (Some ("Test file uploaded (1MB): " ++ testFileName now
                              ++ (if uploadComplete then " ✓" else ""))),
                   [createRequest; patchRequest; cleanup target])
              end
            end
          end
      end
    end
  end.

End Route.

(** The create request of the test is the one of an upload. *)
Definition as_upload (rq : Request) : HttpRequest :=
  {| rq_method := method rq; rq_url := url rq; rq_headers := headers rq; rq_body := NoBody |}.

(** The endpoint passes the test: it creates a session at a location that
    resolves to [target] and accepts the chunk sent there. *)
Definition passes (URL_resolve : string -> string -> option string)
    (fetch : list Request -> Request -> string + HttpResponse)
    (endpoint : string) (now : Z) (target : string) : Prop :=
  exists createResponse uploadUrl patchResponse,
    fetch [] (create endpoint now) = inr createResponse /\
    rs_status createResponse = 201 /\
    nonempty (headers_get "Location" (rs_headers createResponse)) = Some uploadUrl /\
    fullUploadUrl URL_resolve uploadUrl endpoint = Some target /\
    fetch [create endpoint now] (patch target) = inr patchResponse /\
    (rs_status patchResponse = 204 \/ rs_status patchResponse = 200).

Definition is_success (r : Reply) : Prop :=
  match r with
  | Verdict 200 true _ _ => True
  | _ => False
  end.

Definition is_failure (r : Reply) : Prop :=
  match r with
  | Verdict code false _ _ => code = 400 \/ code = 500
  | _ => False
  end.

End ConnectionTest.

(** ** The sockets of the users *)

Module Realtime.

(** A [WebSocket] of the server is known by a number; [ws.readyState] is
    what the environment says when the message goes out. *)
Definition Socket : Type := nat.

Inductive ReadyState : Type := CONNECTING | OPEN | CLOSING | CLOSED.

#[global] Instance ReadyState_eq_dec : EqDecision ReadyState.
Proof. solve_decision. Defined.

(** A [Set<WebSocket>]: no element twice, iteration in the order of
    insertion. *)
Definition Set_add (ws : Socket) (s : list Socket) : list Socket :=
  if bool_decide (ws ∈ s) then s else (s ++ [ws])%list.

Definition Set_delete (ws : Socket) (s : list Socket) : list Socket :=
  filter (fun x => x <> ws) s.

(** [const clients = new Map<string, Set<WebSocket>>()] *)
Abbreviation Clients := (gmap string (list Socket)).

(** [wss.on('connection', ...)], with the [userId] of the query string. *)
Definition connection (ws : Socket) (userId : option string) (clients : Clients) : Clients :=
  match nonempty userId with
  | Some u =>
    let clients1 :=
      if negb (bool_decide (is_Some (clients !! u))) then <[u := []]> clients else clients in
    alter (Set_add ws) u clients1
  | None => clients
  end.

(** [ws.on('close', ...)] of a socket that connected as [userId]. *)
Definition close (ws : Socket) (userId : string) (clients : Clients) : Clients :=
  match clients !! userId with
  | Some userClients =>
    let userClients1 := Set_delete ws userClients in
    if bool_decide (List.length userClients1 = 0%nat)
    then delete userId clients
    else <[userId := userClients1]> clients
  | None => clients
  end.

(** [broadcastToUser]: the sockets the message is sent to, in order. *)
Definition broadcastToUser (readyState : Socket -> ReadyState) (userId : string)
    (clients : Clients) : list Socket :=
  match clients !! userId with
  | Some userClients => filter (fun ws => readyState ws = OPEN) userClients
  | None => []
  end.

(** What happens to the server's sockets: one connects with the [userId] of
    its query string, or one that connected as [userId] closes. *)
Inductive WsEvent : Type :=
| Connection (ws : Socket) (userId : option string)
| Close (ws : Socket) (userId : string).

Definition step (clients : Clients) (e : WsEvent) : Clients :=
  match e with
  | Connection ws userId => connection ws userId clients
  | Close ws userId => close ws userId clients
  end.

Definition run (es : list WsEvent) (clients : Clients) : Clients :=
  fold_left step es clients.

(** The sockets of a user. *)
Definition sockets (clients : Clients) (userId : string) : list Socket :=
  default [] (clients !! userId).

(** The event is about the socket [ws] as a socket of [userId]. *)
Definition concerns (ws : Socket) (userId : string) (e : WsEvent) : bool :=
  match e with
  | Connection ws' u => bool_decide (ws' = ws) && bool_decide (nonempty u = Some userId)
  | Close ws' u => bool_decide (ws' = ws) && bool_decide (u = userId)
  end.

Definition is_connection (e : WsEvent) : bool :=
  match e with
  | Connection _ _ => true
  | Close _ _ => false
  end.

(** The last thing that happened to [ws] as a socket of [userId] is that it
    connected. *)
Definition connected (es : list WsEvent) (ws : Socket) (userId : string) : Prop :=
  is_connection <$> last (List.filter (concerns ws userId) es) = Some true.

(** No user is listed with no socket, and no socket is listed twice. *)
Definition tidy (clients : Clients) : Prop :=
  forall u s, clients !! u = Some s -> s <> [] /\ NoDup s.

End Realtime.

(** ** The client's view of a job *)

Module Client.

(** [x] as a condition, for a text that may be missing. *)
Definition truthy (x : option string) : bool :=
  match nonempty x with
  | Some _ => true
  | None => false
  end.

(** [jobProgressInfo], the speed and time left of the jobs. *)
Abbreviation ProgressInfo := (gmap string (option string * option string)).

(** [wsRef.current.onmessage], on a message that parses. *)
Definition onmessage (info : ProgressInfo) (message : WsMessage) : ProgressInfo :=
  match message with
  | job_update job speed eta =>
    match nonempty (id <$> job) with
    | Some jobId =>
      if truthy speed || truthy eta then <[jobId := (speed, eta)]> info
      else delete jobId info
    | None => info
    end
  | job_deleted jobId =>
    match nonempty (Some jobId) with
    | Some jobId' => delete jobId' info
    | None => info
    end
  end.

Definition receive (messages : list WsMessage) (info : ProgressInfo) : ProgressInfo :=
  fold_left onmessage messages info.

(** The conditions of [JobCard], from the job and the settings that
    [GET /api/settings] returned ([None]: the user has no settings, and the
    route answers with an empty object). *)
Definition autoUploadEnabled (st : option UserSettings) : bool :=
  match st with
  | Some s => bool_decide (autoUpload s = Some 1) || bool_decide (autoUpload s = None)
  | None => false
  end.

Definition nasConfigured (st : option UserSettings) : bool :=
  truthy (st ≫= synologyEndpoint).

Definition isActive (job : DownloadJob) : bool :=
  bool_decide (status job ∈ [downloading; converting; uploading; queued]).

Definition canCancel (job : DownloadJob) : bool := isActive job.

Definition canRetry (job : DownloadJob) : bool := bool_decide (status job = failed).

Definition canDelete (job : DownloadJob) : bool :=
  bool_decide (status job = completed) || bool_decide (status job = failed).

Definition canDownload (job : DownloadJob) : bool := bool_decide (status job = completed).

Definition canSendToNas (st : option UserSettings) (job : DownloadJob) : bool :=
  bool_decide (status job = completed) && nasConfigured st && negb (autoUploadEnabled st)
  && negb (bool_decide (uploadedToNas job = Some 1)).

(** The message is about the job [jobId]. *)
Definition about (jobId : string) (message : WsMessage) : bool :=
  match message with
  | job_update job _ _ => bool_decide (nonempty (id <$> job) = Some jobId)
  | job_deleted j => bool_decide (nonempty (Some j) = Some jobId)
  end.

(** What a message leaves in [jobProgressInfo] for the job it is about. *)
Definition left_by (message : WsMessage) : option (option string * option string) :=
  match message with
  | job_update _ speed eta => if truthy speed || truthy eta then Some (speed, eta) else None
  | job_deleted _ => None
  end.

(** The messages sent to [user] in the trace, the earliest first. *)
Definition messages_to (user : string) (t : list Event) : list WsMessage :=
  rev (omap (fun e =>
               match e with
               | EvBroadcast u m => if String.eqb u user then Some m else None
               | _ => None
               end) t).

End Client.

(** ** The store of sessions *)

Module SessionStore.

(** A row of the table [sessions], which has [sid] as its key. Both the
    session and the time it expires at are kept as text. *)
Record Row : Type := mkRow {
  sess : string;
  expire : string
}.

Abbreviation Table := (gmap string Row).

(** [a < b] on the texts of two columns, as SQLite compares them: byte by
    byte. *)
Definition before (a b : string) : bool := String.ltb a b.

Definition week : Z := 7 * 24 * 60 * 60 * 1000.

Section Store.

(** The sessions of [express-session] with their [cookie?.maxAge], and the
    functions of the platform: [JSON.stringify], [JSON.parse] (which throws
    on a text that is no JSON) and [Date.prototype.toISOString] of the date of
    an instant in milliseconds (which throws on a date out of range). *)
Context {Session : Type}.
Variable maxAge : Session -> option Z.
Variable JSON_stringify : Session -> string.
Variable JSON_parse : string -> string + Session.
Variable toISOString : Z -> string + string.

(** [session.cookie?.maxAge || 7 * 24 * 60 * 60 * 1000] *)
Definition ttl (session : Session) : Z :=
  match maxAge session with
  | Some m => if m =? 0 then week else m
  | None => week
  end.

(** [DELETE FROM sessions WHERE expire < ?], with the text of the present. *)
Definition clearExpiredSessions (now : string) (t : Table) : Table :=
  filter (fun kv => before (expire kv.2) now = false) t.

(** [get]: the error or the session handed to the callback. *)
Definition get (sid now : string) (t : Table) : string + option Session :=
  match t !! sid with
  | Some row =>
    if before now (expire row)
    then match JSON_parse (sess row) with
         | inl error => inl error
         | inr session => inr (Some session)
         end
    else inr None
  | None => inr None
  end.

(** [set], [destroy], [touch] and [clear]: the error handed to the callback,
    if any, and the table. [now] is [Date.now()]. *)
Definition set (sid : string) (session : Session) (now : Z) (t : Table) : option string * Table :=
  match toISOString (now + ttl session) with
  | inl error => (Some error, t)
  | inr expire => (None, <[sid := mkRow (JSON_stringify session) expire]> t)
  end.

Definition destroy (sid : string) (t : Table) : option string * Table :=
  (None, delete sid t).

Definition touch (sid : string) (session : Session) (now : Z) (t : Table) : option string * Table :=
  match toISOString (now + ttl session) with
  | inl error => (Some error, t)
  | inr expire => (None, alter (fun row => mkRow (sess row) expire) sid t)
  end.

Definition clear (t : Table) : option string * Table := (None, ∅).

(** [length]: [SELECT COUNT( * ) FROM sessions WHERE expire > ?] *)
Definition length (now : string) (t : Table) : nat :=
  size (filter (fun kv => before now (expire kv.2) = true) t).

(** What [get] hands over for a row that is there. *)
Definition read (now : string) (row : Row) : string + option Session :=
  if before now (expire row)
  then match JSON_parse (sess row) with
       | inl error => inl error
       | inr session => inr (Some session)
       end
  else inr None.

End Store.

End SessionStore.

(** ** Accounts *)

Module Auth.

(** A row of the table [users]. User names, passwords and names of persons
    are texts in UTF-16 code units. *)
Record User : Type := mkUser {
  id : string;
  username : option ustring;
  passwordHash : option string;
  email : option string;
  firstName : option ustring;
  lastName : option ustring;
  profileImageUrl : option string;
  isAdmin : option Z;
  language : option string;
  theme : option string;
  createdAt : option Z;
  updatedAt : option Z
}.

(** The table in the order of insertion, the clock and the count of the
    random values drawn. *)
Record Accounts : Type := mkAccounts {
  users : list User;
  clock : Z;
  drawn : nat
}.

Definition draw (a : Accounts) : Accounts :=
  {| users := users a; clock := clock a; drawn := S (drawn a) |}.

(** [x || null] on the text of a name. *)
Definition nonblank (x : option ustring) : option ustring :=
  match x with
  | Some [] => None
  | _ => x
  end.

(** The bodies of the requests, their fields texts when they are there. *)
Record Credentials : Type := mkCredentials {
  c_username : option ustring;
  c_password : option ustring;
  c_firstName : option ustring;
  c_lastName : option ustring
}.

Record Registration : Type := mkRegistration {
  r_username : ustring;
  r_password : ustring;
  r_firstName : option ustring;
  r_lastName : option ustring
}.

(** [loginSchema] and [registerSchema]: [None] is a [ZodError]. *)
Definition loginSchema (b : Credentials) : option (ustring * ustring) :=
  match c_username b, c_password b with
  | Some u, Some p =>
    if (3 <=? Z.of_nat (List.length u)) && (6 <=? Z.of_nat (List.length p))
    then Some (u, p) else None
  | _, _ => None
  end.

Definition registerSchema (b : Credentials) : option Registration :=
  match c_username b, c_password b with
  | Some u, Some p =>
    if (3 <=? Z.of_nat (List.length u)) && (6 <=? Z.of_nat (List.length p))
    then Some (mkRegistration u p (c_firstName b) (c_lastName b)) else None
  | _, _ => None
  end.

(** [updatePreferencesSchema] *)
Definition updatePreferencesSchema (lang thm : option string) : option (string * string) :=
  match lang, thm with
  | Some l, Some t =>
    if (String.eqb l "en" || String.eqb l "ru") && (String.eqb t "light" || String.eqb t "dark")
    then Some (l, t) else None
  | _, _ => None
  end.

(** The replies: a message, the account as [register] and [login] describe
    it (with the preferences in the reply of [login] only), the whole row of
    the user, or [{ success: true }]. *)
Inductive Body : Type :=
| AMessage (message : string)
| AInvalid (message : string)
| AAccount (id : string) (username firstName lastName : option ustring) (isAdmin : option Z)
    (preferences : option (option string * option string))
| AUser (user : option User)
| ASuccess.

Record Reply : Type := Json {
  code : Z;
  body : Body
}.

Section Routes.

(** [crypto.randomUUID], [bcrypt.hash] with the salt it draws, and
    [bcrypt.compare]. *)
Variable randomUUID : nat -> string.
Variable bcrypt_hash : ustring -> nat -> string.
Variable bcrypt_compare : ustring -> string -> bool.

(** [storage.getUser] and [storage.getUserByUsername]: the first row of the
    selection. *)
Definition getUser (userId : string) (a : Accounts) : option User :=
  List.find (fun u => String.eqb (id u) userId) (users a).

Definition getUserByUsername (name : ustring) (a : Accounts) : option User :=
  List.find (fun u => bool_decide (username u = Some name)) (users a).

(** [storage.createLocalUser] as the route calls it, [isAdmin] left to its
    default 0. The insertion fails on an identifier or a user name that is
    taken. *)
Definition createLocalUser (name : ustring) (hash : string) (first last : option ustring)
    (a : Accounts) : (string + option User) * Accounts :=
  let userId := randomUUID (drawn a) in
  let a1 := draw a in
  let row := {| id := userId; username := Some name; passwordHash := Some hash;
                email := None; firstName := nonblank first; lastName := nonblank last;
                profileImageUrl := None; isAdmin := Some 0;
                language := Some "en"; theme := Some "light";
                createdAt := Some (clock a); updatedAt := Some (clock a) |} in
  if bool_decide (is_Some (getUser userId a))
  then (inl "UNIQUE constraint failed: users.id", a1)
  else if bool_decide (is_Some (getUserByUsername name a))
  then (inl "UNIQUE constraint failed: users.username", a1)
  else
    let a2 := {| users := (users a ++ [row])%list; clock := clock a1; drawn := drawn a1 |} in
    (inr (getUser userId a2), a2).

(** [storage.updateUserPreferences] *)
Definition updateUserPreferences (userId lang thm : string) (a : Accounts)
    : option User * Accounts :=
  let a1 :=
    {| users :=
         map (fun u =>
                if String.eqb (id u) userId
                then {| id := id u; username := username u; passwordHash := passwordHash u;
                        email := email u; firstName := firstName u; lastName := lastName u;
                        profileImageUrl := profileImageUrl u; isAdmin := isAdmin u;
                        language := Some lang; theme := Some thm;
                        createdAt := createdAt u; updatedAt := Some (clock a) |}
                else u) (users a);
       clock := clock a; drawn := drawn a |} in
  (getUser userId a1, a1).

(** The handlers: the reply, [req.session.userId] afterwards, the table. *)
Definition post_register (session : option string) (b : Credentials) (a : Accounts)
    : Reply * option string * Accounts :=
  match registerSchema b with
  | None => (Json 400 (AInvalid "Invalid registration data"), session, a)
  | Some validatedData =>
    match getUserByUsername (r_username validatedData) a with
    | Some _ => (Json 400 (AMessage "Username already exists"), session, a)
    | None =>
      let hash := bcrypt_hash (r_password validatedData) (drawn a) in
      match createLocalUser (r_username validatedData) hash
              (r_firstName validatedData) (r_lastName validatedData) (draw a) with
      | (inr (Some user), a') =>
        (Json 200 (AAccount (id user) (username user) (firstName user) (lastName user)
                     (isAdmin user) None),
         Some (id user), a')
      | (_, a') => (Json 500 (AMessage "Failed to register user"), session, a')
      end
    end
  end.

Definition post_login (session : option string) (b : Credentials) (a : Accounts)
    : Reply * option string * Accounts :=
  match loginSchema b with
  | None => (Json 400 (AInvalid "Invalid login data"), session, a)
  | Some (name, password) =>
    match getUserByUsername name a with
    | Some user =>
      match nonempty (passwordHash user) with
      | Some hash =>
        if negb (bcrypt_compare password hash)
        then (Json 401 (AMessage "Invalid username or password"), session, a)
        else
          (Json 200 (AAccount (id user) (username user) (firstName user) (lastName user)
                       (isAdmin user) (Some (language user, theme user))),
           Some (id user), a)
      | None => (Json 401 (AMessage "Invalid username or password"), session, a)
      end
    | None => (Json 401 (AMessage "Invalid username or password"), session, a)
    end
  end.

(** [req.session.destroy], with the error of the store if there is one. *)
Definition post_logout (storeError : option string) (session : option string) (a : Accounts)
    : Reply * option string * Accounts :=
  match storeError with
  | Some _ => (Json 500 (AMessage "Failed to logout"), None, a)
  | None => (Json 200 ASuccess, None, a)
  end.

Definition get_auth_user (session : option string) (a : Accounts)
    : Reply * option string * Accounts :=
  match nonempty session with
  | None => (Json 401 (AMessage "Unauthorized"), session, a)
  | Some userId =>
    match getUser userId a with
    | None => (Json 401 (AMessage "User not found"), session, a)
    | Some user => (Json 200 (AUser (Some user)), session, a)
    end
  end.

Definition put_preferences (session : option string) (lang thm : option string) (a : Accounts)
    : Reply * option string * Accounts :=
  match nonempty session with
  | None => (Json 401 (AMessage "Unauthorized"), session, a)
  | Some userId =>
    match updatePreferencesSchema lang thm with
    | None => (Json 400 (AInvalid "Invalid preferences data"), session, a)
    | Some (l, t) =>
      let r := updateUserPreferences userId l t a in
      (Json 200 (AUser r.1), session, r.2)
    end
  end.

End Routes.

(** The identity and the credentials of an account. *)
Definition credentials (u : User) : string * option ustring * option string * option Z :=
  (id u, username u, passwordHash u, isAdmin u).

(** No two rows with the same identifier, nor with the same user name. *)
Definition unique (a : Accounts) : Prop :=
  NoDup (id <$> users a) /\ NoDup (omap username (users a)).

(** The account of the name [name], with a password hash. *)
Definition account (a : Accounts) (name : ustring) (user : User) (hash : string) : Prop :=
  user ∈ users a /\ username user = Some name /\ passwordHash user = Some hash /\ hash <> "".

End Auth.

(** ** Further values for the examples *)

(** Alice's settings with the automatic upload switched off, and her
    completed job under them. *)
Definition nas_manual : UserSettings :=
  {| synologyEndpoint := Some "https://nas.local"; autoUpload := Some 0;
     proxyEnabled := Some 0; proxyType := None; proxyHost := None; proxyPort := None;
     proxyUsername := None; proxyPassword := None |}.

Definition world_manual : World :=
  {| jobs := {[ "j1" := Demo.job1 completed ]};
     settings := {[ "alice" := nas_manual ]};
     files := {[ Demo.artifact "j1" video := 12582912 ]};
     clock := 3; drawn := 0; trace := [] |}.

(** A client that shows a speed for Alice's job. *)
Definition info1 : Client.ProgressInfo := {[ "j1" := (Some "1.0MiB/s", Some "00:10") ]}.

(** Sessions that are a user identifier and the [maxAge] of their cookie,
    written as the identifier; instants written as their number of
    milliseconds in thirteen digits, as they are from 2001 to 2286. *)
Definition demo_maxAge (session : string * option Z) : option Z := session.2.

Definition demo_stringify (session : string * option Z) : string := session.1.

Definition demo_parse (text : string) : string + (string * option Z) := inr (text, None).

Definition demo_toISOString (instant : Z) : string + string :=
  if (1000000000000 <=? instant) && (instant <? 10000000000000)
  then inr (JsString.toString instant)
  else inl "Invalid time value".

Definition sessions1 : SessionStore.Table :=
  {[ "sid-old" := SessionStore.mkRow "bob" "1700000000000";
     "sid-now" := SessionStore.mkRow "carol" "1700000500000" ]}.

(** Hashes that are the salt and the password, in text. *)
Definition demo_password (p : ustring) : string :=
  String.concat "," (map (fun c : N => pretty c) p).

Definition demo_hash (p : ustring) (salt : nat) : string :=
  "$" ++ pretty salt ++ "$" ++ demo_password p.

Definition demo_compare (p : ustring) (hash : string) : bool :=
  JsString.endsWith ("$" ++ demo_password p) hash.

Definition demo_uuid (n : nat) : string := "user-" ++ pretty n.

Definition alice_credentials : Auth.Credentials :=
  Auth.mkCredentials (Some (FileName.units "alice")) (Some (FileName.units "secret1"))
    (Some (FileName.units "Alice")) None.

Definition no_accounts : Auth.Accounts := Auth.mkAccounts [] 5 0.

(** An endpoint for the connection test that creates a session and accepts
    the chunk, and one that does not speak the protocol. *)
Definition test_server_ok (sent : list ConnectionTest.Request) (rq : ConnectionTest.Request)
    : string + HttpResponse :=
  if String.eqb (ConnectionTest.method rq) "POST"
  then inr (mkResponse 201 "Created" [("Location", "/files/t1")] (Some ""))
  else inr (mkResponse 204 "No Content" [("Upload-Offset", "1048576")] (Some "")).

Definition test_server_plain (sent : list ConnectionTest.Request) (rq : ConnectionTest.Request)
    : string + HttpResponse :=
  inr (mkResponse 404 "Not Found" [] (Some "")).

Definition demo_resolve (relative base : string) : option string :=
  Some ("https://nas.local" ++ relative).

(** ** Numbers and names as text *)

Section Encodings.

Lemma digit_pretty_N_char (d : N) :
  (d < 10)%N -> ParseInt.digit (pretty_N_char d) = Some (Z.of_N d).
Proof.
  intros H.
  assert (d = 0 \/ d = 1 \/ d = 2 \/ d = 3 \/ d = 4 \/ d = 5 \/ d = 6 \/ d = 7 \/ d = 8 \/ d = 9)%N
    as E by lia.
  repeat (destruct E as [->|E]; [reflexivity|]). now subst d.
Qed.

(** Reading the digits that [pretty] wrote gives the number back. *)
Lemma digits_pretty_N_go (x : N) :
  forall s, exists k : Z, 0 <= k /\ forall acc,
    ParseInt.digits acc (pretty_N_go x s) = ParseInt.digits (acc * 10 ^ k + Z.of_N x) s.
Proof.
  induction (N.lt_wf_0 x) as [x _ IH]. intros s.
  destruct (N.eq_dec x 0) as [->|Hx].
  - exists 0. split; [lia|]. intros acc. rewrite pretty_N_go_0. f_equal. lia.
  - rewrite pretty_N_go_step by lia.
    destruct (IH (x / 10)%N ltac:(apply N.div_lt; lia)
                (String (pretty_N_char (x mod 10)) s)) as (k & Hk & E).
    exists (k + 1). split; [lia|]. intros acc. rewrite E.
    cbn [ParseInt.digits]. rewrite digit_pretty_N_char by (apply N.mod_lt; lia).
    f_equal. rewrite Z.pow_add_r, Z.pow_1_r by lia.
    pose proof (N.div_mod x 10 ltac:(lia)) as D. lia.
Qed.

Lemma pretty_N_go_head (x : N) :
  forall s, (0 < x)%N ->
  exists c rest, pretty_N_go x s = String c rest /\ ParseInt.digit c <> None.
Proof.
  induction (N.lt_wf_0 x) as [x _ IH]. intros s Hx.
  rewrite pretty_N_go_step by lia.
  destruct (N.eq_dec (x / 10) 0) as [E|E].
  - rewrite E, pretty_N_go_0. eexists _, _. split; [reflexivity|].
    rewrite digit_pretty_N_char by (apply N.mod_lt; lia). discriminate.
  - apply IH; [apply N.div_lt; lia | now apply N.neq_0_lt_0].
Qed.

Lemma unsigned_pretty_pos (p : positive) :
  ParseInt.unsigned (pretty p) = Num (Zpos p) /\
  JsString.trimStart (pretty p) = pretty p /\
  (forall r, pretty p <> String "-" r) /\ (forall r, pretty p <> String "+" r).
Proof.
  unfold pretty, pretty_positive, pretty, pretty_N.
  destruct (decide (N.pos p = 0%N)) as [E|_]; [discriminate E|].
  destruct (pretty_N_go_head (N.pos p) "" ltac:(lia)) as (c & rest & E & Hc).
  destruct (digits_pretty_N_go (N.pos p) "") as (k & _ & Hd).
  assert (Hu : ParseInt.unsigned (pretty_N_go (N.pos p) "") = Num (Z.pos p)).
  { unfold ParseInt.unsigned. rewrite E. destruct (ParseInt.digit c) eqn:Ec; [|congruence].
    rewrite <- E, Hd. cbn. reflexivity. }
  split; [exact Hu|]. rewrite E.
  split; [|split].
  - cbn. destruct (JsString.is_space c) eqn:Es; [|reflexivity].
    exfalso. apply Hc. clear -Es.
    destruct c as [[] [] [] [] [] [] [] []]; try reflexivity; discriminate Es.
  - intros r [= -> _]. now apply Hc.
  - intros r [= -> _]. now apply Hc.
Qed.

(** [parseInt(n.toString(), 10)] is [n]: the offset that the client writes
    in a header is the one a server reads there, and conversely. *)
Lemma parseInt_toString (z : Z) : ParseInt.parseInt (JsString.toString z) = Num z.
Proof.
  unfold JsString.toString, pretty, pretty_Z. destruct z as [|p|p].
  - reflexivity.
  - destruct (unsigned_pretty_pos p) as (Hu & Ht & Hm & Hp).
    unfold ParseInt.parseInt. rewrite Ht.
    destruct (pretty p) as [|c r] eqn:E; [exact Hu|].
    destruct (Ascii.eqb_spec c "-") as [->|Hc1]; [now destruct (Hm r)|].
    destruct (Ascii.eqb_spec c "+") as [->|Hc2]; [now destruct (Hp r)|].
    destruct c as [[] [] [] [] [] [] [] []]; try exact Hu; congruence.
  - destruct (unsigned_pretty_pos p) as (Hu & _).
    change (ParseInt.parseInt ("-" +:+ pretty p))
      with (ParseInt.negate (ParseInt.unsigned (pretty p))).
    now rewrite Hu.
Qed.

Lemma b64_char_text (n : N) : FileName.is_b64 (FileName.b64_char n) = true.
Proof.
  unfold FileName.b64_char, FileName.is_b64.
  destruct (N.ltb_spec n 26).
  { rewrite N_ascii_embedding by lia.
    replace (65 <=? 65 + n)%N with true by (symmetry; apply N.leb_le; lia).
    replace (65 + n <=? 90)%N with true by (symmetry; apply N.leb_le; lia). reflexivity. }
  destruct (N.ltb_spec n 52).
  { rewrite N_ascii_embedding by lia.
    replace (97 <=? 97 + (n - 26))%N with true by (symmetry; apply N.leb_le; lia).
    replace (97 + (n - 26) <=? 122)%N with true by (symmetry; apply N.leb_le; lia).
    cbn. now rewrite !orb_true_r. }
  destruct (N.ltb_spec n 62).
  { rewrite N_ascii_embedding by lia.
    replace (48 <=? 48 + (n - 52))%N with true by (symmetry; apply N.leb_le; lia).
    replace (48 + (n - 52) <=? 57)%N with true by (symmetry; apply N.leb_le; lia).
    cbn. now rewrite !orb_true_r. }
  destruct (n =? 62)%N; reflexivity.
Qed.

(** Induction on a list, three elements at a time. *)
Lemma list_ind3 (P : list N -> Prop) :
  P [] -> (forall a, P [a]) -> (forall a b, P [a; b]) ->
  (forall a b c r, P r -> P (a :: b :: c :: r)) ->
  forall l, P l.
Proof.
  intros H0 H1 H2 H3 l.
  cut (P l /\ (forall a, P (a :: l)) /\ (forall a b, P (a :: b :: l))); [tauto|].
  induction l as [|c r (IH0 & IH1 & IH2)]; auto.
Qed.

(** The encoding of a file name is a base64 text, four characters for
    every three bytes. *)
Lemma base64_text (bs : list N) :
  FileName.all_chars FileName.is_b64 (FileName.base64 bs) = true.
Proof.
  induction bs as [|a|a b|a b c r IH] using list_ind3;
    cbn [FileName.base64 FileName.all_chars];
    rewrite ?b64_char_text; try reflexivity.
  exact IH.
Qed.

Lemma base64_length (bs : list N) :
  String.length (FileName.base64 bs) = (4 * ((List.length bs + 2) / 3))%nat.
Proof.
  induction bs as [|a|a b|a b c r IH] using list_ind3; try reflexivity.
  cbn [FileName.base64 String.length List.length]. rewrite IH.
  replace (S (S (S (List.length r))) + 2)%nat with (1 * 3 + (List.length r + 2))%nat by lia.
  rewrite Nat.div_add_l by lia. lia.
Qed.

End Encodings.

Ltac qcmp H := first [apply Qeq_alt in H | apply Qlt_alt in H | apply Qgt_alt in H].

(** ** Doubles *)

Section Doubles.

Import Double.

Local Open Scope Q_scope.

Lemma two_to_pos (e : Z) : 0 < two_to e.
Proof. now apply Qpower_0_lt. Qed.

Lemma two_to_plus (a b : Z) : two_to (a + b) == two_to a * two_to b.
Proof. now apply Qpower_plus. Qed.

Lemma two_to_succ (a : Z) : two_to (a + 1) == 2 * two_to a.
Proof. rewrite two_to_plus. unfold two_to at 2. rewrite Qpower_1_r. ring. Qed.

Lemma two_to_le (a b : Z) : (a <= b)%Z -> two_to a <= two_to b.
Proof. intros H. now apply Qpower_le_compat_l. Qed.

Lemma two_to_lt_inv (a b : Z) : two_to a < two_to b -> (a < b)%Z.
Proof. intros H. now apply (Qpower_lt_compat_l_inv 2). Qed.

Lemma two_to_inject (n : Z) : (0 <= n)%Z -> two_to n == inject_Z (2 ^ n).
Proof. intros H. unfold two_to. now rewrite Zpower_Qpower. Qed.

Lemma two_to_cancel (a : Z) : two_to a * two_to (- a) == 1.
Proof. rewrite <- two_to_plus. now replace (a + - a)%Z with 0%Z by lia. Qed.

Lemma pos_fraction (n : Z) (d : positive) : 0 < n # d -> (0 < n)%Z.
Proof. unfold Qlt. cbn. lia. Qed.

Lemma quotient_between (q qn qd ta tb x : Q) :
  0 < tb -> 0 < x -> 0 < q -> q * qd == qn ->
  ta <= qn -> qn < 2 * ta -> tb <= qd -> qd < 2 * tb -> ta == x * tb ->
  q < 2 * x /\ x < 2 * q.
Proof.
  intros Hb Hx Hq E Hn1 Hn2 Hd1 Hd2 Ea. split.
  - apply Qnot_le_lt. intros H.
    assert (2 * x * tb <= q * qd) by (apply Qmult_le_compat_nonneg; split; lra).
    lra.
  - apply Qnot_le_lt. intros H.
    assert (q * qd <= (x * (1 # 2)) * (2 * tb)) by (apply Qmult_le_compat_nonneg; split; lra).
    nra.
Qed.

Lemma exponent_spec (q : Q) :
  0 < q -> two_to (exponent q) <= q /\ q < two_to (exponent q + 1).
Proof.
  intros Hq. destruct q as [n d]. pose proof (pos_fraction _ _ Hq) as Hn.
  unfold exponent. cbn [Qnum Qden].
  set (a := Z.log2 n). set (b := Z.log2 (Z.pos d)).
  destruct (Z.log2_spec n Hn) as [Ha1 Ha2]. fold a in Ha1, Ha2.
  destruct (Z.log2_spec (Z.pos d) ltac:(lia)) as [Hb1 Hb2]. fold b in Hb1, Hb2.
  assert (Ha0 : (0 <= a)%Z) by apply Z.log2_nonneg.
  assert (Hb0 : (0 <= b)%Z) by apply Z.log2_nonneg.
  assert (Hd : 0 < inject_Z (Z.pos d)) by (unfold Qlt; cbn; lia).
  assert (Hn1 : two_to a <= inject_Z n).
  { rewrite two_to_inject by lia. now rewrite <- Zle_Qle. }
  assert (Hn2 : inject_Z n < 2 * two_to a).
  { rewrite <- two_to_succ, two_to_inject by lia. rewrite <- Zlt_Qlt.
    now rewrite <- Z.add_1_r in Ha2. }
  assert (Hd1 : two_to b <= inject_Z (Z.pos d)).
  { rewrite two_to_inject by lia. now rewrite <- Zle_Qle. }
  assert (Hd2 : inject_Z (Z.pos d) < 2 * two_to b).
  { rewrite <- two_to_succ, two_to_inject by lia. rewrite <- Zlt_Qlt.
    now rewrite <- Z.add_1_r in Hb2. }
  assert (Ea : two_to a == two_to (a - b) * two_to b).
  { rewrite <- two_to_plus. now replace (a - b + b)%Z with a by lia. }
  assert (Eq : (n # d) * inject_Z (Z.pos d) == inject_Z n).
  { rewrite (Qmake_Qdiv n d). field. intros H. rewrite H in Hd. now apply Qlt_irrefl in Hd. }
  destruct (quotient_between _ _ _ _ _ _ (two_to_pos b) (two_to_pos (a - b)) Hq
              Eq Hn1 Hn2 Hd1 Hd2 Ea) as [Hu Hl].
  destruct (Qle_bool (two_to (a - b)) (n # d)) eqn:Hc.
  - apply Qle_bool_iff in Hc. split; [exact Hc|]. now rewrite two_to_succ.
  - assert (Hlt : n # d < two_to (a - b)).
    { apply Qnot_le_lt. intros H. apply Qle_bool_iff in H. congruence. }
    replace (a - b - 1 + 1)%Z with (a - b)%Z by lia. split; [|exact Hlt].
    assert (Eh : two_to (a - b) == 2 * two_to (a - b - 1)).
    { rewrite <- two_to_succ. now replace (a - b - 1 + 1)%Z with (a - b)%Z by lia. }
    rewrite Eh in Hl. clear -Hl. set (t := two_to (a - b - 1)) in *. clearbody t.
    set (q := n # d) in *. clearbody q. lra.
Qed.

Lemma exponent_mono (x y : Q) : 0 < x -> x <= y -> (exponent x <= exponent y)%Z.
Proof.
  intros Hx Hxy.
  destruct (exponent_spec x Hx) as [Lx _].
  destruct (exponent_spec y ltac:(lra)) as [_ Uy].
  assert (H : two_to (exponent x) < two_to (exponent y + 1)) by lra.
  apply two_to_lt_inv in H. lia.
Qed.

Lemma nearest_even_bounds (q : Q) :
  (Qfloor q <= nearest_even q <= Qfloor q + 1)%Z.
Proof.
  unfold nearest_even. destruct (_ ?= _)%Q; [destruct (Z.even _)| |]; lia.
Qed.

Lemma nearest_even_inject (z : Z) : nearest_even (inject_Z z) = z.
Proof.
  unfold nearest_even. rewrite Qfloor_Z.
  destruct (_ ?= _)%Q eqn:E; [| reflexivity |].
  - apply Qeq_alt in E. lra.
  - apply Qgt_alt in E. lra.
Qed.

Lemma nearest_even_mono (x y : Q) : x <= y -> (nearest_even x <= nearest_even y)%Z.
Proof.
  intros H. pose proof (Qfloor_resp_le _ _ H) as Hf.
  destruct (Z.eq_dec (Qfloor x) (Qfloor y)) as [E|N].
  - unfold nearest_even. rewrite E.
    destruct (x - inject_Z (Qfloor y) ?= 1 # 2) eqn:Ex;
      destruct (y - inject_Z (Qfloor y) ?= 1 # 2) eqn:Ey;
      try (destruct (Z.even (Qfloor y))); try lia;
      qcmp Ex; qcmp Ey; lra.
  - pose proof (nearest_even_bounds x). pose proof (nearest_even_bounds y). lia.
Qed.

Lemma round_pos_bounds (q : Q) :
  0 < q -> two_to (exponent q) <= round_pos q /\ round_pos q <= two_to (exponent q + 1).
Proof.
  intros Hq. destruct (exponent_spec q Hq) as [L U].
  unfold round_pos. set (e := exponent q) in *.
  pose proof (two_to_pos (52 - e)) as P. pose proof (two_to_pos (e - 52)) as P'.
  assert (E1 : two_to e * two_to (52 - e) == inject_Z (2 ^ 52)).
  { rewrite <- two_to_plus. replace (e + (52 - e))%Z with 52%Z by lia. reflexivity. }
  assert (E2 : two_to (e + 1) * two_to (52 - e) == inject_Z (2 ^ 53)).
  { rewrite <- two_to_plus. replace (e + 1 + (52 - e))%Z with 53%Z by lia. reflexivity. }
  assert (E3 : inject_Z (2 ^ 52) * two_to (e - 52) == two_to e).
  { change (inject_Z (2 ^ 52)) with (two_to 52). rewrite <- two_to_plus.
    now replace (52 + (e - 52))%Z with e by lia. }
  assert (E4 : inject_Z (2 ^ 53) * two_to (e - 52) == two_to (e + 1)).
  { change (inject_Z (2 ^ 53)) with (two_to 53). rewrite <- two_to_plus.
    now replace (53 + (e - 52))%Z with (e + 1)%Z by lia. }
  assert (S1 : inject_Z (2 ^ 52) <= q * two_to (52 - e)).
  { rewrite <- E1. apply Qmult_le_compat_r; lra. }
  assert (S2 : q * two_to (52 - e) <= inject_Z (2 ^ 53)).
  { rewrite <- E2. apply Qmult_le_compat_r; lra. }
  apply nearest_even_mono in S1, S2. rewrite nearest_even_inject in S1, S2.
  rewrite Zle_Qle in S1, S2.
  split.
  - rewrite <- E3. apply Qmult_le_compat_r; lra.
  - rewrite <- E4. apply Qmult_le_compat_r; lra.
Qed.

Lemma round_pos_mono (x y : Q) : 0 < x -> x <= y -> round_pos x <= round_pos y.
Proof.
  intros Hx Hxy. pose proof (exponent_mono x y Hx Hxy) as He.
  destruct (Z.eq_dec (exponent x) (exponent y)) as [E|N].
  - unfold round_pos. rewrite E. set (e := exponent y).
    pose proof (two_to_pos (52 - e)) as P. pose proof (two_to_pos (e - 52)) as P'.
    apply Qmult_le_compat_r; [|lra]. rewrite <- Zle_Qle.
    apply nearest_even_mono. apply Qmult_le_compat_r; lra.
  - destruct (round_pos_bounds x Hx) as [_ U].
    destruct (round_pos_bounds y ltac:(lra)) as [L _].
    pose proof (two_to_le (exponent x + 1) (exponent y) ltac:(lia)). lra.
Qed.

Lemma round_pos_pos (q : Q) : 0 < q -> 0 < round_pos q.
Proof.
  intros Hq. destruct (round_pos_bounds q Hq) as [L _].
  pose proof (two_to_pos (exponent q)). lra.
Qed.

(** Rounding to a double keeps the order. *)
Lemma round_mono (x y : Q) : x <= y -> round x <= round y.
Proof.
  intros H. unfold round.
  destruct (x ?= 0) eqn:Ex; destruct (y ?= 0) eqn:Ey;
    qcmp Ex; qcmp Ey; try lra.
  - pose proof (round_pos_pos y Ey). lra.
  - pose proof (round_pos_pos (- x) ltac:(lra)). lra.
  - pose proof (round_pos_mono (- y) (- x) ltac:(lra) ltac:(lra)). lra.
  - pose proof (round_pos_pos (- x) ltac:(lra)). pose proof (round_pos_pos y Ey). lra.
  - now apply round_pos_mono.
Qed.


(** An integer half way between two doubles goes to the one whose last bit
    is 0. *)
Example round_ties_to_even :
  round (inject_Z (2 ^ 53 + 1)) == inject_Z (2 ^ 53) /\
  round (inject_Z (2 ^ 53 + 3)) == inject_Z (2 ^ 53 + 4) /\
  round (3 # 22) == 4913017775313268 # 36028797018963968.
Proof. vm_compute. repeat split. Qed.

Lemma round_0 : round 0 == 0.
Proof. reflexivity. Qed.

Lemma round_nonneg (x : Q) : 0 <= x -> 0 <= round x.
Proof. intros H. apply round_mono in H. now rewrite round_0 in H. Qed.



End Doubles.

(** ** Properties *)

Section Properties.

Variable env : Env.

Lemma requireAuth_pass (user : string) (next : string -> M Reply) :
  user ≠ "" -> requireAuth (Some user) next = next user.
Proof. intros H. unfold requireAuth. destruct user; [congruence | reflexivity]. Qed.

Lemma owned_Some (user : string) (j : DownloadJob) :
  userId j = user -> owned user (Some j) = Some j.
Proof. intros <-. unfold owned. now rewrite String.eqb_refl. Qed.

Lemma owned_None (user : string) (job : option DownloadJob) :
  (forall j, job = Some j -> userId j ≠ user) -> owned user job = None.
Proof.
  intros H. destruct job as [j|]; [|reflexivity].
  unfold owned. destruct (String.eqb_spec (userId j) user) as [E|E]; [|reflexivity].
  now destruct (H j eq_refl).
Qed.

Lemma lookup_alter_Some (f : DownloadJob -> DownloadJob) (m : gmap string DownloadJob)
    (k : string) (j : DownloadJob) :
  m !! k = Some j -> alter f k m !! k = Some (f j).
Proof. intros H. now rewrite lookup_alter_eq, H. Qed.

Ltac run_route H :=
  rewrite requireAuth_pass by assumption;
  cbv [try_catch bind getDownloadJob get not_found ret];
  rewrite H.

Lemma post_cancel_not_owned (w : World) (user jobId : string) :
  user ≠ "" -> owned user (jobs w !! jobId) = None ->
  post_cancel (Some user) jobId w = (Ok reply_not_found, w).
Proof. intros Hu H. unfold post_cancel. now run_route H. Qed.

Lemma post_retry_not_owned (w : World) (user jobId : string) :
  user ≠ "" -> owned user (jobs w !! jobId) = None ->
  post_retry env (Some user) jobId w = (Ok reply_not_found, w).
Proof. intros Hu H. unfold post_retry. now run_route H. Qed.

Lemma delete_job_not_owned (w : World) (user jobId : string) :
  user ≠ "" -> owned user (jobs w !! jobId) = None ->
  delete_job env (Some user) jobId w = (Ok reply_not_found, w).
Proof. intros Hu H. unfold delete_job. now run_route H. Qed.

Lemma get_download_not_owned (w : World) (user jobId : string) :
  user ≠ "" -> owned user (jobs w !! jobId) = None ->
  get_download env (Some user) jobId w = (Ok reply_not_found, w).
Proof. intros Hu H. unfold get_download. now run_route H. Qed.

(** C10. For an authenticated caller, when the job does not exist or belongs
    to another user, each of cancel, retry, delete and file download answers
    404 "Job not found" and leaves the whole state as it was: no row, no
    file, no message, no task. In particular a request of a caller who is
    not the owner never changes the owner's job. *)
Theorem per_job_routes_reject_non_owner (w : World) (user jobId : string) :
  user ≠ "" ->
  (forall j, jobs w !! jobId = Some j -> userId j ≠ user) ->
  post_cancel (Some user) jobId w = (Ok reply_not_found, w) /\
  post_retry env (Some user) jobId w = (Ok reply_not_found, w) /\
  delete_job env (Some user) jobId w = (Ok reply_not_found, w) /\
  get_download env (Some user) jobId w = (Ok reply_not_found, w).
Proof.
  intros Hu H. apply owned_None in H.
  auto using post_cancel_not_owned, post_retry_not_owned,
    delete_job_not_owned, get_download_not_owned.
Qed.

(** C9. Cancelling an existing job of the caller answers 200 and leaves the
    job [failed] with the message "Cancelled by user", whatever its status
    was, [completed] included; the other columns keep their values. *)
Theorem cancel_overwrites_any_status (w : World) (user jobId : string) (j : DownloadJob) :
  user ≠ "" -> jobs w !! jobId = Some j -> userId j = user ->
  exists w' j',
    post_cancel (Some user) jobId w = (Ok (Json 200 (BJob (Some j'))), w') /\
    jobs w' !! jobId = Some j' /\
    j' = apply_updates cancel_update (clock w) j /\
    status j' = failed /\ errorMessage j' = Some "Cancelled by user" /\
    progress j' = progress j /\ filePath j' = filePath j /\
    uploadedToNas j' = uploadedToNas j.
Proof.
  intros Hu Hj Ho.
  unfold post_cancel. rewrite requireAuth_pass by assumption.
  cbv [try_catch bind getDownloadJob get ret]. rewrite Hj, (owned_Some _ _ Ho).
  cbv [updateDownloadJob bind modify getDownloadJob get broadcastToUser ret]. cbn.
  rewrite (lookup_alter_Some _ _ _ _ Hj).
  eexists _, _. split; [reflexivity|]. cbn.
  rewrite (lookup_alter_Some _ _ _ _ Hj). repeat split.
Qed.

(** C4, amended. Retrying an existing job of the caller is accepted in every
    status: the local file is cleaned up, the job gets status [queued],
    progress 0, no error message, no file path, no file size and the
    uploaded flag 0, the update is broadcast and [processDownload] is
    started again on the job's URL, format and quality. It is rejected, with
    404 and no effect, only when the job does not exist or is not the
    caller's. *)
Theorem retry_requeues_in_any_status (w : World) (user jobId : string) :
  user ≠ "" ->
  (forall j, jobs w !! jobId = Some j -> userId j = user ->
     exists w' j',
       post_retry env (Some user) jobId w = (Ok (Json 200 (BJob (Some j'))), w') /\
       jobs w' !! jobId = Some j' /\
       j' = apply_updates retry_update (clock w) j /\
       status j' = queued /\ progress j' = Some 0 /\ errorMessage j' = None /\
       filePath j' = None /\ fileSize j' = None /\ uploadedToNas j' = Some 0 /\
       files w' = cleanupDownloadFile env jobId (files w) /\
       trace w' =
         EvSpawn (mkTask jobId user (youtubeUrl j) (format j) (quality j) None)
         :: EvBroadcast user (job_update (Some j') None None)
         :: EvDb jobId retry_update :: trace w) /\
  (owned user (jobs w !! jobId) = None ->
     post_retry env (Some user) jobId w = (Ok reply_not_found, w)).
Proof.
  intros Hu. split; [|now apply post_retry_not_owned].
  intros j Hj Ho.
  unfold post_retry. rewrite requireAuth_pass by assumption.
  cbv [try_catch bind getDownloadJob get ret]. rewrite Hj, (owned_Some _ _ Ho).
  cbv [updateDownloadJob bind modify getDownloadJob get broadcastToUser spawn ret]. cbn.
  rewrite (lookup_alter_Some _ _ _ _ Hj).
  eexists _, _. split; [reflexivity|]. cbn.
  rewrite (lookup_alter_Some _ _ _ _ Hj). repeat split.
Qed.

(** *** Submission *)

Lemma schema_rejects_foreign_url (b : DownloadRequest) :
  (forall url, b_url b = Some url ->
     JsString.includes "youtube.com" url = false /\
     JsString.includes "youtu.be" url = false) ->
  downloadRequestSchema env b = None.
Proof.
  intros H. unfold downloadRequestSchema.
  destruct (b_url b) as [url|]; [|reflexivity].
  destruct (H url eq_refl) as [-> ->].
  rewrite andb_false_r. now destruct (b_format b).
Qed.

Lemma schema_rejects_unknown_kind (b : DownloadRequest) :
  b_format b ≠ Some "audio" -> b_format b ≠ Some "video" ->
  downloadRequestSchema env b = None.
Proof.
  intros Ha Hv. unfold downloadRequestSchema.
  destruct (b_url b) as [url|]; [|reflexivity].
  destruct (b_format b) as [f|]; [|reflexivity].
  destruct (String.eqb_spec f "audio") as [->|_]; [congruence|].
  destruct (String.eqb_spec f "video") as [->|_]; [congruence|].
  now destruct (_ && _).
Qed.

(** C8, amended. A submission of an authenticated user whose URL contains
    neither "youtube.com" nor "youtu.be" anywhere in its text, or whose
    format is neither "audio" nor "video", is answered 400 "Invalid download
    request"; one that passes validation but whose metadata probe fails is
    answered 400 with the message of the probe. In each case the state is
    left as it was: no job row is inserted and no download task is started.
    The test on the URL is one of substrings, not of the host. *)
Theorem bad_submission_creates_no_job (w : World) (user : string) (b : DownloadRequest) :
  user ≠ "" ->
  ((forall url, b_url b = Some url ->
      JsString.includes "youtube.com" url = false /\
      JsString.includes "youtu.be" url = false) ->
   post_download env (Some user) b w
   = (Ok (Json 400 (BInvalid "Invalid download request")), w)) /\
  (b_format b ≠ Some "audio" -> b_format b ≠ Some "video" ->
   post_download env (Some user) b w
   = (Ok (Json 400 (BInvalid "Invalid download request")), w)) /\
  (forall v infoError,
     downloadRequestSchema env b = Some v ->
     getVideoInfo env (v_url v) (proxyConfig (settings w !! user)) = inl infoError ->
     post_download env (Some user) b w
     = (Ok (Json 400 (BMessage ("Cannot get video info: " ++ infoError))), w)).
Proof.
  intros Hu. unfold post_download. rewrite requireAuth_pass by assumption.
  repeat split.
  - intros H. now rewrite (schema_rejects_foreign_url _ H).
  - intros Ha Hv. now rewrite (schema_rejects_unknown_kind _ Ha Hv).
  - intros v e Hv He. rewrite Hv.
    cbv [try_catch bind getUserSettings get ret]. now rewrite He.
Qed.

End Properties.

(** *** Progress reported by the fetch client *)

Section ProgressCallback.

Lemma Math_round_mono (x y : Q) : (x <= y)%Q -> Math_round x <= Math_round y.
Proof.
  intros H. unfold Math_round. apply Qfloor_resp_le.
  now apply Qplus_le_compat; [|apply Qle_refl].
Qed.


(** The callback does nothing on a job that is gone or [failed]. *)
Lemma progress_callback_dropped (w : World) (jobId user : string) (p : Progress) :
  (forall j, jobs w !! jobId = Some j -> status j = failed) ->
  progress_callback jobId user p w = (Ok tt, w).
Proof.
  intros H. cbv [progress_callback bind getDownloadJob get ret].
  destruct (jobs w !! jobId) as [j|]; [|reflexivity].
  rewrite (H j eq_refl). reflexivity.
Qed.

(** On any other job it stores the rounded value and the status it is given. *)
Lemma progress_callback_stores (w : World) (jobId user : string) (p : Progress) (j : DownloadJob) :
  jobs w !! jobId = Some j -> status j ≠ failed ->
  exists w',
    progress_callback jobId user p w = (Ok tt, w') /\
    jobs w' !! jobId = Some (apply_updates (callback_update p) (clock w) j).
Proof.
  intros Hj Hs. cbv [progress_callback bind getDownloadJob get ret]. rewrite Hj.
  rewrite bool_decide_eq_false_2 by assumption.
  cbv [updateDownloadJob bind modify getDownloadJob get broadcastToUser ret]. cbn.
  eexists. split; [reflexivity|]. cbn. now apply lookup_alter_Some.
Qed.

Lemma for_each_dropped (w : World) (jobId user : string) (ps : list Progress) :
  (forall j, jobs w !! jobId = Some j -> status j = failed) ->
  for_each (progress_callback jobId user) ps w = (Ok tt, w).
Proof.
  intros H. induction ps as [|p ps IH]; [reflexivity|].
  cbn [for_each]. unfold bind. now rewrite (progress_callback_dropped _ _ _ _ H).
Qed.

(** What the callbacks of [ps] leave in the column [progress]. *)
Lemma persisted_effective (jobId user : string) (ps : list Progress) :
  forall (w : World) (j : DownloadJob),
    jobs w !! jobId = Some j -> status j ≠ failed ->
    persisted w jobId user ps
    = Some match effective ps with
           | Some q => Some (Math_round (pg_progress q))
           | None => progress j
           end.
Proof.
  induction ps as [|p ps IH]; intros w j Hj Hs.
  - unfold persisted. cbn. now rewrite Hj.
  - destruct (progress_callback_stores w jobId user p j Hj Hs) as (w1 & E1 & H1).
    assert (E : persisted w jobId user (p :: ps) = persisted w1 jobId user ps).
    { unfold persisted. cbn [for_each]. unfold bind at 1. now rewrite E1. }
    rewrite E. cbn [effective].
    destruct (decide (pg_status p = failed)) as [Hp|Hp].
    + rewrite bool_decide_eq_true_2 by exact Hp.
      unfold persisted. rewrite for_each_dropped; [cbn; now rewrite H1|].
      intros j1 Hj1. rewrite H1 in Hj1. injection Hj1 as <-. exact Hp.
    + rewrite bool_decide_eq_false_2 by exact Hp.
      rewrite (IH w1 _ H1 Hp). now destruct (effective ps).
Qed.

Lemma effective_snoc (ps : list Progress) (p : Progress) :
  Forall (fun q => pg_status q ≠ failed) ps -> effective (ps ++ [p]) = Some p.
Proof.
  induction 1 as [|q ps Hq _ IH]; cbn [app effective].
  - now destruct (bool_decide _).
  - rewrite bool_decide_eq_false_2 by exact Hq. now rewrite IH.
Qed.

(** C2, amended. For a job that exists and is not [failed], the value
    persisted after a sequence of progress callbacks is the rounded value of
    one of the reports, and no maximum is kept: it is the value of the first
    report that carries the status [failed], after which the callbacks do
    nothing, and the value of the last report when no report before it
    carries that status. So, as long as no report carries the status
    [failed], a report that is not below the one before it persists a value
    that is not below the one persisted before. *)
Theorem persisted_progress_follows_reports (w : World) (jobId user : string)
    (j : DownloadJob) (ps : list Progress) (p1 p2 : Progress) :
  jobs w !! jobId = Some j -> status j ≠ failed ->
  (forall qs,
     persisted w jobId user qs
     = Some match effective qs with
            | Some q => Some (Math_round (pg_progress q))
            | None => progress j
            end) /\
  (Forall (fun q => pg_status q ≠ failed) ps ->
   persisted w jobId user (ps ++ [p1]) = Some (Some (Math_round (pg_progress p1)))) /\
  (Forall (fun q => pg_status q ≠ failed) (ps ++ [p1]) ->
   persisted w jobId user (ps ++ [p1; p2]) = Some (Some (Math_round (pg_progress p2))) /\
   ((pg_progress p1 <= pg_progress p2)%Q ->
    exists a b,
      persisted w jobId user (ps ++ [p1]) = Some (Some a) /\
      persisted w jobId user (ps ++ [p1; p2]) = Some (Some b) /\ a <= b)) /\
  (pg_status p1 = failed ->
   persisted w jobId user (p1 :: ps) = Some (Some (Math_round (pg_progress p1)))).
Proof.
  intros Hj Hs.
  assert (H1 : Forall (fun q => pg_status q ≠ failed) ps ->
               persisted w jobId user (ps ++ [p1]) = Some (Some (Math_round (pg_progress p1)))).
  { intros Hps. now rewrite (persisted_effective _ _ _ w j Hj Hs), effective_snoc. }
  split; [intros qs; now apply persisted_effective|]. split; [exact H1|]. split.
  - intros Hps.
    assert (H2 : persisted w jobId user (ps ++ [p1; p2])
                 = Some (Some (Math_round (pg_progress p2)))).
    { replace (ps ++ [p1; p2])%list with ((ps ++ [p1]) ++ [p2])%list
        by now rewrite <- app_assoc.
      now rewrite (persisted_effective _ _ _ w j Hj Hs), effective_snoc. }
    split; [exact H2|]. intros Hle.
    apply Forall_app in Hps as [Hps _].
    eexists _, _. split; [exact (H1 Hps)|]. split; [exact H2|]. now apply Math_round_mono.
  - intros Hf. rewrite (persisted_effective _ _ _ w j Hj Hs). cbn [effective].
    now rewrite bool_decide_eq_true_2 by exact Hf.
Qed.

End ProgressCallback.

(** *** Cancellation against the tasks still running *)

Section Cancellation.

(** C1. A job is cancelled while its download runs. The cancellation puts
    the job in [failed], and a progress callback that comes later changes
    nothing; but when the download then resolves, [processDownload] writes
    [completed] and progress 100 over [failed] without reading the job
    again. Likewise the chunk loop of an upload, going on after a
    cancellation, writes [uploading] over [failed]. *)
Theorem cancelled_job_is_resurrected :
  let cancelled := (post_cancel (Some "alice") "j1" (world_no_nas downloading)).2 in
  let reported :=
    (progress_callback "j1" "alice" (mkProgress downloading (50 # 1) None None None) cancelled).2 in
  let resolved :=
    (download_resolved Demo.env 8 task1 (mkResult (Demo.artifact "j1" video) 12582912) reported).2 in
  let cancelled_upload := (post_cancel (Some "alice") "j1" (world_no_nas uploading)).2 in
  let next_chunk :=
    (upload_chunks Demo.env 8 Manual "j1" "alice" (Demo.artifact "j1" video)
       "https://nas.local/files/abc" 12582912 (Num 5242880) cancelled_upload).2 in
  status <$> jobs cancelled !! "j1" = Some failed /\
  reported = cancelled /\
  status <$> jobs resolved !! "j1" = Some completed /\
  progress <$> jobs resolved !! "j1" = Some (Some 100) /\
  status <$> jobs cancelled_upload !! "j1" = Some failed /\
  status <$> jobs next_chunk !! "j1" = Some uploading.
Proof. vm_compute. repeat split. Qed.

End Cancellation.

(** *** The chunk loop *)

Section ChunkLoop.

Variable env : Env.

Lemma ceil_div_spec (n c : Z) :
  0 < c -> c * (ceil_div n c - 1) < n <= c * ceil_div n c.
Proof.
  intros Hc. unfold ceil_div.
  pose proof (Z.div_mod (n + c - 1) c ltac:(lia)) as E.
  pose proof (Z.mod_pos_bound (n + c - 1) c Hc) as B.
  lia.
Qed.

Lemma status_applied (r : HttpResponse) :
  rs_status r = 204 \/ rs_status r = 200 ->
  negb (rs_status r =? 204) && negb (rs_status r =? 200) = false.
Proof. intros [-> | ->]; reflexivity. Qed.

(** A read at a position of the file. *)
Lemma readSync_at (path : string) (size handle chunkSize position : Z) :
  0 <= position ->
  readSync env path size handle chunkSize position
  = inr (FileSlice path position chunkSize, handle).
Proof.
  intros H. unfold readSync.
  replace (position <? -1) with false by (symmetry; apply Z.ltb_ge; lia).
  now replace (position =? -1) with false by (symmetry; apply Z.eqb_neq; lia).
Qed.

(** One turn of the loop on a response that is accepted. *)
Lemma upload_chunks_step (fuel : nat) (k : UploadKind) (jobId user path url : string)
    (size off : Z) (w : World) (r : HttpResponse) :
  0 <= off < size ->
  fetch env (trace w) (patch_request url path off (Z.min CHUNK_SIZE (size - off))) = inr r ->
  rs_status r = 204 \/ rs_status r = 200 ->
  exists w1,
    upload_chunks env (S fuel) k jobId user path url size (Num off) w
    = upload_chunks env fuel k jobId user path url size
        (acknowledged r off (Z.min CHUNK_SIZE (size - off))) w1 /\
    requests (trace w1)
    = (requests (trace w) ++ [patch_request url path off (Z.min CHUNK_SIZE (size - off))])%list.
Proof.
  intros Hlt Hf Hs. unfold upload_chunks. cbn [upload_loop].
  replace (off <? size) with true by (symmetry; apply Z.ltb_lt; lia).
  cbn [negb]. rewrite (readSync_at path size 0 _ off (proj1 Hlt)).
  fold (patch_request url path off (Z.min CHUNK_SIZE (size - off))).
  cbv [bind do_fetch settle_fetch]. rewrite Hf.
  cbv [ret]. rewrite (status_applied _ Hs).
  cbv [get updateDownloadJob bind modify getDownloadJob broadcastToUser ret].
  eexists. split; [reflexivity|]. reflexivity.
Qed.

Lemma chunks_left_zero (size off : Z) :
  0 <= off <= size -> Z.to_nat (ceil_div (size - off) CHUNK_SIZE) = O -> off = size.
Proof.
  intros Ho Hz.
  pose proof (ceil_div_spec (size - off) CHUNK_SIZE ltac:(reflexivity)) as B.
  assert (ceil_div (size - off) CHUNK_SIZE <= 0) by lia. unfold CHUNK_SIZE in *. lia.
Qed.

Lemma chunks_left_succ (size off : Z) (m : nat) :
  0 <= off <= size -> Z.to_nat (ceil_div (size - off) CHUNK_SIZE) = S m ->
  off < size /\
  Z.to_nat (ceil_div (size - (off + Z.min CHUNK_SIZE (size - off))) CHUNK_SIZE) = m /\
  (m <> O -> Z.min CHUNK_SIZE (size - off) = CHUNK_SIZE).
Proof.
  intros Ho Hm.
  pose proof (ceil_div_spec (size - off) CHUNK_SIZE ltac:(reflexivity)) as B.
  pose proof (ceil_div_spec (size - (off + Z.min CHUNK_SIZE (size - off))) CHUNK_SIZE
                ltac:(reflexivity)) as B'.
  unfold CHUNK_SIZE in *. lia.
Qed.

Lemma expected_cons (url path : string) (size off : Z) (m : nat) :
  expected url path size off (S m)
  = patch_request url path off (Z.min CHUNK_SIZE (size - off))
    :: expected url path size (off + CHUNK_SIZE) m.
Proof.
  unfold expected. cbn [seq map]. f_equal.
  - now rewrite Z.add_0_r.
  - rewrite <- seq_shift, map_map. apply map_ext. intros i. cbv zeta.
    replace (off + Z.of_nat (S i) * CHUNK_SIZE) with (off + CHUNK_SIZE + Z.of_nat i * CHUNK_SIZE)
      by lia.
    reflexivity.
Qed.

Lemma upload_chunks_run (k : UploadKind) (jobId user path url : string) (size : Z) :
  applies_chunks env url path ->
  forall (m fuel : nat) (off : Z) (w : World),
    0 <= off <= size ->
    Z.to_nat (ceil_div (size - off) CHUNK_SIZE) = m -> (m <= fuel)%nat ->
    exists w',
      upload_chunks env fuel k jobId user path url size (Num off) w = (Ok (Num size), w') /\
      requests (trace w') = (requests (trace w) ++ expected url path size off m)%list.
Proof.
  intros Hsrv. induction m as [|m IH]; intros fuel off w Ho Hm Hfuel.
  - apply chunks_left_zero in Hm; [|assumption]. subst off.
    exists w. split; [|now rewrite app_nil_r].
    destruct fuel; unfold upload_chunks; cbn [upload_loop]; now rewrite Z.ltb_irrefl.
  - destruct fuel as [|fuel]; [lia|].
    destruct (chunks_left_succ _ _ _ Ho Hm) as (Hlt & Hm' & Hfull).
    destruct (Hsrv (trace w) off (Z.min CHUNK_SIZE (size - off))
                ltac:(lia) ltac:(unfold CHUNK_SIZE; lia)) as (r & Hf & Hs & Hack).
    destruct (upload_chunks_step fuel k jobId user path url size off w r
                ltac:(lia) Hf Hs) as (w1 & E & Hrq).
    rewrite E, Hack.
    destruct (IH fuel (off + Z.min CHUNK_SIZE (size - off)) w1) as (w' & E' & Hrq');
      [unfold CHUNK_SIZE; lia | exact Hm' | lia |].
    exists w'. split; [exact E'|].
    rewrite Hrq', Hrq, <- app_assoc, expected_cons. cbn [app]. do 2 f_equal.
    destruct m as [|m']; [reflexivity|]. now rewrite Hfull.
Qed.

End ChunkLoop.

(** *** Upload progress *)

Section UploadProgress.

Variable env : Env.

































End UploadProgress.

(** *** The creation handshake *)

Section Handshake.

Variable env : Env.

#[local] Arguments String.append !_ _ /.

Lemma startsWith_app (n b : string) : JsString.startsWith n (n ++ b) = true.
Proof.
  induction n as [|c n IH]; cbn [JsString.startsWith append]; [reflexivity|].
  now rewrite Ascii.eqb_refl.
Qed.

Lemma includes_startsWith (n s : string) :
  JsString.startsWith n s = true -> JsString.includes n s = true.
Proof. intros H. destruct s; cbn; rewrite H; reflexivity. Qed.

Lemma includes_app (n a b : string) : JsString.includes n (a ++ n ++ b) = true.
Proof.
  induction a as [|c a IH]; cbn [append].
  - apply includes_startsWith, startsWith_app.
  - cbn [JsString.includes]. rewrite IH. apply orb_true_r.
Qed.

Lemma startsWith_refl (n : string) : JsString.startsWith n n = true.
Proof.
  induction n as [|c n IH]; cbn [JsString.startsWith]; [reflexivity|].
  now rewrite Ascii.eqb_refl.
Qed.

Lemma includes_suffix (n a : string) : JsString.includes n (a ++ n) = true.
Proof.
  induction a as [|c a IH]; cbn [append].
  - apply includes_startsWith, startsWith_refl.
  - cbn [JsString.includes]. rewrite IH. apply orb_true_r.
Qed.

Lemma rev_app_append (a b c : string) :
  String.rev_app (a ++ b) c = String.rev_app b (String.rev_app a c).
Proof. revert c. induction a as [|x a IH]; intros c; cbn; [reflexivity | apply IH]. Qed.

(** The endpoint of the uploads always ends with [/files/]. *)
Lemma tusEndpoint_files (endpoint : string) :
  JsString.endsWith "/files/" (tusEndpoint endpoint) = true.
Proof.
  unfold tusEndpoint. set (e := JsString.stripTrailingSlash (JsString.trim endpoint)).
  destruct (JsString.endsWith "/files" e) eqn:E; cbn [negb];
    unfold JsString.endsWith, String.rev in *; rewrite rev_app_append.
  - exact E.
  - reflexivity.
Qed.

Lemma substring_all (s : string) : String.substring 0 (String.length s) s = s.
Proof. induction s as [|c s IH]; cbn; [reflexivity | now rewrite IH]. Qed.

(** An absolute location keeps its text, but for [http:] made [https:]. *)
Lemma fullUploadUrl_http (rest endpoint : string) :
  fullUploadUrl env ("http://" ++ rest) endpoint = ret ("https://" ++ rest).
Proof.
  unfold fullUploadUrl, JsString.upgradeScheme. cbn.
  now rewrite substring_all.
Qed.

Lemma fullUploadUrl_https (rest endpoint : string) :
  fullUploadUrl env ("https://" ++ rest) endpoint = ret ("https://" ++ rest).
Proof. reflexivity. Qed.

Lemma fullUploadUrl_relative (u endpoint : string) :
  JsString.startsWith "http://" u = false -> JsString.startsWith "https://" u = false ->
  fullUploadUrl env u endpoint
  = match URL_resolve env u endpoint with
    | Some url => ret url
    | None => throw "Invalid URL"
    end.
Proof. intros H1 H2. unfold fullUploadUrl. now rewrite H1, H2. Qed.

Lemma nonempty_Some (s : string) : s <> "" -> nonempty (Some s) = Some s.
Proof. destruct s; [congruence | reflexivity]. Qed.

Lemma existing_found (w : World) (path : string) (size : Z) :
  path <> "" -> files w !! path = Some size -> existing w (Some path) = Some path.
Proof.
  intros Hn Hs. unfold existing. rewrite (nonempty_Some _ Hn).
  rewrite bool_decide_eq_true_2; [reflexivity | now rewrite Hs].
Qed.

Ltac enter_upload H :=
  destruct H as [[Hj Hc Hp Hn Hs] Hu Ho Hf He Hcf];
  unfold post_upload_to_nas; rewrite requireAuth_pass by assumption;
  cbv [try_catch bind getDownloadJob getUserSettings get ret];
  rewrite Hj, (owned_Some _ _ Ho), Hc;
  rewrite bool_decide_eq_true_2 by reflexivity; cbn [negb];
  rewrite bool_decide_eq_false_2 by assumption;
  rewrite He, (nonempty_Some _ Hcf), Hp, (existing_found _ _ _ Hn Hs), Hs;
  cbn [default from_option]; unfold Datatypes.id; cbv [settle_fetch].

Ltac enter_auto H :=
  destruct H as [Hj Hc Hp Hn Hs];
  unfold autoUploadToNas;
  cbv [try_catch bind getDownloadJob get ret];
  rewrite Hj, Hc;
  rewrite bool_decide_eq_true_2 by reflexivity; cbn [negb];
  rewrite Hp, (existing_found _ _ _ Hn Hs), Hs; cbn [default from_option]; unfold Datatypes.id.

(** The route, on a create request answered with a status other than 201. *)
Lemma post_upload_rejected (w : World) (user jobId : string) (j : DownloadJob)
    (configured path : string) (size : Z) (fuel : nat) (r : HttpResponse) :
  uploadable env w user jobId j configured path size ->
  fetch env (trace w) (create_request (tusEndpoint configured) size (FileName.filename j)) = inr r ->
  rs_status r <> 201 ->
  post_upload_to_nas env fuel (Some user) jobId w
  = (Ok (Json 400 (BUploadError (rejected_message r) (rejected_details r))),
     emit (EvFetch (create_request (tusEndpoint configured) size (FileName.filename j))) w).
Proof.
  intros H Hr Hst. enter_upload H. rewrite Hr.
  replace (rs_status r =? 201) with false by (symmetry; now apply Z.eqb_neq).
  reflexivity.
Qed.

(** [autoUploadToNas], on a create request answered with a status other
    than 201: the error is thrown with nothing sent after the request. *)
Lemma autoUpload_rejected (w : World) (user jobId : string) (j : DownloadJob)
    (endpoint path : string) (size : Z) (fuel : nat) (r : HttpResponse) :
  stored env w jobId j path size ->
  (forall hist,
     fetch env hist (create_request (tusEndpoint endpoint) size (FileName.filename j)) = inr r) ->
  rs_status r <> 201 ->
  exists w',
    autoUploadToNas env fuel jobId user endpoint w
    = (Throw ("TUS create failed: " ++ JsString.toString (rs_status r)), w') /\
    files w' = files w /\
    requests (trace w')
    = (requests (trace w)
       ++ [create_request (tusEndpoint endpoint) size (FileName.filename j)])%list.
Proof.
  intros H Hr Hst. enter_auto H.
  cbv [updateDownloadJob bind modify getDownloadJob get broadcastToUser ret do_fetch settle_fetch].
  cbn. rewrite Hr. cbv [ret bind].
  replace (rs_status r =? 201) with false by (symmetry; now apply Z.eqb_neq).
  cbn. eexists. split; [reflexivity|]. split; reflexivity.
Qed.

(** The same, with the row that is left: the one written before the create
    request. *)
Lemma autoUpload_rejected_row (w : World) (user jobId : string) (j : DownloadJob)
    (endpoint path : string) (size : Z) (fuel : nat) (r : HttpResponse) :
  stored env w jobId j path size ->
  (forall hist,
     fetch env hist (create_request (tusEndpoint endpoint) size (FileName.filename j)) = inr r) ->
  rs_status r <> 201 ->
  exists w',
    autoUploadToNas env fuel jobId user endpoint w
    = (Throw ("TUS create failed: " ++ JsString.toString (rs_status r)), w') /\
    files w' = files w /\
    requests (trace w')
    = (requests (trace w)
       ++ [create_request (tusEndpoint endpoint) size (FileName.filename j)])%list /\
    jobs w' !! jobId = Some (apply_updates (progress_update (Some 90)) (clock w) j).
Proof.
  intros H Hr Hst. pose proof (st_job _ _ _ _ _ _ H) as Hjob. enter_auto H.
  cbv [updateDownloadJob bind modify getDownloadJob get broadcastToUser ret do_fetch settle_fetch].
  cbn. rewrite Hr. cbv [ret bind].
  replace (rs_status r =? 201) with false by (symmetry; now apply Z.eqb_neq).
  cbn. eexists. split; [reflexivity|]. split; [reflexivity|]. split; [reflexivity|].
  cbn. now apply lookup_alter_Some.
Qed.

Lemma status_eqb_201 (r : HttpResponse) : rs_status r = 201 -> negb (rs_status r =? 201) = false.
Proof. now intros ->. Qed.

(** The route, on a 201 without a location. *)
Lemma post_upload_no_location (w : World) (user jobId : string) (j : DownloadJob)
    (configured path : string) (size : Z) (fuel : nat) (r : HttpResponse) :
  uploadable env w user jobId j configured path size ->
  fetch env (trace w) (create_request (tusEndpoint configured) size (FileName.filename j)) = inr r ->
  rs_status r = 201 ->
  nonempty (headers_get "Location" (rs_headers r)) = None ->
  post_upload_to_nas env fuel (Some user) jobId w
  = (Ok (Json 400 (BUploadError "Server did not return upload location" None)),
     emit (EvFetch (create_request (tusEndpoint configured) size (FileName.filename j))) w).
Proof.
  intros H Hr Hst Hl. enter_upload H. rewrite Hr, (status_eqb_201 _ Hst), Hl. reflexivity.
Qed.

(** The route, on a 201 with a location that resolves to [url]: the job is
    put in [uploading] and the chunks go to [url]. *)
Lemma post_upload_created (w : World) (user jobId : string) (j : DownloadJob)
    (configured path : string) (size : Z) (fuel : nat) (r : HttpResponse)
    (uploadUrl url : string) :
  uploadable env w user jobId j configured path size ->
  fetch env (trace w) (create_request (tusEndpoint configured) size (FileName.filename j)) = inr r ->
  rs_status r = 201 ->
  nonempty (headers_get "Location" (rs_headers r)) = Some uploadUrl ->
  fullUploadUrl env uploadUrl (tusEndpoint configured) = ret url ->
  exists w1,
    trace w1
    = EvBroadcast user (job_update (Some (apply_updates (progress_update (Some 0)) (clock w) j)) None None)
      :: EvDb jobId (progress_update (Some 0))
      :: EvFetch (create_request (tusEndpoint configured) size (FileName.filename j))
      :: trace w /\
    post_upload_to_nas env fuel (Some user) jobId w
    = try_catch
        (bind (upload_background env fuel jobId user path url size)
              (fun _ => ret (Json 200 (BUploadStarted "Upload started" (FileName.filename j) size))))
        (fun error => ret (Json 500 (BUploadError "Failed to upload to NAS" (Some error))))
        w1.
Proof.
  intros H Hr Hst Hl Hurl. pose proof (st_job _ _ _ _ _ _ (up_stored _ _ _ _ _ _ _ _ H)) as Hj'.
  enter_upload H. rewrite Hr, (status_eqb_201 _ Hst), Hl, Hurl.
  cbv [ret updateDownloadJob bind modify getDownloadJob get broadcastToUser].
  eexists. split; [|reflexivity]. cbn.
  now rewrite (lookup_alter_Some _ _ _ _ Hj').
Qed.

(** [autoUploadToNas], on a 201 without a location. *)
Lemma autoUpload_no_location (w : World) (user jobId : string) (j : DownloadJob)
    (endpoint path : string) (size : Z) (fuel : nat) (r : HttpResponse) :
  stored env w jobId j path size ->
  (forall hist,
     fetch env hist (create_request (tusEndpoint endpoint) size (FileName.filename j)) = inr r) ->
  rs_status r = 201 ->
  nonempty (headers_get "Location" (rs_headers r)) = None ->
  exists w',
    autoUploadToNas env fuel jobId user endpoint w = (Throw "No upload URL returned", w') /\
    requests (trace w')
    = (requests (trace w)
       ++ [create_request (tusEndpoint endpoint) size (FileName.filename j)])%list.
Proof.
  intros H Hr Hst Hl. enter_auto H.
  cbv [updateDownloadJob bind modify getDownloadJob get broadcastToUser ret do_fetch settle_fetch].
  cbn. rewrite Hr. cbv [ret bind]. rewrite (status_eqb_201 _ Hst), Hl.
  eexists. split; reflexivity.
Qed.

(** [autoUploadToNas], on a 201 with a location that resolves to [url]. *)
Lemma autoUpload_created (w : World) (user jobId : string) (j : DownloadJob)
    (endpoint path : string) (size : Z) (fuel : nat) (r : HttpResponse)
    (uploadUrl url : string) :
  stored env w jobId j path size ->
  (forall hist,
     fetch env hist (create_request (tusEndpoint endpoint) size (FileName.filename j)) = inr r) ->
  rs_status r = 201 ->
  nonempty (headers_get "Location" (rs_headers r)) = Some uploadUrl ->
  fullUploadUrl env uploadUrl (tusEndpoint endpoint) = ret url ->
  exists w1,
    requests (trace w1)
    = (requests (trace w)
       ++ [create_request (tusEndpoint endpoint) size (FileName.filename j)])%list /\
    autoUploadToNas env fuel jobId user endpoint w
    = bind (try_finally (upload_chunks env fuel Auto jobId user path url size (Num 0))
              (fun w => w))
           (fun _ => upload_completed jobId user path) w1.
Proof.
  intros H Hr Hst Hl Hurl. enter_auto H.
  cbv [updateDownloadJob bind modify getDownloadJob get broadcastToUser ret do_fetch settle_fetch].
  cbn. rewrite Hr. cbv [ret bind]. rewrite (status_eqb_201 _ Hst), Hl, Hurl.
  eexists. split; [|reflexivity]. reflexivity.
Qed.

(** C7, amended. The upload is created by a POST to the configured endpoint
    brought to end with [/files/], with the headers [Tus-Resumable: 1.0.0],
    [Upload-Length] with the size of the file in bytes and [Upload-Metadata]
    with [filename] and the base64 of the UTF-8 bytes of the file name. A
    status other than 201
    ends the upload with the status in the error (and, in the route, the
    body or status text as details); a 201 without [Location] ends it with a
    fixed message that carries neither status nor body. Otherwise the chunks
    go to the location, where [http:] has become [https:] when it is
    absolute, and which is resolved against the endpoint when it is not. *)
Theorem create_handshake_protocol (w : World) (user jobId : string) (j : DownloadJob)
    (configured path : string) (size : Z) (fuel : nat) :
  uploadable env w user jobId j configured path size ->
  let endpoint := tusEndpoint configured in
  let rq := create_request endpoint size (FileName.filename j) in
  (rq_method rq = "POST" /\ rq_url rq = endpoint /\ rq_body rq = NoBody /\
   JsString.endsWith "/files/" endpoint = true /\
   rq_headers rq
   = [("Tus-Resumable", "1.0.0");
      ("Upload-Length", JsString.toString size);
      ("Upload-Metadata", "filename " ++ FileName.filenameBase64 (FileName.filename j))] /\
   FileName.all_chars FileName.is_b64 (FileName.filenameBase64 (FileName.filename j)) = true) /\
  (forall r,
     fetch env (trace w) rq = inr r ->
     (rs_status r <> 201 ->
      post_upload_to_nas env fuel (Some user) jobId w
      = (Ok (Json 400 (BUploadError (rejected_message r) (rejected_details r))),
         emit (EvFetch rq) w) /\
      JsString.includes (JsString.toString (rs_status r)) (rejected_message r) = true) /\
     (rs_status r = 201 ->
      nonempty (headers_get "Location" (rs_headers r)) = None ->
      post_upload_to_nas env fuel (Some user) jobId w
      = (Ok (Json 400 (BUploadError "Server did not return upload location" None)),
         emit (EvFetch rq) w)) /\
     (rs_status r = 201 ->
      forall uploadUrl url,
        nonempty (headers_get "Location" (rs_headers r)) = Some uploadUrl ->
        fullUploadUrl env uploadUrl endpoint = ret url ->
        exists w1,
          requests (trace w1) = (requests (trace w) ++ [rq])%list /\
          post_upload_to_nas env fuel (Some user) jobId w
          = try_catch
              (bind (upload_background env fuel jobId user path url size)
                    (fun _ => ret (Json 200
                       (BUploadStarted "Upload started" (FileName.filename j) size))))
              (fun error => ret (Json 500 (BUploadError "Failed to upload to NAS" (Some error))))
              w1)) /\
  (forall r,
     (forall hist, fetch env hist rq = inr r) ->
     (rs_status r <> 201 ->
      exists w',
        autoUploadToNas env fuel jobId user configured w
        = (Throw ("TUS create failed: " ++ JsString.toString (rs_status r)), w') /\
        requests (trace w') = (requests (trace w) ++ [rq])%list) /\
     (rs_status r = 201 ->
      nonempty (headers_get "Location" (rs_headers r)) = None ->
      exists w',
        autoUploadToNas env fuel jobId user configured w = (Throw "No upload URL returned", w') /\
        requests (trace w') = (requests (trace w) ++ [rq])%list) /\
     (rs_status r = 201 ->
      forall uploadUrl url,
        nonempty (headers_get "Location" (rs_headers r)) = Some uploadUrl ->
        fullUploadUrl env uploadUrl endpoint = ret url ->
        exists w1,
          requests (trace w1) = (requests (trace w) ++ [rq])%list /\
          autoUploadToNas env fuel jobId user configured w
          = bind (try_finally (upload_chunks env fuel Auto jobId user path url size (Num 0))
                    (fun w => w))
                 (fun _ => upload_completed jobId user path) w1)) /\
  (forall rest, fullUploadUrl env ("http://" ++ rest) endpoint = ret ("https://" ++ rest)) /\
  (forall rest, fullUploadUrl env ("https://" ++ rest) endpoint = ret ("https://" ++ rest)) /\
  (forall u,
     JsString.startsWith "http://" u = false -> JsString.startsWith "https://" u = false ->
     fullUploadUrl env u endpoint
     = match URL_resolve env u endpoint with
       | Some url => ret url
       | None => throw "Invalid URL"
       end).
Proof.
  intros Hup endpoint rq. pose proof (up_stored _ _ _ _ _ _ _ _ Hup) as Hst.
  split; [|split; [|split; [|split; [|split]]]].
  - repeat split; [apply tusEndpoint_files | apply base64_text].
  - intros r Hr. split; [|split].
    + intros Hne. split; [|apply includes_app].
      now apply post_upload_rejected with (path := path).
    + intros H201 Hl. now apply post_upload_no_location with (path := path) (r := r).
    + intros H201 uploadUrl url Hl Hurl.
      destruct (post_upload_created w user jobId j configured path size fuel r uploadUrl url
                  Hup Hr H201 Hl Hurl) as (w1 & Ht & E).
      exists w1. split; [|exact E]. unfold requests. now rewrite Ht.
  - intros r Hr. split; [|split].
    + intros Hne.
      destruct (autoUpload_rejected w user jobId j configured path size fuel r Hst Hr Hne)
        as (w' & E & _ & Hrq).
      now exists w'.
    + intros H201 Hl. now apply autoUpload_no_location with (path := path) (r := r).
    + intros H201 uploadUrl url Hl Hurl.
      now apply autoUpload_created with (r := r) (uploadUrl := uploadUrl).
  - intros rest. apply fullUploadUrl_http.
  - intros rest. apply fullUploadUrl_https.
  - intros u. apply fullUploadUrl_relative.
Qed.

End Handshake.

(** ** The properties on the concrete deployment *)

Section Instances.

Lemma demo_stored (e : Env) :
  getDownloadFilePath e = Demo.demo_getDownloadFilePath ->
  stored e (Demo.world completed) "j1" (Demo.job1 completed) artifact1 twelve_MiB.
Proof. intros E. split; rewrite ?E; (reflexivity || discriminate). Qed.

Lemma demo_uploadable (e : Env) :
  getDownloadFilePath e = Demo.demo_getDownloadFilePath ->
  uploadable e (Demo.world completed) "alice" "j1" (Demo.job1 completed)
    "https://nas.local" artifact1 twelve_MiB.
Proof.
  intros E. split; try (reflexivity || discriminate). now apply demo_stored.
Qed.

(** C4, as stated, fails: the retry of a job that is [completed], not
    [failed], is answered 200 and puts the job back in [queued]. *)
Lemma retry_of_completed_job_is_accepted :
  let run := post_retry Demo.env (Some "alice") "j1" (Demo.world completed) in
  status <$> jobs (Demo.world completed) !! "j1" = Some completed /\
  code <$> (match run.1 with Ok reply => Some reply | _ => None end) = Some 200 /\
  status <$> jobs run.2 !! "j1" = Some queued /\
  progress <$> jobs run.2 !! "j1" = Some (Some 0).
Proof. vm_compute. repeat split. Qed.

(** C8, as stated, fails: a URL of another host that carries "youtu.be" in
    its query passes the validation, and with a probe that answers, the
    submission is answered 200 and a job is created for it. *)
Lemma url_of_another_host_is_accepted :
  let w := Demo.world completed in
  let b := mkBody (Some "https://evil.example/?next=youtu.be") (Some "video") None in
  let run := post_download Demo.env (Some "alice") b w in
  downloadRequestSchema Demo.env b
  = Some (mkValid "https://evil.example/?next=youtu.be" video None) /\
  code <$> (match run.1 with Ok reply => Some reply | _ => None end) = Some 200 /\
  jobs w !! "job-0" = None /\
  youtubeUrl <$> jobs run.2 !! "job-0" = Some "https://evil.example/?next=youtu.be" /\
  status <$> jobs run.2 !! "job-0" = Some queued /\
  head (trace run.2)
  = Some (EvSpawn (mkTask "job-0" "alice" "https://evil.example/?next=youtu.be" video None None)).
Proof. vm_compute. repeat split. Qed.

(** C2, as stated, fails: after the callbacks for 40 and then 25 percent the
    persisted progress is 25, below the 40 persisted in between. *)
Lemma lower_report_lowers_progress :
  let first := mkProgress downloading (40 # 1) None None None in
  let second := mkProgress downloading (25 # 1) None None None in
  persisted (Demo.world downloading) "j1" "alice" [first] = Some (Some 40) /\
  persisted (Demo.world downloading) "j1" "alice" [first; second] = Some (Some 25).
Proof. vm_compute. split; reflexivity. Qed.

(** C3, as stated, fails: on a create request answered 500 the job is not
    moved to [failed]. After the route [upload-to-nas] it is still
    [completed], with no error message; after [processDownload] with the
    automatic upload it is in [uploading]. *)
Lemma create_500_does_not_fail_job :
  let manual := post_upload_to_nas env_500 8 (Some "alice") "j1" (Demo.world completed) in
  let auto :=
    download_resolved env_500 8 task1 (mkResult artifact1 twelve_MiB) (Demo.world downloading) in
  manual.1 = Ok (Json 400 (BUploadError "Upload initialization failed (HTTP 500)" (Some "boom"))) /\
  status <$> jobs manual.2 !! "j1" = Some completed /\
  errorMessage <$> jobs manual.2 !! "j1" = Some None /\
  auto.1 = Ok tt /\
  status <$> jobs auto.2 !! "j1" = Some uploading /\
  errorMessage <$> jobs auto.2 !! "j1" = Some None.
Proof. vm_compute. repeat split. Qed.


(** The quotient and the product are doubles: fifteen mebibytes of a hundred
    and ten are reported as 13 percent, where the exact value, 13.5, would
    be rounded to 14. *)
Example progress_is_computed_on_doubles :
  uploadProgress Manual (Num 15728640) 115343360 = Some 13 /\
  Math_round (inject_Z 15728640 / inject_Z 115343360 * inject_Z 99) = 14.
Proof. vm_compute. split; reflexivity. Qed.

(** An offset of -5 acknowledged for the first chunk: the next read fails,
    the job ends [failed] with the message of the read, and the file is
    kept. *)
Example offset_below_the_file_fails_the_upload :
  let run := post_upload_to_nas env_behind 8 (Some "alice") "j1" (Demo.world completed) in
  requests (trace run.2)
  = [ create_request "https://nas.local/files/" twelve_MiB (FileName.units "clip.mp4");
      patch_request session_url artifact1 0 5242880 ] /\
  status <$> jobs run.2 !! "j1" = Some failed /\
  errorMessage <$> jobs run.2 !! "j1"
  = Some (Some ("Upload failed: " ++ Demo.demo_ERR_OUT_OF_RANGE (-5))) /\
  files run.2 !! artifact1 = Some twelve_MiB.
Proof. vm_compute. repeat split. Qed.

(** An offset of -1 acknowledged for the first chunk: the next chunk is read
    where the handle is, at the start of the file, and sent with the offset
    -1. *)
Example offset_minus_one_reads_at_the_handle :
  let run := post_upload_to_nas env_minus_one 8 (Some "alice") "j1" (Demo.world completed) in
  requests (trace run.2)
  = [ create_request "https://nas.local/files/" twelve_MiB (FileName.units "clip.mp4");
      patch_request session_url artifact1 0 5242880;
      chunk_request session_url (-1) (Padded artifact1 0 5242880 5242880) ] /\
  status <$> jobs run.2 !! "j1" = Some failed /\
  errorMessage <$> jobs run.2 !! "j1" = Some (Some "Upload failed: TUS patch failed: 409").
Proof. vm_compute. repeat split. Qed.

(** C7, as stated, fails: on a 201 without [Location] the error of the
    route has a fixed message and no details; neither the status nor the
    body of the response ("created") is in it. *)
Lemma missing_location_error_has_no_status :
  let run := post_upload_to_nas env_no_location 8 (Some "alice") "j1" (Demo.world completed) in
  run.1 = Ok (Json 400 (BUploadError "Server did not return upload location" None)) /\
  JsString.includes "201" "Server did not return upload location" = false /\
  JsString.includes "created" "Server did not return upload location" = false.
Proof. vm_compute. repeat split. Qed.

(** The upload of a file of 100 MiB takes one create request and twenty
    chunks, and leaves the job completed at 100 percent, marked as uploaded,
    with the local file gone. *)
Example upload_of_100_MiB :
  let run := post_upload_to_nas Demo.env 20 (Some "alice") "j1" world_100_MiB in
  List.length (requests (trace run.2)) = 21%nat /\
  status <$> jobs run.2 !! "j1" = Some completed /\
  progress <$> jobs run.2 !! "j1" = Some (Some 100) /\
  uploadedToNas <$> jobs run.2 !! "j1" = Some (Some 1) /\
  files run.2 !! artifact1 = None.
Proof. vm_compute. repeat split. Qed.

(** A whole [processDownload] of Alice's queued job, with the automatic
    upload: the progress written goes 0, 40, 25, 100, 90, 94, 98, 99, 100. *)
Example processDownload_progress :
  let run := processDownload Demo.env 8 task1 (Demo.world queued) in
  omap (fun e => match e with EvDb _ u => u_progress u | _ => None end) (rev (trace run.2))
  = [Some 0; Some 40; Some 25; Some 100; Some 90; Some 94; Some 98; Some 99; Some 100] /\
  status <$> jobs run.2 !! "j1" = Some completed.
Proof. vm_compute. repeat split. Qed.

(** Bob asks for Alice's job: each route answers 404 and nothing changes. *)
Lemma per_job_routes_reject_non_owner_witness :
  let w := Demo.world completed in
  post_cancel (Some "bob") "j1" w = (Ok reply_not_found, w) /\
  post_retry Demo.env (Some "bob") "j1" w = (Ok reply_not_found, w) /\
  delete_job Demo.env (Some "bob") "j1" w = (Ok reply_not_found, w) /\
  get_download Demo.env (Some "bob") "j1" w = (Ok reply_not_found, w).
Proof.
  apply (per_job_routes_reject_non_owner Demo.env (Demo.world completed) "bob" "j1").
  - discriminate.
  - intros j H. vm_compute in H. injection H as <-. discriminate.
Defined.

(** Alice cancels her job that is [completed]: it becomes [failed]. *)
Lemma cancel_overwrites_any_status_witness :
  status (Demo.job1 completed) = completed /\
  exists w' j',
    post_cancel (Some "alice") "j1" (Demo.world completed)
    = (Ok (Json 200 (BJob (Some j'))), w') /\
    jobs w' !! "j1" = Some j' /\
    j' = apply_updates cancel_update 3 (Demo.job1 completed) /\
    status j' = failed /\ errorMessage j' = Some "Cancelled by user" /\
    progress j' = Some 100 /\ filePath j' = Some artifact1 /\
    uploadedToNas j' = Some 0.
Proof.
  split; [reflexivity|].
  apply (cancel_overwrites_any_status (Demo.world completed) "alice" "j1" (Demo.job1 completed)).
  - discriminate.
  - reflexivity.
  - reflexivity.
Defined.

(** Alice retries her job that is [completed]. *)
Lemma retry_requeues_in_any_status_witness :
  exists w' j',
    post_retry Demo.env (Some "alice") "j1" (Demo.world completed)
    = (Ok (Json 200 (BJob (Some j'))), w') /\
    jobs w' !! "j1" = Some j' /\
    j' = apply_updates retry_update 3 (Demo.job1 completed) /\
    status j' = queued /\ progress j' = Some 0 /\ errorMessage j' = None /\
    filePath j' = None /\ fileSize j' = None /\ uploadedToNas j' = Some 0 /\
    files w' = Demo.demo_cleanupDownloadFile "j1" (files (Demo.world completed)) /\
    trace w' =
      [ EvSpawn (mkTask "j1" "alice" "https://youtube.com/watch?v=1" video (Some "720p") None);
        EvBroadcast "alice" (job_update (Some j') None None);
        EvDb "j1" retry_update ].
Proof.
  apply (proj1 (retry_requeues_in_any_status Demo.env (Demo.world completed) "alice" "j1"
                  ltac:(discriminate)) (Demo.job1 completed)).
  - reflexivity.
  - reflexivity.
Defined.

(** A submission for another site is refused. *)
Lemma bad_submission_creates_no_job_witness :
  let w := Demo.world completed in
  post_download Demo.env (Some "alice")
    (mkBody (Some "https://vimeo.com/1") (Some "video") None) w
  = (Ok (Json 400 (BInvalid "Invalid download request")), w).
Proof.
  apply (proj1 (bad_submission_creates_no_job Demo.env (Demo.world completed) "alice"
                  (mkBody (Some "https://vimeo.com/1") (Some "video") None)
                  ltac:(discriminate))).
  intros url H. injection H as <-. split; reflexivity.
Defined.

(** Reports of 25 then 40 percent on a job that is downloading, and a
    report of 10 percent that carries the status [failed] before one of 60. *)
Lemma persisted_progress_follows_reports_witness :
  let w := Demo.world downloading in
  let p1 := mkProgress downloading (25 # 1) None None None in
  let p2 := mkProgress converting (40 # 1) None None None in
  let q1 := mkProgress failed (10 # 1) None None None in
  let q2 := mkProgress downloading (60 # 1) None None None in
  persisted w "j1" "alice" [p1] = Some (Some (Math_round (25 # 1))) /\
  persisted w "j1" "alice" [p1; p2] = Some (Some (Math_round (40 # 1))) /\
  (exists a b,
     persisted w "j1" "alice" [p1] = Some (Some a) /\
     persisted w "j1" "alice" [p1; p2] = Some (Some b) /\ a <= b) /\
  persisted w "j1" "alice" [q1; q2] = Some (Some 10).
Proof.
  destruct (persisted_progress_follows_reports (Demo.world downloading) "j1" "alice"
              (Demo.job1 downloading) []
              (mkProgress downloading (25 # 1) None None None)
              (mkProgress converting (40 # 1) None None None))
    as (Ha & H1 & H2 & _).
  - reflexivity.
  - discriminate.
  - destruct H2 as [H2 H3]; [repeat constructor; discriminate|].
    split; [apply H1; constructor|]. split; [exact H2|].
    split; [apply H3; vm_compute; discriminate|].
    exact (Ha [mkProgress failed (10 # 1) None None None;
               mkProgress downloading (60 # 1) None None None]).
Defined.

Lemma demo_applies_chunks (url path : string) : applies_chunks Demo.env url path.
Proof.
  intros hist off len _ _. eexists.
  split; [reflexivity|]. split; [left; reflexivity|].
  unfold acknowledged. cbn [rs_headers headers_get String.eqb Ascii.eqb Bool.eqb].
  destruct (JsString.toString (off + len)) eqn:E; [reflexivity|].
  cbn [nonempty]. rewrite <- E. apply parseInt_toString.
Defined.



(** The handshake for Alice's job, against an endpoint that answers 500. *)
Lemma create_handshake_protocol_witness :
  let rq := create_request "https://nas.local/files/" twelve_MiB (FileName.units "clip.mp4") in
  rq_headers rq
  = [("Tus-Resumable", "1.0.0"); ("Upload-Length", "12582912");
     ("Upload-Metadata", "filename Y2xpcC5tcDQ=")] /\
  post_upload_to_nas env_500 8 (Some "alice") "j1" (Demo.world completed)
  = (Ok (Json 400 (BUploadError "Upload initialization failed (HTTP 500)" (Some "boom"))),
     emit (EvFetch rq) (Demo.world completed)) /\
  fullUploadUrl env_500 "http://nas.local/files/abc" "https://nas.local/files/"
  = ret "https://nas.local/files/abc".
Proof.
  destruct (create_handshake_protocol env_500 (Demo.world completed) "alice" "j1"
              (Demo.job1 completed) "https://nas.local" artifact1 twelve_MiB 8)
    as ((_ & _ & _ & _ & Hh & _) & Hm & _ & Hu & _).
  - now apply demo_uploadable.
  - split; [exact Hh|]. split.
    + apply (Hm response_500); [reflexivity | discriminate].
    + apply (Hu "nas.local/files/abc").
Defined.

End Instances.

(** ** The record store *)

Section Storage.

Variable env : Env.

(** X1. [createDownloadJob] and [getDownloadJob]: when the identifier drawn is
    free, the job is inserted as the route gave it, queued at 0 percent and
    not uploaded, a lookup of its identifier gives it back, and every other
    row is as before. When the identifier is taken, the insertion throws and
    the table is unchanged. *)
Theorem created_job_is_stored (w : World) (user : string) (rq : ValidRequest) (info : VideoInfo) :
  (jobs w !! randomUUID env (drawn w) = None ->
   exists j w',
     createDownloadJob env user rq info w = (Ok j, w') /\
     getDownloadJob (id j) w' = (Ok (Some j), w') /\
     id j = randomUUID env (drawn w) /\ userId j = user /\
     youtubeUrl j = v_url rq /\ format j = v_format rq /\
     status j = queued /\ progress j = Some 0 /\ errorMessage j = None /\
     filePath j = None /\ uploadedToNas j = Some 0 /\
     (forall k, k <> id j -> jobs w' !! k = jobs w !! k)) /\
  (forall j0, jobs w !! randomUUID env (drawn w) = Some j0 ->
   exists e w',
     createDownloadJob env user rq info w = (Throw e, w') /\ jobs w' = jobs w).
Proof.
  split.
  - intros Hfree. unfold createDownloadJob. rewrite Hfree.
    eexists _, _. split; [reflexivity|]. cbn.
    split; [unfold getDownloadJob, get; cbn; now rewrite lookup_insert_eq|].
    repeat split. intros k Hk. now rewrite lookup_insert_ne.
  - intros j0 Htaken. unfold createDownloadJob. rewrite Htaken.
    eexists _, _. split; reflexivity.
Qed.

(** X2. [updateDownloadJob]: the table keeps its keys, so a row that is missing
    is not created (the result is [undefined] and the table is unchanged);
    a row that is there gets the columns of the update and the time of the
    clock, gives itself back, and keeps its identity; no other row changes. *)
Theorem update_touches_one_row (w : World) (jobId : string) (u : JobUpdates) :
  let run := updateDownloadJob jobId u w in
  dom (jobs run.2) = dom (jobs w) /\
  (forall k, k <> jobId -> jobs run.2 !! k = jobs w !! k) /\
  (jobs w !! jobId = None -> run.1 = Ok None /\ jobs run.2 = jobs w) /\
  (forall j, jobs w !! jobId = Some j ->
     run.1 = Ok (Some (apply_updates u (clock w) j)) /\
     jobs run.2 !! jobId = Some (apply_updates u (clock w) j) /\
     same_identity j (apply_updates u (clock w) j) /\
     updatedAt (apply_updates u (clock w) j) = Some (clock w)) /\
  files run.2 = files w /\ settings run.2 = settings w.
Proof.
  cbv zeta. cbv [updateDownloadJob bind modify getDownloadJob get]. cbn.
  split; [apply dom_alter_L|].
  split; [intros k Hk; now apply lookup_alter_ne|].
  split.
  - intros Hnone. rewrite lookup_alter_eq, Hnone. split; [reflexivity|].
    apply map_eq. intros k. destruct (decide (k = jobId)) as [->|Hk].
    + now rewrite lookup_alter_eq, Hnone.
    + now rewrite lookup_alter_ne.
  - split; [|split; reflexivity].
    intros j Hj. rewrite lookup_alter_eq, Hj. cbn. repeat split.
Qed.

(** X3. [deleteDownloadJob]: the row is gone, whether it was there or not, every
    other row stays, and deleting it once more changes nothing in the table. *)
Theorem delete_removes_one_row (w : World) (jobId : string) :
  let w' := (deleteDownloadJob jobId w).2 in
  getDownloadJob jobId w' = (Ok None, w') /\
  (forall k, k <> jobId -> jobs w' !! k = jobs w !! k) /\
  jobs (deleteDownloadJob jobId w').2 = jobs w' /\
  (jobs w !! jobId = None -> jobs w' = jobs w).
Proof.
  cbv zeta. cbv [deleteDownloadJob modify getDownloadJob get]. cbn.
  split; [now rewrite lookup_delete_eq|].
  split; [intros k Hk; now apply lookup_delete_ne|].
  split; [apply delete_delete_eq | apply delete_id].
Qed.

(** X4. [getUploadedToNasJobIds]: the identifiers returned are those, each once,
    of the rows of the user whose uploaded flag is 1; the world is unchanged. *)
Theorem uploaded_ids_are_the_users (w : World) (user : string) :
  exists ids,
    getUploadedToNasJobIds user w = (Ok ids, w) /\
    NoDup ids /\
    forall k, k ∈ ids <->
      exists j, jobs w !! k = Some j /\ userId j = user /\ uploadedToNas j = Some 1.
Proof.
  eexists. split; [reflexivity|]. split.
  - apply NoDup_fst_map_to_list.
  - intros k. rewrite list_elem_of_fmap. split.
    + intros ([k' j] & -> & Hin). apply elem_of_map_to_list in Hin.
      apply map_lookup_filter_Some in Hin as [Hj [Hu Hn]]. now exists j.
    + intros (j & Hj & Hu & Hn). exists (k, j). split; [reflexivity|].
      apply elem_of_map_to_list, map_lookup_filter_Some. now split.
Qed.

End Storage.

(** ** What the routes and tasks leave alone *)

(** Application of a lemma of [Keeps], its preorder found by resolution. *)
Ltac kapply l := apply l; try (typeclasses eauto).

Section FrameProperties.

Variable env : Env.

#[global] Instance same_state_preorder : PreOrder same_state.
Proof.
  split.
  - intros w. now repeat split.
  - intros w1 w2 w3 (J1 & S1 & F1 & C1 & D1) (J2 & S2 & F2 & C2 & D2).
    repeat split; congruence.
Qed.

#[global] Instance only_job_preorder (jobId : string) : PreOrder (only_job jobId).
Proof.
  split.
  - intros w. split; [reflexivity|]. split; [reflexivity|].
    intros j Hj. exists j. split; [exact Hj | now repeat split].
  - intros w1 w2 w3 (S1 & O1 & I1) (S2 & O2 & I2).
    split; [congruence|]. split.
    + intros k Hk. now rewrite O2, O1.
    + intros j3 H3. destruct (I2 j3 H3) as (j2 & H2 & E2).
      destruct (I1 j2 H2) as (j1 & H1 & E1). exists j1. split; [exact H1|].
      unfold same_identity in *. intuition congruence.
Qed.

#[global] Instance only_updates_preorder (jobId : string) : PreOrder (only_updates jobId).
Proof.
  split.
  - intros w. split; [reflexivity | auto].
  - intros w1 w2 w3 [O1 E1] [O2 E2]. split; [now transitivity w2 | auto].
Qed.

Section Keeps.

Context (R : World -> World -> Prop) `{!PreOrder R}.

Lemma keeps_ret {A} (a : A) : keeps R (ret a).
Proof. intros w. reflexivity. Qed.

Lemma keeps_throw {A} (e : string) : keeps R (@throw A e).
Proof. intros w. reflexivity. Qed.

Lemma keeps_get {A} (f : World -> A) : keeps R (get f).
Proof. intros w. reflexivity. Qed.

Lemma keeps_out_of_fuel {A} : keeps R (fun w => (@OutOfFuel A, w)).
Proof. intros w. reflexivity. Qed.

Lemma keeps_modify (f : World -> World) : (forall w, R w (f w)) -> keeps R (modify f).
Proof. intros H w. apply H. Qed.

Lemma keeps_bind {A B} (c : M A) (k : A -> M B) :
  keeps R c -> (forall a, keeps R (k a)) -> keeps R (bind c k).
Proof.
  intros Hc Hk w. specialize (Hc w). unfold bind.
  destruct (c w) as [[a|e|] w1]; cbn in *; [|exact Hc..].
  transitivity w1; [exact Hc | apply Hk].
Qed.

Lemma keeps_try_catch {A} (c : M A) (h : string -> M A) :
  keeps R c -> (forall e, keeps R (h e)) -> keeps R (try_catch c h).
Proof.
  intros Hc Hh w. specialize (Hc w). unfold try_catch.
  destruct (c w) as [[a|e|] w1]; cbn in *; [exact Hc| |exact Hc].
  transitivity w1; [exact Hc | apply Hh].
Qed.

Lemma keeps_try_finally {A} (c : M A) : keeps R c -> keeps R (try_finally c (fun w => w)).
Proof. intros Hc w. specialize (Hc w). unfold try_finally. now destruct (c w). Qed.

Lemma keeps_for_each {A} (f : A -> M unit) (l : list A) :
  (forall a, keeps R (f a)) -> keeps R (for_each f l).
Proof.
  intros Hf. induction l as [|a l IH]; cbn [for_each]; [apply keeps_ret|].
  apply keeps_bind; [apply Hf | intros _; exact IH].
Qed.

End Keeps.

(** The effects that write nothing but the trace or the files keep the rows. *)
Lemma only_updates_emit (jobId : string) (e : Event) (w : World) :
  only_updates jobId w (emit e w).
Proof. change (only_updates jobId w w). reflexivity. Qed.

Lemma only_updates_set_files (jobId : string) (f : gmap string Z -> gmap string Z) (w : World) :
  only_updates jobId w (set_files f w).
Proof. change (only_updates jobId w w). reflexivity. Qed.

Lemma only_updates_update (jobId : string) (u : JobUpdates) :
  keeps (only_updates jobId) (updateDownloadJob jobId u).
Proof.
  intros w. cbv [updateDownloadJob bind modify getDownloadJob get]. cbn.
  split; [split; [reflexivity|split]|]; cbn.
  - intros k Hk. now apply lookup_alter_ne.
  - intros j' Hj'. rewrite lookup_alter_eq in Hj'.
    destruct (jobs w !! jobId) as [j|]; [|discriminate Hj'].
    injection Hj' as <-. exists j. split; [reflexivity | now repeat split].
  - intros [j Hj]. rewrite lookup_alter_eq, Hj. now eexists.
Qed.

Lemma only_job_of_updates (jobId : string) {A} (c : M A) :
  keeps (only_updates jobId) c -> keeps (only_job jobId) c.
Proof. intros H w. apply H. Qed.

Ltac keeps_step :=
  first
    [ kapply keeps_ret | kapply keeps_throw | kapply keeps_get | kapply keeps_out_of_fuel
    | apply only_updates_update
    | kapply keeps_modify; intros ?; (apply only_updates_emit || apply only_updates_set_files)
    | kapply keeps_bind; [|intros ?]
    | kapply keeps_try_catch; [|intros ?]
    | kapply keeps_try_finally
    | kapply keeps_for_each; intros ?
    | match goal with
      | |- keeps _ (match ?x with _ => _ end) => destruct x
      | |- keeps _ (let (_, _) := ?x in _) => destruct x
      end ].

Ltac keeps_auto := cbv zeta; repeat (keeps_step; cbv zeta).

Lemma keeps_upload_loop (fuel : nat) (k : UploadKind) (jobId user path url : string)
    (size handle : Z) (n : jsnum) :
  keeps (only_updates jobId) (upload_loop env fuel k jobId user path url size handle n).
Proof.
  revert handle n. induction fuel as [|fuel IH]; intros handle [off|]; cbn [upload_loop];
    try kapply keeps_ret; destruct (negb (off <? size)); try kapply keeps_ret.
  - kapply keeps_out_of_fuel.
  - destruct (readSync _ _ _ _ _ _) as [rangeError|[buffer handle']]; [kapply keeps_throw|].
    unfold do_fetch, settle_fetch, broadcastToUser.
    kapply keeps_bind; [|intros r].
    { kapply keeps_bind; [intros w; apply only_updates_emit | intros [e|r]; keeps_auto]. }
    destruct (_ && _); [kapply keeps_throw|].
    kapply keeps_bind; [kapply keeps_get | intros labels].
    kapply keeps_bind; [apply only_updates_update | intros job].
    kapply keeps_bind; [kapply keeps_modify; intros w; apply only_updates_emit | intros _].
    apply IH.
Qed.

Lemma keeps_upload_chunks (fuel : nat) (k : UploadKind) (jobId user path url : string)
    (size : Z) (n : jsnum) :
  keeps (only_updates jobId) (upload_chunks env fuel k jobId user path url size n).
Proof. apply keeps_upload_loop. Qed.

Lemma keeps_fetch (jobId : string) (rq : HttpRequest) :
  keeps (only_updates jobId) (do_fetch env rq).
Proof.
  unfold do_fetch, settle_fetch.
  kapply keeps_bind; [intros w; apply only_updates_emit | intros [e|r]; keeps_auto].
Qed.

Lemma keeps_settle_fetch (jobId : string) (rq : HttpRequest) :
  keeps (only_updates jobId) (settle_fetch env rq).
Proof. intros w. apply only_updates_emit. Qed.

Lemma keeps_unlink (jobId path : string) : keeps (only_updates jobId) (unlink_if_exists path).
Proof.
  intros w. unfold unlink_if_exists.
  destruct (files w !! path); change (only_updates jobId w w); reflexivity.
Qed.

Lemma keeps_upload_completed (jobId user path : string) :
  keeps (only_updates jobId) (upload_completed jobId user path).
Proof.
  unfold upload_completed, broadcastToUser.
  kapply keeps_bind; [apply only_updates_update | intros job].
  kapply keeps_bind; [kapply keeps_modify; intros w; apply only_updates_emit | intros _].
  apply keeps_unlink.
Qed.

Lemma keeps_fullUploadUrl (jobId u e : string) :
  keeps (only_updates jobId) (fullUploadUrl env u e).
Proof. unfold fullUploadUrl. keeps_auto. Qed.

Lemma keeps_autoUploadToNas (fuel : nat) (jobId user endpoint : string) :
  keeps (only_updates jobId) (autoUploadToNas env fuel jobId user endpoint).
Proof.
  unfold autoUploadToNas, getDownloadJob, broadcastToUser.
  kapply keeps_bind; [kapply keeps_get | intros [j|]]; [|kapply keeps_ret].
  destruct (negb _); [kapply keeps_ret|].
  kapply keeps_bind; [kapply keeps_get | intros [path|]]; [|kapply keeps_ret].
  cbv zeta.
  kapply keeps_bind; [kapply keeps_get | intros size].
  kapply keeps_bind; [apply only_updates_update | intros job].
  kapply keeps_bind; [kapply keeps_modify; intros w; apply only_updates_emit | intros _].
  kapply keeps_bind; [apply keeps_fetch | intros r].
  destruct (negb _); [kapply keeps_throw|].
  destruct (nonempty _) as [u|]; [|kapply keeps_throw].
  kapply keeps_bind; [apply keeps_fullUploadUrl | intros url].
  kapply keeps_bind; [kapply keeps_try_finally; apply keeps_upload_chunks | intros _].
  apply keeps_upload_completed.
Qed.

Lemma keeps_progress_callback (jobId user : string) (p : Progress) :
  keeps (only_updates jobId) (progress_callback jobId user p).
Proof. unfold progress_callback, getDownloadJob, broadcastToUser. keeps_auto. Qed.

Lemma keeps_processDownload (fuel : nat) (t : Task) :
  keeps (only_updates (t_jobId t)) (processDownload env fuel t).
Proof.
  unfold processDownload. kapply keeps_try_catch.
  - kapply keeps_bind; [|intros _].
    { unfold download_started, getUploadedToNasJobIds, broadcastToUser. keeps_auto. }
    kapply keeps_bind; [|intros result].
    { unfold await_downloadVideo.
      kapply keeps_bind; [kapply keeps_get | intros d].
      kapply keeps_bind; [kapply keeps_for_each; intros p; apply keeps_progress_callback | intros _].
      kapply keeps_bind; [kapply keeps_modify; intros w; apply only_updates_set_files | intros _].
      destruct (dl_result d); keeps_auto. }
    unfold download_resolved, getUserSettings, broadcastToUser.
    kapply keeps_bind; [apply only_updates_update | intros job].
    kapply keeps_bind; [kapply keeps_modify; intros w; apply only_updates_emit | intros _].
    kapply keeps_bind; [kapply keeps_get | intros st].
    destruct (nonempty _) as [endpoint|]; [|kapply keeps_ret].
    destruct (bool_decide _); [|kapply keeps_ret].
    kapply keeps_try_catch; [apply keeps_autoUploadToNas | intros _; kapply keeps_ret].
  - intros e. unfold download_failed, broadcastToUser. keeps_auto.
Qed.

Lemma keeps_upload_background (fuel : nat) (jobId user path url : string) (size : Z) :
  keeps (only_updates jobId) (upload_background env fuel jobId user path url size).
Proof.
  unfold upload_background, broadcastToUser. kapply keeps_try_catch.
  - kapply keeps_bind; [apply keeps_upload_chunks | intros _; apply keeps_upload_completed].
  - intros e. keeps_auto.
Qed.

Lemma keeps_requireAuth (R : World -> World -> Prop) `{!PreOrder R}
    (session : option string) (next : string -> M Reply) :
  (forall user, keeps R (next user)) -> keeps R (requireAuth session next).
Proof. intros H. unfold requireAuth. destruct (nonempty session); [apply H | kapply keeps_ret]. Qed.

Lemma keeps_post_upload_to_nas (fuel : nat) (session : option string) (jobId : string) :
  keeps (only_updates jobId) (post_upload_to_nas env fuel session jobId).
Proof.
  unfold post_upload_to_nas. kapply keeps_requireAuth. intros user.
  unfold not_found, getDownloadJob, getUserSettings, broadcastToUser.
  kapply keeps_try_catch; [|intros e; kapply keeps_ret].
  kapply keeps_bind; [kapply keeps_get | intros job].
  destruct (owned user job) as [j|]; [|kapply keeps_ret].
  destruct (negb _); [kapply keeps_ret|].
  destruct (bool_decide _); [kapply keeps_ret|].
  kapply keeps_bind; [kapply keeps_get | intros st].
  destruct (nonempty _) as [configured|]; [|kapply keeps_ret].
  kapply keeps_bind; [kapply keeps_get | intros [path|]]; [|kapply keeps_ret].
  cbv zeta.
  kapply keeps_bind; [kapply keeps_get | intros size].
  kapply keeps_bind; [apply keeps_settle_fetch | intros [e|r]]; [kapply keeps_ret|].
  destruct (negb _); [kapply keeps_ret|].
  destruct (nonempty _) as [u|]; [|kapply keeps_ret].
  kapply keeps_bind; [apply keeps_fullUploadUrl | intros url].
  kapply keeps_bind; [apply only_updates_update | intros job'].
  kapply keeps_bind; [kapply keeps_modify; intros w; apply only_updates_emit | intros _].
  kapply keeps_bind; [apply keeps_upload_background | intros _; kapply keeps_ret].
Qed.

Lemma keeps_post_cancel (session : option string) (jobId : string) :
  keeps (only_updates jobId) (post_cancel session jobId).
Proof.
  unfold post_cancel. kapply keeps_requireAuth. intros user.
  unfold not_found, getDownloadJob, broadcastToUser. keeps_auto.
Qed.

Lemma keeps_post_retry (session : option string) (jobId : string) :
  keeps (only_updates jobId) (post_retry env session jobId).
Proof.
  unfold post_retry. kapply keeps_requireAuth. intros user.
  unfold not_found, getDownloadJob, broadcastToUser, spawn. keeps_auto.
Qed.

Lemma only_job_delete (jobId : string) : keeps (only_job jobId) (deleteDownloadJob jobId).
Proof.
  intros w. cbv [deleteDownloadJob modify]. cbn.
  split; [reflexivity|]. split; cbn.
  - intros k Hk. now apply lookup_delete_ne.
  - intros j' Hj'. now rewrite lookup_delete_eq in Hj'.
Qed.

Lemma keeps_delete_job (session : option string) (jobId : string) :
  keeps (only_job jobId) (delete_job env session jobId).
Proof.
  unfold delete_job. kapply keeps_requireAuth. intros user.
  unfold not_found, getDownloadJob, broadcastToUser.
  kapply keeps_try_catch; [|intros e; kapply keeps_ret].
  kapply keeps_bind; [kapply keeps_get | intros job].
  destruct (owned user job) as [j|]; [|kapply keeps_ret].
  kapply keeps_bind; [|intros _].
  { kapply keeps_modify. intros w. change (only_job jobId w w). reflexivity. }
  kapply keeps_bind; [apply only_job_delete | intros _].
  kapply keeps_bind; [|intros _; kapply keeps_ret].
  kapply keeps_modify. intros w. change (only_job jobId w w). reflexivity.
Qed.

(** X5. The task of a job and the routes on a job write to no row but that
    job's and to no settings: every other job is as it was, no row is
    inserted, the row of the job keeps its identifier, owner, URL, title,
    format, quality and creation time, and only the delete route removes
    it. So a job that has been deleted is not brought back by a task that is
    still running. *)
Theorem only_the_job_is_written (fuel : nat) (session : option string) (t : Task)
    (jobId user endpoint : string) :
  keeps (only_updates (t_jobId t)) (processDownload env fuel t) /\
  keeps (only_updates jobId) (autoUploadToNas env fuel jobId user endpoint) /\
  keeps (only_updates jobId) (post_upload_to_nas env fuel session jobId) /\
  keeps (only_updates jobId) (post_cancel session jobId) /\
  keeps (only_updates jobId) (post_retry env session jobId) /\
  keeps (only_job jobId) (delete_job env session jobId).
Proof.
  split; [apply keeps_processDownload|].
  split; [apply keeps_autoUploadToNas|].
  split; [apply keeps_post_upload_to_nas|].
  split; [apply keeps_post_cancel|].
  split; [apply keeps_post_retry | apply keeps_delete_job].
Qed.

(** X6. The file download route only reads: whatever the session, the job
    and the files, it leaves the state as it was and adds nothing to the
    trace; and it answers with a file only for a completed job of the caller
    whose file exists. *)
Theorem get_download_only_reads (w : World) (session : option string) (jobId : string) :
  (get_download env session jobId w).2 = w /\
  (forall path name contentType,
     (get_download env session jobId w).1 = Ok (Json 200 (BFile path name contentType)) ->
     exists user j,
       session = Some user /\ jobs w !! jobId = Some j /\ userId j = user /\
       status j = completed /\ is_Some (files w !! path) /\
       name = FileName.filename j).
Proof.
  unfold get_download, requireAuth.
  destruct session as [[|c user]|]; cbn [nonempty]; [now split| |now split].
  cbv [try_catch bind getDownloadJob get ret not_found].
  destruct (jobs w !! jobId) as [j|] eqn:Hj; cbn [owned]; [|now split].
  destruct (String.eqb_spec (userId j) (String c user)) as [Ho|Ho]; [|now split].
  destruct (bool_decide_reflect (status j = completed)) as [Hc|Hc]; cbn [negb]; [|now split].
  unfold existing.
  destruct (nonempty (getDownloadFilePath env jobId (format j) (files w))) as [p|]; [|now split].
  destruct (bool_decide_reflect (is_Some (files w !! p))) as [Hf|Hf]; [|now split].
  split; [reflexivity|]. intros path name ct [= <- <- _]. now exists (String c user), j.
Qed.

(** X7. Without a session, or with an empty user identifier in it, every
    route on jobs answers 401 "Unauthorized" and does nothing: no row is
    read or written, nothing is sent. *)
Theorem unauthenticated_is_refused (w : World) (session : option string) (fuel : nat)
    (jobId : string) (b : DownloadRequest) :
  nonempty session = None ->
  let refused := (Ok (Json 401 (BMessage "Unauthorized")), w) in
  post_download env session b w = refused /\
  post_cancel session jobId w = refused /\
  post_retry env session jobId w = refused /\
  delete_job env session jobId w = refused /\
  get_download env session jobId w = refused /\
  post_upload_to_nas env fuel session jobId w = refused.
Proof.
  intros H. cbv zeta.
  unfold post_download, post_cancel, post_retry, delete_job, get_download,
    post_upload_to_nas, requireAuth.
  rewrite H. now repeat split.
Qed.

End FrameProperties.

(** ** The outcomes of [processDownload] *)

Section TaskOutcomes.

Variable env : Env.

(** A progress callback settles, sends no request and touches no file. *)
Lemma progress_callback_quiet (w : World) (jobId user : string) (p : Progress) :
  exists w',
    progress_callback jobId user p w = (Ok tt, w') /\
    only_updates jobId w w' /\ files w' = files w /\ no_request w w'.
Proof.
  pose proof (keeps_progress_callback jobId user p w) as K.
  unfold progress_callback in *. cbv [bind getDownloadJob get ret] in *.
  destruct (jobs w !! jobId) as [j|]; [|now exists w].
  destruct (bool_decide (status j = failed)); [now exists w|].
  cbv [updateDownloadJob bind modify getDownloadJob get broadcastToUser ret] in *.
  cbn in *. eexists. split; [reflexivity|]. split; [exact K|]. split; reflexivity.
Qed.

Lemma callbacks_quiet (jobId user : string) (ps : list Progress) :
  forall w, exists w',
    for_each (progress_callback jobId user) ps w = (Ok tt, w') /\
    only_updates jobId w w' /\ files w' = files w /\ no_request w w'.
Proof.
  induction ps as [|p ps IH]; intros w.
  - exists w. split; [reflexivity|]. split; [reflexivity|]. now split.
  - destruct (progress_callback_quiet w jobId user p) as (w1 & E1 & U1 & F1 & N1).
    destruct (IH w1) as (w' & E & U & F & N).
    exists w'. cbn [for_each]. unfold bind at 1. rewrite E1.
    split; [exact E|]. split; [now transitivity w1|].
    split; [congruence | unfold no_request in *; congruence].
Qed.

(** The world in which [downloadVideo] has settled: the job is downloading
    at 0 and then as the callbacks left it, and the directory is the one the
    download left. *)
Lemma download_settles (t : Task) (w : World) (j : DownloadJob) :
  jobs w !! t_jobId t = Some j ->
  exists w3 j3,
    bind (download_started env t) (fun _ => await_downloadVideo env t) w
    = (match dl_result (download_of env t w) with
       | inl e => Throw e
       | inr result => Ok result
       end, w3) /\
    jobs w3 !! t_jobId t = Some j3 /\ same_identity j j3 /\
    settings w3 = settings w /\
    files w3 = dl_files (download_of env t w) /\
    no_request w w3.
Proof.
  intros Hj.
  cbv [download_started bind getUploadedToNasJobIds get modify updateDownloadJob
       getDownloadJob broadcastToUser await_downloadVideo].
  cbn [fst snd jobs files set_files set_jobs emit trace clock settings drawn].
  match goal with
  | |- context [for_each ?f ?ps ?w1] =>
    destruct (callbacks_quiet (t_jobId t) (t_userId t) ps w1) as (w2 & E & U & F & N)
  end.
  rewrite E. destruct U as [(S2 & O2 & I2) X2].
  destruct X2 as [j2 Hj2]; [cbn; rewrite lookup_alter_eq, Hj; now eexists|].
  destruct (I2 j2 Hj2) as (j1 & Hj1 & Id). cbn in Hj1.
  rewrite lookup_alter_eq, Hj in Hj1. injection Hj1 as <-.
  eexists _, j2.
  split; [unfold download_of, cleaned_files, getUploadedToNasJobIds, get; cbn;
          destruct (dl_result _); reflexivity|].
  cbn. split; [exact Hj2|]. split; [exact Id|]. split; [exact S2|].
  split; [reflexivity|]. exact N.
Qed.

(** X8. [processDownload] never rejects: whatever goes wrong inside is
    caught. When [downloadVideo] fails with a message for a job that is in
    the table, the job ends [failed] at progress 0 with that very message,
    no request has been sent and no upload is tried. *)
Theorem download_error_fails_the_job (fuel : nat) (t : Task) (w : World) :
  (forall e, (processDownload env fuel t w).1 <> Throw e) /\
  (forall j e,
     jobs w !! t_jobId t = Some j ->
     dl_result (download_of env t w) = inl e ->
     exists w' j',
       processDownload env fuel t w = (Ok tt, w') /\
       jobs w' !! t_jobId t = Some j' /\ same_identity j j' /\
       status j' = failed /\ progress j' = Some 0 /\ errorMessage j' = Some e /\
       files w' = dl_files (download_of env t w) /\
       no_request w w').
Proof.
  split.
  - intros e. unfold processDownload, try_catch.
    destruct (bind _ _ w) as [[[]|e'|] w1]; cbn; discriminate.
  - intros j e Hj He.
    destruct (download_settles t w j Hj) as (w3 & j3 & E & Hj3 & Id & S3 & F3 & N3).
    rewrite He in E.
    unfold processDownload, try_catch.
    change (bind (download_started env t)
              (fun _ => bind (await_downloadVideo env t) (fun result => download_resolved env fuel t result)) w)
      with (bind (bind (download_started env t) (fun _ => await_downloadVideo env t))
              (fun result => download_resolved env fuel t result) w).
    unfold bind at 1. rewrite E.
    cbv [download_failed bind updateDownloadJob modify getDownloadJob get broadcastToUser].
    cbn. eexists _, _. split; [reflexivity|]. cbn.
    rewrite lookup_alter_eq, Hj3. cbn.
    split; [reflexivity|]. split; [exact Id|]. repeat split; assumption.
Qed.

#[global] Instance same_files_preorder : PreOrder same_files.
Proof. split; [intros w; reflexivity | intros w1 w2 w3 H1 H2; unfold same_files in *; congruence]. Qed.

Lemma same_files_update (jobId : string) (u : JobUpdates) :
  keeps same_files (updateDownloadJob jobId u).
Proof. intros w. reflexivity. Qed.

Lemma keeps_files_upload_chunks (fuel : nat) (k : UploadKind) (jobId user path url : string)
    (size : Z) (n : jsnum) :
  keeps same_files (upload_chunks env fuel k jobId user path url size n).
Proof.
  unfold upload_chunks. generalize 0 as handle.
  revert n. induction fuel as [|fuel IH]; intros [off|] handle; cbn [upload_loop];
    try (kapply keeps_ret); destruct (negb (off <? size)); try (kapply keeps_ret).
  - kapply keeps_out_of_fuel.
  - destruct (readSync _ _ _ _ _ _) as [rangeError|[buffer handle']]; [kapply keeps_throw|].
    unfold do_fetch, settle_fetch, broadcastToUser.
    kapply keeps_bind; [|intros r].
    { kapply keeps_bind; [intros w; reflexivity | intros [e|r]]; [kapply keeps_throw | kapply keeps_ret]. }
    destruct (_ && _); [kapply keeps_throw|].
    kapply keeps_bind; [kapply keeps_get | intros labels].
    kapply keeps_bind; [apply same_files_update | intros job].
    kapply keeps_bind; [kapply keeps_modify; intros w; reflexivity | intros _].
    apply IH.
Qed.

Lemma same_identity_trans (j1 j2 j3 : DownloadJob) :
  same_identity j1 j2 -> same_identity j2 j3 -> same_identity j1 j3.
Proof. unfold same_identity. intuition congruence. Qed.

(** The loop keeps the row of the job, up to what an update may change, and
    the files. *)
Lemma chunks_keep_job (fuel : nat) (k : UploadKind) (jobId user path url : string) (size : Z)
    (n : jsnum) (w1 : World) (j1 : DownloadJob) :
  jobs w1 !! jobId = Some j1 ->
  exists j2,
    jobs (upload_chunks env fuel k jobId user path url size n w1).2 !! jobId = Some j2 /\
    same_identity j1 j2 /\
    files (upload_chunks env fuel k jobId user path url size n w1).2 = files w1.
Proof.
  intros Hj1.
  pose proof (keeps_upload_chunks env fuel k jobId user path url size n w1) as K.
  pose proof (keeps_files_upload_chunks fuel k jobId user path url size n w1) as F.
  destruct K as [(S2 & O2 & I2) X2]. destruct X2 as [j2 Hj2]; [eexists; exact Hj1|].
  destruct (I2 j2 Hj2) as (j1' & Hj1' & Id). rewrite Hj1 in Hj1'. injection Hj1' as <-.
  exists j2. split; [exact Hj2|]. split; [exact Id | exact F].
Qed.

(** The end of an upload marks the row of the job and deletes the file. *)
Lemma upload_completed_marks (jobId user path : string) (w2 : World) (j2 : DownloadJob) :
  jobs w2 !! jobId = Some j2 ->
  exists w3 j3,
    upload_completed jobId user path w2 = (Ok tt, w3) /\
    jobs w3 !! jobId = Some j3 /\ uploaded_row j2 j3 /\
    files w3 = delete path (files w2) /\
    requests (trace w3) = requests (trace w2).
Proof.
  intros Hj2.
  cbv [upload_completed bind updateDownloadJob modify getDownloadJob get broadcastToUser
       unlink_if_exists completed_update]. cbn.
  destruct (files w2 !! path) as [sz|] eqn:Hp; cbn.
  - eexists _, _. split; [reflexivity|]. cbn. rewrite lookup_alter_eq, Hj2. cbn.
    split; [reflexivity|]. split; [now repeat split|]. split; reflexivity.
  - eexists _, _. split; [reflexivity|]. cbn. rewrite lookup_alter_eq, Hj2. cbn.
    split; [reflexivity|]. split; [now repeat split|]. split; [|reflexivity].
    symmetry. now apply delete_id.
Qed.

(** How the part of the route that runs after the reply ends, from a world
    where the job is in the table: with the job marked as uploaded and the
    local file deleted when the loop ends. *)
Lemma upload_background_ok (fuel : nat) (jobId user path url : string) (size : Z)
    (w1 w2 : World) (j1 : DownloadJob) (n : jsnum) :
  jobs w1 !! jobId = Some j1 ->
  upload_chunks env fuel Manual jobId user path url size (Num 0) w1 = (Ok n, w2) ->
  exists w3 j3,
    upload_background env fuel jobId user path url size w1 = (Ok tt, w3) /\
    jobs w3 !! jobId = Some j3 /\ uploaded_row j1 j3 /\
    files w3 = delete path (files w1) /\
    requests (trace w3) = requests (trace w2).
Proof.
  intros Hj1 Hloop.
  destruct (chunks_keep_job fuel Manual jobId user path url size (Num 0) w1 j1 Hj1)
    as (j2 & Hj2 & Id & F).
  rewrite Hloop in Hj2, F. cbn [snd] in Hj2, F.
  destruct (upload_completed_marks jobId user path w2 j2 Hj2) as (w3 & j3 & E & Hj3 & (Id3 & Up) & F3 & R3).
  exists w3, j3. unfold upload_background, try_catch, bind at 1. rewrite Hloop, E.
  split; [reflexivity|]. split; [exact Hj3|].
  split; [split; [exact (same_identity_trans _ _ _ Id Id3) | exact Up]|].
  split; [congruence | exact R3].
Qed.

(** ... and with the job failed under the message of the error, and the file
    kept, when the loop throws. *)
Lemma upload_background_throw (fuel : nat) (jobId user path url : string) (size : Z)
    (w1 w2 : World) (j1 : DownloadJob) (e : string) :
  jobs w1 !! jobId = Some j1 ->
  upload_chunks env fuel Manual jobId user path url size (Num 0) w1 = (Throw e, w2) ->
  exists w3 j3,
    upload_background env fuel jobId user path url size w1 = (Ok tt, w3) /\
    jobs w3 !! jobId = Some j3 /\ failed_row e j1 j3 /\
    files w3 = files w1 /\
    requests (trace w3) = requests (trace w2).
Proof.
  intros Hj1 Hloop.
  destruct (chunks_keep_job fuel Manual jobId user path url size (Num 0) w1 j1 Hj1)
    as (j2 & Hj2 & Id & F).
  rewrite Hloop in Hj2, F. cbn [snd] in Hj2, F.
  unfold upload_background, try_catch, bind at 1. rewrite Hloop.
  cbv [bind updateDownloadJob modify getDownloadJob get broadcastToUser]. cbn.
  eexists _, _. split; [reflexivity|]. cbn. rewrite lookup_alter_eq, Hj2. cbn.
  split; [reflexivity|]. split; [|split; [exact F | reflexivity]].
  split; [exact Id|]. repeat split.
Qed.

(** The route, from a job that may be uploaded and a create request answered
    201 with a location that resolves to [url]: the reply is the one of the
    part that runs after it, from a world where the job is still in the
    table and the files are as they were. *)
Lemma post_upload_enters (w : World) (user jobId : string) (j : DownloadJob)
    (configured path : string) (size : Z) (fuel : nat) (r : HttpResponse)
    (uploadUrl url : string) :
  uploadable env w user jobId j configured path size ->
  fetch env (trace w) (create_request (tusEndpoint configured) size (FileName.filename j)) = inr r ->
  rs_status r = 201 ->
  nonempty (headers_get "Location" (rs_headers r)) = Some uploadUrl ->
  fullUploadUrl env uploadUrl (tusEndpoint configured) = ret url ->
  exists w1 j1,
    jobs w1 !! jobId = Some j1 /\ same_identity j j1 /\ files w1 = files w /\
    requests (trace w1)
    = (requests (trace w)
       ++ [create_request (tusEndpoint configured) size (FileName.filename j)])%list /\
    post_upload_to_nas env fuel (Some user) jobId w
    = try_catch
        (bind (upload_background env fuel jobId user path url size)
              (fun _ => ret (Json 200 (BUploadStarted "Upload started" (FileName.filename j) size))))
        (fun error => ret (Json 500 (BUploadError "Failed to upload to NAS" (Some error))))
        w1.
Proof.
  intros H Hr Hst Hl Hurl.
  destruct H as [[Hj Hc Hp Hn Hs] Hu Ho Hf He Hcf].
  unfold post_upload_to_nas. rewrite requireAuth_pass by assumption.
  cbv [try_catch bind getDownloadJob getUserSettings get ret].
  rewrite Hj, (owned_Some _ _ Ho), Hc.
  rewrite bool_decide_eq_true_2 by reflexivity. cbn [negb].
  rewrite bool_decide_eq_false_2 by assumption.
  rewrite He, (nonempty_Some _ Hcf), Hp, (existing_found _ _ _ Hn Hs), Hs.
  cbn [default from_option]. unfold Datatypes.id. cbv [settle_fetch].
  rewrite Hr, (status_eqb_201 _ Hst), Hl, Hurl.
  cbv [ret updateDownloadJob bind modify getDownloadJob get broadcastToUser].
  eexists _, _. split; [|split; [|split; [|split; [|reflexivity]]]].
  - cbn. rewrite lookup_alter_eq, Hj. reflexivity.
  - now repeat split.
  - reflexivity.
  - reflexivity.
Qed.

(** [autoUploadToNas], likewise. *)
Lemma auto_upload_enters (w : World) (user jobId : string) (j : DownloadJob)
    (endpoint path : string) (size : Z) (fuel : nat) (r : HttpResponse)
    (uploadUrl url : string) :
  stored env w jobId j path size ->
  (forall hist,
     fetch env hist (create_request (tusEndpoint endpoint) size (FileName.filename j)) = inr r) ->
  rs_status r = 201 ->
  nonempty (headers_get "Location" (rs_headers r)) = Some uploadUrl ->
  fullUploadUrl env uploadUrl (tusEndpoint endpoint) = ret url ->
  exists w1 j1,
    jobs w1 !! jobId = Some j1 /\ same_identity j j1 /\ files w1 = files w /\
    requests (trace w1)
    = (requests (trace w)
       ++ [create_request (tusEndpoint endpoint) size (FileName.filename j)])%list /\
    autoUploadToNas env fuel jobId user endpoint w
    = bind (try_finally (upload_chunks env fuel Auto jobId user path url size (Num 0))
              (fun w => w))
           (fun _ => upload_completed jobId user path) w1.
Proof.
  intros H Hr Hst Hl Hurl.
  destruct H as [Hj Hc Hp Hn Hs].
  unfold autoUploadToNas.
  cbv [try_catch bind getDownloadJob get ret].
  rewrite Hj, Hc.
  rewrite bool_decide_eq_true_2 by reflexivity. cbn [negb].
  rewrite Hp, (existing_found _ _ _ Hn Hs), Hs. cbn [default from_option]. unfold Datatypes.id.
  cbv [updateDownloadJob bind modify getDownloadJob get broadcastToUser ret do_fetch settle_fetch].
  cbn. rewrite Hr. cbv [ret bind]. rewrite (status_eqb_201 _ Hst), Hl, Hurl.
  eexists _, _. split; [|split; [|split; [|split; [|reflexivity]]]].
  - cbn. rewrite lookup_alter_eq, Hj. reflexivity.
  - now repeat split.
  - reflexivity.
  - reflexivity.
Qed.

(** X9. When [downloadVideo] resolves for a job that is in the table, and
    the user has no endpoint or has not asked for the automatic upload,
    [processDownload] leaves the job [completed] at 100 with the path and
    the size of the result, the directory as the download left it, and has
    sent no request. *)
Theorem download_without_upload_completes (fuel : nat) (t : Task) (w : World)
    (j : DownloadJob) (result : DownloadResult) :
  jobs w !! t_jobId t = Some j ->
  dl_result (download_of env t w) = inr result ->
  no_auto_upload (t_userId t) w ->
  exists w' j',
    processDownload env fuel t w = (Ok tt, w') /\
    jobs w' !! t_jobId t = Some j' /\ same_identity j j' /\
    status j' = completed /\ progress j' = Some 100 /\
    filePath j' = Some (res_filePath result) /\ fileSize j' = Some (res_fileSize result) /\
    files w' = dl_files (download_of env t w) /\
    no_request w w'.
Proof.
  intros Hj Hr Hno.
  destruct (download_settles t w j Hj) as (w3 & j3 & E & Hj3 & Id & S3 & F3 & N3).
  rewrite Hr in E.
  unfold processDownload, try_catch.
  change (bind (download_started env t)
            (fun _ => bind (await_downloadVideo env t) (fun result => download_resolved env fuel t result)) w)
    with (bind (bind (download_started env t) (fun _ => await_downloadVideo env t))
            (fun result => download_resolved env fuel t result) w).
  unfold bind at 1. rewrite E.
  cbv [download_resolved bind updateDownloadJob modify getDownloadJob get broadcastToUser
       getUserSettings].
  cbn [fst snd jobs files set_files set_jobs emit trace clock settings drawn].
  rewrite S3.
  assert (Hend : forall w4,
    match nonempty (settings w !! t_userId t ≫= synologyEndpoint) with
    | Some endpoint =>
      if bool_decide (settings w !! t_userId t ≫= autoUpload = Some 1)
      then try_catch (autoUploadToNas env fuel (t_jobId t) (t_userId t) endpoint) (fun _ => ret tt)
      else ret tt
    | None => ret tt
    end w4 = (Ok tt, w4)).
  { intros w4. destruct Hno as [-> | Hoff]; [reflexivity|].
    destruct (nonempty _); [|reflexivity].
    now rewrite bool_decide_eq_false_2 by exact Hoff. }
  rewrite Hend. eexists _, _. split; [reflexivity|]. cbn.
  rewrite lookup_alter_eq, Hj3. cbn.
  split; [reflexivity|]. split; [exact Id|]. repeat split; assumption.
Qed.

(** X10. The whole upload, in both paths: for a completed job whose file of
    [size] bytes is on disk, a create request answered 201 with a location
    that resolves to [url], and an endpoint that applies every chunk, the
    upload sends the create request and then the chunks of the file, and
    nothing else; the job ends [completed] at 100 and marked as uploaded,
    and the local file is gone. The route replies 200. *)
Theorem upload_completes_the_job (w : World) (user jobId : string) (j : DownloadJob)
    (configured path : string) (size : Z) (fuel : nat) (r : HttpResponse)
    (uploadUrl url : string) :
  0 <= size ->
  (forall hist,
     fetch env hist (create_request (tusEndpoint configured) size (FileName.filename j)) = inr r) ->
  rs_status r = 201 ->
  nonempty (headers_get "Location" (rs_headers r)) = Some uploadUrl ->
  fullUploadUrl env uploadUrl (tusEndpoint configured) = ret url ->
  applies_chunks env url path ->
  (Z.to_nat (ceil_div size CHUNK_SIZE) <= fuel)%nat ->
  let sent :=
    create_request (tusEndpoint configured) size (FileName.filename j)
    :: chunk_requests url path size in
  (uploadable env w user jobId j configured path size ->
   exists w' j',
     post_upload_to_nas env fuel (Some user) jobId w
     = (Ok (Json 200 (BUploadStarted "Upload started" (FileName.filename j) size)), w') /\
     jobs w' !! jobId = Some j' /\ uploaded_row j j' /\
     files w' = delete path (files w) /\
     requests (trace w') = (requests (trace w) ++ sent)%list) /\
  (stored env w jobId j path size ->
   exists w' j',
     autoUploadToNas env fuel jobId user configured w = (Ok tt, w') /\
     jobs w' !! jobId = Some j' /\ uploaded_row j j' /\
     files w' = delete path (files w) /\
     requests (trace w') = (requests (trace w) ++ sent)%list).
Proof.
  intros Hsize Hr Hst Hl Hurl Hsrv Hfuel sent. split.
  - intros H.
    destruct (post_upload_enters w user jobId j configured path size fuel r uploadUrl url
                H (Hr _) Hst Hl Hurl) as (w1 & j1 & Hj1 & Id1 & F1 & R1 & E).
    destruct (upload_chunks_run env Manual jobId user path url size Hsrv
                (Z.to_nat (ceil_div size CHUNK_SIZE)) fuel 0 w1) as (w2 & E2 & R2);
      [lia | now rewrite Z.sub_0_r | exact Hfuel |].
    destruct (upload_background_ok fuel jobId user path url size w1 w2 j1 _ Hj1 E2)
      as (w3 & j3 & E3 & Hj3 & (Id3 & Up) & F3 & R3).
    exists w3, j3. rewrite E. unfold try_catch, bind. rewrite E3.
    split; [reflexivity|]. split; [exact Hj3|].
    split; [split; [exact (same_identity_trans _ _ _ Id1 Id3) | exact Up]|].
    split; [congruence|].
    rewrite R3, R2, R1, <- app_assoc. reflexivity.
  - intros H.
    destruct (auto_upload_enters w user jobId j configured path size fuel r uploadUrl url
                H Hr Hst Hl Hurl) as (w1 & j1 & Hj1 & Id1 & F1 & R1 & E).
    destruct (upload_chunks_run env Auto jobId user path url size Hsrv
                (Z.to_nat (ceil_div size CHUNK_SIZE)) fuel 0 w1) as (w2 & E2 & R2);
      [lia | now rewrite Z.sub_0_r | exact Hfuel |].
    destruct (chunks_keep_job fuel Auto jobId user path url size (Num 0) w1 j1 Hj1)
      as (j2 & Hj2 & Id2 & F2).
    rewrite E2 in Hj2, F2. cbn [snd] in Hj2, F2.
    destruct (upload_completed_marks jobId user path w2 j2 Hj2)
      as (w3 & j3 & E3 & Hj3 & (Id3 & Up) & F3 & R3).
    exists w3, j3. rewrite E. unfold bind at 1, try_finally. rewrite E2, E3.
    split; [reflexivity|]. split; [exact Hj3|].
    split; [split; [exact (same_identity_trans _ _ _ Id1 (same_identity_trans _ _ _ Id2 Id3))
                   | exact Up]|].
    split; [congruence|].
    rewrite R3, R2, R1, <- app_assoc. reflexivity.
Qed.

(** The first turn of the loop, on an answer that is an error. *)
Lemma upload_chunks_refused (fuel : nat) (k : UploadKind) (jobId user path url : string)
    (size : Z) (w : World) (message : string) :
  0 < size ->
  chunk_error (fetch env (trace w) (patch_request url path 0 (Z.min CHUNK_SIZE size)))
  = Some message ->
  upload_chunks env (S fuel) k jobId user path url size (Num 0) w
  = (Throw message,
     emit (EvFetch (patch_request url path 0 (Z.min CHUNK_SIZE size))) w).
Proof.
  intros Hsize Herr. unfold upload_chunks. cbn [upload_loop].
  replace (0 <? size) with true by (symmetry; now apply Z.ltb_lt).
  cbn [negb]. rewrite Z.sub_0_r, (readSync_at env) by lia.
  fold (patch_request url path 0 (Z.min CHUNK_SIZE size)).
  cbv [bind do_fetch settle_fetch].
  destruct (fetch env _ _) as [e|r']; cbn in Herr.
  - injection Herr as <-. reflexivity.
  - cbv [ret]. destruct (_ && _); [|discriminate]. injection Herr as <-. reflexivity.
Qed.

(** X11. A chunk that fails in the route: for a job that may be uploaded and
    a created session, when the first chunk is rejected by [fetch] or
    answered with a status other than 204 and 200, the route has replied
    200, no further chunk is sent, the job ends [failed] at progress 0 with
    the message [Upload failed: ...] of the error, and the local file is
    kept. *)
Theorem refused_chunk_fails_the_job (w : World) (user jobId : string) (j : DownloadJob)
    (configured path : string) (size : Z) (fuel : nat) (r : HttpResponse)
    (uploadUrl url message : string) :
  uploadable env w user jobId j configured path size ->
  0 < size ->
  fetch env (trace w) (create_request (tusEndpoint configured) size (FileName.filename j)) = inr r ->
  rs_status r = 201 ->
  nonempty (headers_get "Location" (rs_headers r)) = Some uploadUrl ->
  fullUploadUrl env uploadUrl (tusEndpoint configured) = ret url ->
  (forall hist,
     chunk_error (fetch env hist (patch_request url path 0 (Z.min CHUNK_SIZE size)))
     = Some message) ->
  exists w' j',
    post_upload_to_nas env (S fuel) (Some user) jobId w
    = (Ok (Json 200 (BUploadStarted "Upload started" (FileName.filename j) size)), w') /\
    jobs w' !! jobId = Some j' /\ failed_row message j j' /\
    files w' = files w /\
    requests (trace w')
    = (requests (trace w)
       ++ [create_request (tusEndpoint configured) size (FileName.filename j);
           patch_request url path 0 (Z.min CHUNK_SIZE size)])%list.
Proof.
  intros H Hsize Hr Hst Hl Hurl Herr.
  destruct (post_upload_enters w user jobId j configured path size (S fuel) r uploadUrl url
              H Hr Hst Hl Hurl) as (w1 & j1 & Hj1 & Id1 & F1 & R1 & E).
  pose proof (upload_chunks_refused fuel Manual jobId user path url size w1 message Hsize
                (Herr _)) as E2.
  destruct (upload_background_throw (S fuel) jobId user path url size w1 _ j1 message Hj1 E2)
    as (w3 & j3 & E3 & Hj3 & (Id3 & Fl) & F3 & R3).
  exists w3, j3. rewrite E. unfold try_catch, bind. rewrite E3.
  split; [reflexivity|]. split; [exact Hj3|].
  split; [split; [exact (same_identity_trans _ _ _ Id1 Id3) | exact Fl]|].
  split; [congruence|].
  rewrite R3.
  transitivity (requests (trace w1) ++ [patch_request url path 0 (Z.min CHUNK_SIZE size)])%list;
    [reflexivity|].
  rewrite R1, <- app_assoc. reflexivity.
Qed.

(** X12. The loop trusts the offset that the endpoint acknowledges: for a
    job that may be uploaded and a created session, when the first chunk
    is accepted and the offset acknowledged for it is no number, or is the
    size of the file or more, no further chunk is sent whatever the size of
    the file, the job ends [completed] at 100 and marked as uploaded, and
    the local file is deleted. *)
Theorem acknowledged_offset_is_trusted (w : World) (user jobId : string) (j : DownloadJob)
    (configured path : string) (size : Z) (fuel : nat) (r r' : HttpResponse)
    (uploadUrl url : string) :
  uploadable env w user jobId j configured path size ->
  0 < size ->
  fetch env (trace w) (create_request (tusEndpoint configured) size (FileName.filename j)) = inr r ->
  rs_status r = 201 ->
  nonempty (headers_get "Location" (rs_headers r)) = Some uploadUrl ->
  fullUploadUrl env uploadUrl (tusEndpoint configured) = ret url ->
  (forall hist,
     fetch env hist (patch_request url path 0 (Z.min CHUNK_SIZE size)) = inr r') ->
  rs_status r' = 204 \/ rs_status r' = 200 ->
  ends_loop size (acknowledged r' 0 (Z.min CHUNK_SIZE size)) ->
  exists w' j',
    post_upload_to_nas env (S fuel) (Some user) jobId w
    = (Ok (Json 200 (BUploadStarted "Upload started" (FileName.filename j) size)), w') /\
    jobs w' !! jobId = Some j' /\ uploaded_row j j' /\
    files w' = delete path (files w) /\
    requests (trace w')
    = (requests (trace w)
       ++ [create_request (tusEndpoint configured) size (FileName.filename j);
           patch_request url path 0 (Z.min CHUNK_SIZE size)])%list.
Proof.
  intros H Hsize Hr Hst Hl Hurl Hp Hs Hend.
  destruct (post_upload_enters w user jobId j configured path size (S fuel) r uploadUrl url
              H Hr Hst Hl Hurl) as (w1 & j1 & Hj1 & Id1 & F1 & R1 & E).
  destruct (upload_chunks_step env fuel Manual jobId user path url size 0 w1 r' ltac:(lia))
    as (w2 & E2 & R2); [rewrite Z.sub_0_r; apply Hp | exact Hs |].
  rewrite Z.sub_0_r in E2, R2.
  assert (E2' : upload_chunks env fuel Manual jobId user path url size
                  (acknowledged r' 0 (Z.min CHUNK_SIZE size)) w2
                = (Ok (acknowledged r' 0 (Z.min CHUNK_SIZE size)), w2)).
  { unfold upload_chunks.
    destruct (acknowledged _ _ _) as [z|]; [|destruct fuel; reflexivity].
    cbn in Hend. destruct fuel; cbn [upload_loop];
      replace (z <? size) with false by (symmetry; apply Z.ltb_ge; lia); reflexivity. }
  rewrite E2' in E2.
  destruct (upload_background_ok (S fuel) jobId user path url size w1 w2 j1 _ Hj1 E2)
    as (w3 & j3 & E3 & Hj3 & (Id3 & Up) & F3 & R3).
  exists w3, j3. rewrite E. unfold try_catch, bind. rewrite E3.
  split; [reflexivity|]. split; [exact Hj3|].
  split; [split; [exact (same_identity_trans _ _ _ Id1 Id3) | exact Up]|].
  split; [congruence|].
  rewrite R3, R2, R1, <- app_assoc. reflexivity.
Qed.

(** A read of the loop gives a chunk of the file. *)
Lemma readSync_chunk (url path : string) (size handle off : Z) (buffer : ReqBody) (handle' : Z) :
  off < size -> 0 <= handle <= Z.max 0 size ->
  readSync env path size handle (Z.min CHUNK_SIZE (size - off)) off = inr (buffer, handle') ->
  chunk_of url path size (chunk_request url off buffer) /\ 0 <= handle' <= Z.max 0 size.
Proof.
  intros Hlt Hh. unfold readSync.
  destruct (Z.ltb_spec off (-1)) as [Hlow|Hlow]; [discriminate|].
  destruct (Z.eqb_spec off (-1)) as [->|Hne]; intros [= <- <-].
  - split; [|unfold CHUNK_SIZE; lia].
    exists (-1), (Z.min CHUNK_SIZE (size - -1)).
    split; [reflexivity|]. split; [reflexivity|]. split; [reflexivity|].
    split; [unfold CHUNK_SIZE; lia|]. right. split; [reflexivity|].
    eexists _, _. split; [|split; [|split; [|reflexivity]]]; unfold CHUNK_SIZE; lia.
  - split; [|exact Hh].
    exists off, (Z.min CHUNK_SIZE (size - off)).
    split; [reflexivity|]. split; [reflexivity|]. split; [reflexivity|].
    split; [unfold CHUNK_SIZE; lia|]. left.
    split; [lia|]. split; [unfold CHUNK_SIZE; lia | reflexivity].
Qed.

Lemma loop_stays_within_the_file (fuel : nat) (k : UploadKind)
    (jobId user path url : string) (size handle : Z) (n : jsnum) (w : World) :
  0 <= handle <= Z.max 0 size ->
  exists sent,
    requests (trace (upload_loop env fuel k jobId user path url size handle n w).2)
    = (requests (trace w) ++ sent)%list /\
    Forall (chunk_of url path size) sent /\
    (List.length sent <= fuel)%nat.
Proof.
  revert handle n w. induction fuel as [|fuel IH]; intros handle [off|] w Hh; cbn [upload_loop];
    try (exists []; rewrite app_nil_r; split; [reflexivity|]; split; [constructor | cbn; lia]).
  - destruct (negb (off <? size));
      exists []; rewrite app_nil_r; (split; [reflexivity|]; split; [constructor | cbn; lia]).
  - destruct (Z.ltb_spec off size) as [Hlt|Hge]; cbn [negb];
      [|exists []; rewrite app_nil_r; split; [reflexivity|]; split; [constructor | cbn; lia]].
    destruct (readSync env path size handle _ off) as [rangeError|[buffer handle']] eqn:Hread.
    { exists []. rewrite app_nil_r. split; [reflexivity|]. split; [constructor | cbn; lia]. }
    destruct (readSync_chunk url path size handle off buffer handle' Hlt Hh Hread) as [Hc Hh'].
    cbv [bind do_fetch settle_fetch].
    destruct (fetch env (trace w) _) as [e|r].
    + eexists [_]. split; [reflexivity|]. split; [now constructor | cbn; lia].
    + cbv [ret]. destruct (_ && _).
      * eexists [_]. split; [reflexivity|]. split; [now constructor | cbn; lia].
      * cbv [get updateDownloadJob bind modify getDownloadJob broadcastToUser ret].
        match goal with
        | |- context [upload_loop env fuel k jobId user path url size handle' ?n ?w1] =>
          destruct (IH handle' n w1 Hh') as (sent & E & Hs & Hl)
        end.
        eexists (_ :: sent). split; [|split; [constructor; [exact Hc | exact Hs] | cbn; lia]].
        rewrite E. cbn [trace emit set_jobs]. unfold requests. cbn [omap list_omap rev].
        now rewrite <- app_assoc.
Qed.



(** X24. Whatever the endpoint answers, and in both upload paths, the loop
    sends nothing but chunks of the file: every request is a PATCH to the
    session with a buffer of at least one byte and at most five mebibytes.
    When the offset is a position of the file, the buffer is the slice of the
    file from there, it ends within the file, and the position is in
    [Upload-Offset]. When the offset, acknowledged by the endpoint, is -1,
    [Upload-Offset] is -1 and the buffer holds bytes read where the handle
    was, none of them beyond the end of the file, with zeros after them.
    There is at most one request for each turn of the loop; and at an offset
    below -1 the read fails: nothing is sent and the loop throws the error
    of [fs.readSync]. *)
Theorem chunks_stay_within_the_file (fuel : nat) (k : UploadKind)
    (jobId user path url : string) (size : Z) (n : jsnum) (w : World) :
  (exists sent,
     requests (trace (upload_chunks env fuel k jobId user path url size n w).2)
     = (requests (trace w) ++ sent)%list /\
     Forall (chunk_of url path size) sent /\
     (List.length sent <= fuel)%nat) /\
  (forall off,
     off < -1 -> off < size ->
     upload_chunks env (S fuel) k jobId user path url size (Num off) w
     = (Throw (ERR_OUT_OF_RANGE env off), w)).
Proof.
  split.
  - apply loop_stays_within_the_file. lia.
  - intros off Hlow Hlt. unfold upload_chunks. cbn [upload_loop].
    replace (off <? size) with true by (symmetry; now apply Z.ltb_lt).
    cbn [negb]. unfold readSync.
    now replace (off <? -1) with true by (symmetry; now apply Z.ltb_lt).
Qed.

#[global] Instance upload_stage_preorder (jobId : string) : PreOrder (upload_stage jobId).
Proof.
  split.
  - intros w j' Hj'. exists j'. now repeat split; try left.
  - intros w1 w2 w3 H12 H23 j3 Hj3.
    destruct (H23 j3 Hj3) as (j2 & Hj2 & P3 & S3 & E3 & St3).
    destruct (H12 j2 Hj2) as (j1 & Hj1 & P2 & S2 & E2 & St2).
    exists j1. split; [exact Hj1|]. split; [congruence|]. split; [congruence|].
    split; [congruence|].
    destruct St3 as [St3|St3]; [rewrite St3; exact St2 | now right].
Qed.

Lemma upload_stage_emit (jobId : string) (e : Event) (w : World) :
  upload_stage jobId w (emit e w).
Proof. change (upload_stage jobId w w). reflexivity. Qed.

Lemma upload_stage_update (jobId : string) (u : JobUpdates) :
  of_upload u -> keeps (upload_stage jobId) (updateDownloadJob jobId u).
Proof.
  intros (Hp & Hs & He & Hst) w j'.
  cbv [updateDownloadJob bind modify getDownloadJob get]. cbn.
  rewrite lookup_alter_eq. destruct (jobs w !! jobId) as [j|]; [|discriminate].
  intros [= <-]. exists j. split; [reflexivity|]. cbn. rewrite Hp, Hs, He. cbn.
  split; [reflexivity|]. split; [reflexivity|]. split; [reflexivity|].
  destruct Hst as [-> | [-> | ->]]; cbn; auto.
Qed.

Lemma progress_update_of_upload (p : option Z) : of_upload (progress_update p).
Proof. repeat split. right. now left. Qed.

Lemma completed_update_of_upload : of_upload completed_update.
Proof. repeat split. right. now right. Qed.

Lemma upload_stage_chunks (fuel : nat) (k : UploadKind) (jobId user path url : string)
    (size : Z) (n : jsnum) :
  keeps (upload_stage jobId) (upload_chunks env fuel k jobId user path url size n).
Proof.
  unfold upload_chunks. generalize 0 as handle.
  revert n. induction fuel as [|fuel IH]; intros [off|] handle; cbn [upload_loop];
    try (kapply keeps_ret); destruct (negb (off <? size)); try (kapply keeps_ret).
  - kapply keeps_out_of_fuel.
  - destruct (readSync _ _ _ _ _ _) as [rangeError|[buffer handle']]; [kapply keeps_throw|].
    unfold do_fetch, settle_fetch, broadcastToUser.
    kapply keeps_bind; [|intros r].
    { kapply keeps_bind; [intros w; apply upload_stage_emit
                         | intros [e|r]]; [kapply keeps_throw | kapply keeps_ret]. }
    destruct (_ && _); [kapply keeps_throw|].
    kapply keeps_bind; [kapply keeps_get | intros labels].
    kapply keeps_bind; [apply upload_stage_update, progress_update_of_upload | intros job].
    kapply keeps_bind; [kapply keeps_modify; intros w; apply upload_stage_emit | intros _].
    apply IH.
Qed.

Lemma upload_stage_autoUploadToNas (fuel : nat) (jobId user endpoint : string) :
  keeps (upload_stage jobId) (autoUploadToNas env fuel jobId user endpoint).
Proof.
  unfold autoUploadToNas, getDownloadJob, broadcastToUser.
  kapply keeps_bind; [kapply keeps_get | intros [j|]]; [|kapply keeps_ret].
  destruct (negb _); [kapply keeps_ret|].
  kapply keeps_bind; [kapply keeps_get | intros [path|]]; [|kapply keeps_ret].
  cbv zeta.
  kapply keeps_bind; [kapply keeps_get | intros size].
  kapply keeps_bind; [apply upload_stage_update, progress_update_of_upload | intros job].
  kapply keeps_bind; [kapply keeps_modify; intros w; apply upload_stage_emit | intros _].
  kapply keeps_bind; [|intros r].
  { unfold do_fetch, settle_fetch.
    kapply keeps_bind; [intros w; apply upload_stage_emit
                       | intros [e|r]]; [kapply keeps_throw | kapply keeps_ret]. }
  destruct (negb _); [kapply keeps_throw|].
  destruct (nonempty _) as [u|]; [|kapply keeps_throw].
  kapply keeps_bind; [|intros url].
  { unfold fullUploadUrl. destruct (_ || _); [kapply keeps_ret|].
    destruct (URL_resolve env u _); [kapply keeps_ret | kapply keeps_throw]. }
  kapply keeps_bind; [kapply keeps_try_finally; apply upload_stage_chunks | intros _].
  unfold upload_completed, broadcastToUser.
  kapply keeps_bind; [apply upload_stage_update, completed_update_of_upload | intros marked].
  kapply keeps_bind; [kapply keeps_modify; intros w; apply upload_stage_emit | intros _].
  intros w. unfold unlink_if_exists.
  destruct (files w !! path); change (upload_stage jobId w w); reflexivity.
Qed.

(** The end of [download_resolved]: the automatic upload, if it is asked
    for, with its errors caught. *)
Lemma upload_after_download (fuel : nat) (t : Task) (st : option UserSettings) (w : World) :
  let tail :=
    match nonempty (st ≫= synologyEndpoint) with
    | Some endpoint =>
      if bool_decide (st ≫= autoUpload = Some 1)
      then try_catch (autoUploadToNas env fuel (t_jobId t) (t_userId t) endpoint)
             (fun _ => ret tt)
      else ret tt
    | None => ret tt
    end in
  upload_stage (t_jobId t) w (tail w).2 /\ only_updates (t_jobId t) w (tail w).2 /\
  forall e, (tail w).1 <> Throw e.
Proof.
  cbv zeta. destruct (nonempty _) as [endpoint|]; [|split; [reflexivity | split; [reflexivity | discriminate]]].
  destruct (bool_decide _); [|split; [reflexivity | split; [reflexivity | discriminate]]].
  split; [|split].
  - apply (keeps_try_catch (upload_stage (t_jobId t)));
      [apply upload_stage_autoUploadToNas | intros _; kapply keeps_ret].
  - apply (keeps_try_catch (only_updates (t_jobId t)));
      [apply keeps_autoUploadToNas | intros _; kapply keeps_ret].
  - intros e. unfold try_catch.
    destruct (autoUploadToNas env fuel (t_jobId t) (t_userId t) endpoint w) as [[[]|e'|] w'];
      discriminate.
Qed.

(** [processDownload] from the point where the job has been marked as
    downloaded. *)
Lemma processDownload_resolved (fuel : nat) (t : Task) (w : World)
    (j : DownloadJob) (result : DownloadResult) :
  jobs w !! t_jobId t = Some j ->
  dl_result (download_of env t w) = inr result ->
  exists w4 j4 st,
    jobs w4 !! t_jobId t = Some j4 /\ same_identity j j4 /\ status j4 = completed /\
    filePath j4 = Some (res_filePath result) /\ fileSize j4 = Some (res_fileSize result) /\
    processDownload env fuel t w
    = try_catch
        (match nonempty (st ≫= synologyEndpoint) with
         | Some endpoint =>
           if bool_decide (st ≫= autoUpload = Some 1)
           then try_catch (autoUploadToNas env fuel (t_jobId t) (t_userId t) endpoint)
                  (fun _ => ret tt)
           else ret tt
         | None => ret tt
         end)
        (download_failed t) w4.
Proof.
  intros Hj Hr.
  destruct (download_settles t w j Hj) as (w3 & j3 & E & Hj3 & Id & S3 & F3 & N3).
  rewrite Hr in E.
  unfold processDownload. unfold try_catch at 1.
  change (bind (download_started env t)
            (fun _ => bind (await_downloadVideo env t) (fun result => download_resolved env fuel t result)) w)
    with (bind (bind (download_started env t) (fun _ => await_downloadVideo env t))
            (fun result => download_resolved env fuel t result) w).
  unfold bind at 1. rewrite E.
  cbv [download_resolved bind updateDownloadJob modify getDownloadJob get broadcastToUser
       getUserSettings].
  cbn [fst snd jobs files set_files set_jobs emit trace clock settings drawn].
  eexists _, _, _. split; [|split; [|split; [|split; [|split; [|reflexivity]]]]].
  - cbn. rewrite lookup_alter_eq, Hj3. reflexivity.
  - exact Id.
  - reflexivity.
  - reflexivity.
  - reflexivity.
Qed.

(** [processDownload] from the point where the job has been marked as
    downloaded, with what the download has left. *)
Lemma processDownload_downloaded (fuel : nat) (t : Task) (w : World)
    (j : DownloadJob) (result : DownloadResult) :
  jobs w !! t_jobId t = Some j ->
  dl_result (download_of env t w) = inr result ->
  exists w4 j4,
    jobs w4 !! t_jobId t = Some j4 /\ same_identity j j4 /\ status j4 = completed /\
    settings w4 = settings w /\ files w4 = dl_files (download_of env t w) /\
    no_request w w4 /\
    processDownload env fuel t w
    = try_catch
        (match nonempty (settings w !! t_userId t ≫= synologyEndpoint) with
         | Some endpoint =>
           if bool_decide (settings w !! t_userId t ≫= autoUpload = Some 1)
           then try_catch (autoUploadToNas env fuel (t_jobId t) (t_userId t) endpoint)
                  (fun _ => ret tt)
           else ret tt
         | None => ret tt
         end)
        (download_failed t) w4.
Proof.
  intros Hj Hr.
  destruct (download_settles t w j Hj) as (w3 & j3 & E & Hj3 & Id & S3 & F3 & N3).
  rewrite Hr in E.
  unfold processDownload. unfold try_catch at 1.
  change (bind (download_started env t)
            (fun _ => bind (await_downloadVideo env t) (fun result => download_resolved env fuel t result)) w)
    with (bind (bind (download_started env t) (fun _ => await_downloadVideo env t))
            (fun result => download_resolved env fuel t result) w).
  unfold bind at 1. rewrite E.
  cbv [download_resolved bind updateDownloadJob modify getDownloadJob get broadcastToUser
       getUserSettings].
  cbn [fst snd jobs files set_files set_jobs emit trace clock settings drawn].
  rewrite S3.
  eexists _, _. split; [|split; [|split; [|split; [|split; [|split; [|reflexivity]]]]]].
  - cbn. rewrite lookup_alter_eq, Hj3. reflexivity.
  - exact Id.
  - reflexivity.
  - exact S3.
  - exact F3.
  - exact N3.
Qed.

(** C3, amended. When the create request is answered with a status other
    than 201, the route [upload-to-nas] answers 400 with a message that
    contains the status, having sent that one request and changed neither
    the job, which stays [completed], nor the files. In the automatic path,
    for a download that has succeeded and a user who has asked for the
    upload, [autoUploadToNas] throws [TUS create failed: <status>] and
    [processDownload] catches it: it resolves, the job is not [failed] (it
    is left in [uploading]), the downloaded file is kept, and the create
    request is the only request sent. In both paths no chunk is sent. *)
Theorem create_failure_keeps_job_and_file (w : World) (user jobId : string) (j : DownloadJob)
    (configured path : string) (size : Z) (fuel : nat) (r : HttpResponse) :
  stored env w jobId j path size ->
  rs_status r <> 201 ->
  (forall hist,
     fetch env hist (create_request (tusEndpoint configured) size (FileName.filename j)) = inr r) ->
  (uploadable env w user jobId j configured path size ->
   exists w',
     post_upload_to_nas env fuel (Some user) jobId w
     = (Ok (Json 400 (BUploadError (rejected_message r) (rejected_details r))), w') /\
     JsString.includes (JsString.toString (rs_status r)) (rejected_message r) = true /\
     jobs w' = jobs w /\ jobs w' !! jobId = Some j /\ status j = completed /\
     files w' = files w /\
     requests (trace w')
     = (requests (trace w)
        ++ [create_request (tusEndpoint configured) size (FileName.filename j)])%list) /\
  (exists w' message,
     autoUploadToNas env fuel jobId user configured w = (Throw message, w') /\
     message = "TUS create failed: " ++ JsString.toString (rs_status r) /\
     JsString.includes (JsString.toString (rs_status r)) message = true /\
     files w' = files w /\
     requests (trace w')
     = (requests (trace w)
        ++ [create_request (tusEndpoint configured) size (FileName.filename j)])%list) /\
  (forall (t : Task) (w0 : World) (j0 : DownloadJob) (result : DownloadResult),
     let d := download_of env t w0 in
     jobs w0 !! t_jobId t = Some j0 ->
     videoTitle j0 = videoTitle j -> format j0 = format j ->
     dl_result d = inr result ->
     getDownloadFilePath env (t_jobId t) (format j0) (dl_files d) = Some path ->
     dl_files d !! path = Some size ->
     settings w0 !! t_userId t ≫= synologyEndpoint = Some configured ->
     configured <> "" ->
     settings w0 !! t_userId t ≫= autoUpload = Some 1 ->
     exists w' j',
       processDownload env fuel t w0 = (Ok tt, w') /\
       jobs w' !! t_jobId t = Some j' /\ same_identity j0 j' /\
       status j' = uploading /\ status j' <> failed /\
       files w' = dl_files d /\ files w' !! path = Some size /\
       requests (trace w')
       = (requests (trace w0)
          ++ [create_request (tusEndpoint configured) size (FileName.filename j)])%list).
Proof.
  intros Hst Hne Hr. split; [|split].
  - intros Hup. eexists.
    split; [apply post_upload_rejected with (path := path);
            [exact Hup | apply Hr | exact Hne]|].
    split; [apply includes_app|].
    repeat split; [apply (st_job _ _ _ _ _ _ Hst) | apply (st_completed _ _ _ _ _ _ Hst)].
  - destruct (autoUpload_rejected env w user jobId j configured path size fuel r Hst Hr Hne)
      as (w' & E & Hfiles & Hrq).
    exists w', ("TUS create failed: " ++ JsString.toString (rs_status r)).
    split; [exact E|]. split; [reflexivity|]. split; [|now split].
    apply includes_suffix.
  - intros t w0 j0 result d Hj0 Htitle Hformat Hres Hpath Hsize Hend Hconf Hauto.
    destruct (processDownload_downloaded fuel t w0 j0 result Hj0 Hres)
      as (w4 & j4 & Hj4 & Id4 & St4 & S4 & F4 & N4 & ->).
    assert (Hname : FileName.filename j4 = FileName.filename j).
    { destruct Id4 as (_ & _ & _ & Ht & _ & Hf & _). unfold FileName.filename.
      now rewrite Ht, Hf, Htitle, Hformat. }
    assert (Hstored : stored env w4 (t_jobId t) j4 path size).
    { split; [exact Hj4 | exact St4 | | apply (st_named _ _ _ _ _ _ Hst) | now rewrite F4].
      destruct Id4 as (_ & _ & _ & _ & _ & Hf & _). now rewrite Hf, F4. }
    destruct (autoUpload_rejected_row env w4 (t_userId t) (t_jobId t) j4 configured path size
                fuel r Hstored) as (w' & E & Hfiles & Hrq & Hrow);
      [intros hist; rewrite Hname; apply Hr | exact Hne |].
    rewrite Hend, (nonempty_Some _ Hconf), Hauto.
    rewrite bool_decide_eq_true_2 by reflexivity.
    unfold try_catch. rewrite E.
    eexists w', _. split; [reflexivity|]. split; [exact Hrow|].
    split; [exact (same_identity_trans _ _ _ Id4 ltac:(repeat split))|].
    split; [reflexivity|]. split; [discriminate|].
    split; [rewrite Hfiles; exact F4|]. split; [rewrite Hfiles, F4; exact Hsize|].
    rewrite Hrq, Hname. unfold no_request in N4. now rewrite N4.
Qed.

(** X28. A download that has succeeded is not reported as failed, whatever
    becomes of its upload: when [downloadVideo] resolves for a job that is
    in the table, then for every configuration of the user, every answer of
    the endpoint and every number of turns given to the upload,
    [processDownload] does not reject, and it leaves the job with the path
    and the size of the downloaded file and in status [completed] or
    [uploading], never [failed]. *)
Theorem finished_download_is_never_failed (fuel : nat) (t : Task) (w : World)
    (j : DownloadJob) (result : DownloadResult) :
  jobs w !! t_jobId t = Some j ->
  dl_result (download_of env t w) = inr result ->
  let run := processDownload env fuel t w in
  (forall e, run.1 <> Throw e) /\
  exists j',
    jobs run.2 !! t_jobId t = Some j' /\ same_identity j j' /\
    (status j' = completed \/ status j' = uploading) /\
    filePath j' = Some (res_filePath result) /\ fileSize j' = Some (res_fileSize result).
Proof.
  intros Hj Hr. cbv zeta.
  destruct (processDownload_resolved fuel t w j result Hj Hr)
    as (w4 & j4 & st & Hj4 & Id4 & St4 & P4 & Sz4 & ->).
  destruct (upload_after_download fuel t st w4) as (Hstage & Hupd & Hthrow).
  cbv zeta in Hstage, Hupd, Hthrow. unfold try_catch at 1 3.
  match type of Hthrow with
  | forall e, (?c w4).1 <> Throw e => destruct (c w4) as [[[]|e'|] w5]
  end; cbn [fst snd] in *; try (now destruct (Hthrow e')).
  - split; [discriminate|].
    destruct Hupd as [(_ & _ & I5) X5]. destruct X5 as [j5 Hj5]; [eexists; exact Hj4|].
    destruct (Hstage j5 Hj5) as (j4' & Hj4' & P5 & Sz5 & _ & St5).
    destruct (I5 j5 Hj5) as (j4'' & Hj4'' & Id5).
    rewrite Hj4 in Hj4', Hj4''. injection Hj4' as <-. injection Hj4'' as <-.
    exists j5. split; [exact Hj5|].
    split; [apply (same_identity_trans _ _ _ Id4); exact Id5|].
    split; [rewrite St4 in St5; tauto|]. split; [congruence | congruence].
  - split; [discriminate|].
    destruct Hupd as [(_ & _ & I5) X5]. destruct X5 as [j5 Hj5]; [eexists; exact Hj4|].
    destruct (Hstage j5 Hj5) as (j4' & Hj4' & P5 & Sz5 & _ & St5).
    destruct (I5 j5 Hj5) as (j4'' & Hj4'' & Id5).
    rewrite Hj4 in Hj4', Hj4''. injection Hj4' as <-. injection Hj4'' as <-.
    exists j5. split; [exact Hj5|].
    split; [apply (same_identity_trans _ _ _ Id4); exact Id5|].
    split; [rewrite St4 in St5; tauto|]. split; [congruence | congruence].
Qed.

End TaskOutcomes.

(** ** What the routes leave behind *)

Section RouteOutcomes.

Variable env : Env.

(** A route asked for a job that is not in the table refuses. *)
Lemma missing_job_is_refused (w : World) (session : option string) (fuel : nat)
    (jobId : string) :
  jobs w !! jobId = None ->
  (exists r, post_cancel session jobId w = (Ok r, w) /\ refused r) /\
  (exists r, post_retry env session jobId w = (Ok r, w) /\ refused r) /\
  (exists r, delete_job env session jobId w = (Ok r, w) /\ refused r) /\
  (exists r, get_download env session jobId w = (Ok r, w) /\ refused r) /\
  (exists r, post_upload_to_nas env fuel session jobId w = (Ok r, w) /\ refused r).
Proof.
  intros Hj.
  unfold post_cancel, post_retry, delete_job, get_download, post_upload_to_nas, requireAuth.
  destruct (nonempty session) as [user|].
  - cbv [try_catch bind getDownloadJob get not_found ret]. rewrite Hj. cbn [owned].
    repeat split; eexists; (split; [reflexivity | right; reflexivity]).
  - repeat split; eexists; (split; [reflexivity | left; reflexivity]).
Qed.

(** X13. A submission that passes the schema names a YouTube address and one
    of the two formats. When the probe of the video succeeds and the
    identifier drawn is free, the route replies 200 with the new job, which
    is [queued] at progress 0 for the caller; the table has that one row
    more, no file is touched, and the task of the job has been started with
    the address, format, quality and proxy of the submission. When the
    identifier is taken the reply is 500 and the table is as it was. *)
Theorem accepted_submission_queues_one_job (w : World) (user : string)
    (b : DownloadRequest) (rq : ValidRequest) :
  user <> "" ->
  downloadRequestSchema env b = Some rq ->
  b_url b = Some (v_url rq) /\
  b_format b = Some (format_text (v_format rq)) /\
  b_quality b = v_quality rq /\
  JsString.includes "youtube.com" (v_url rq) || JsString.includes "youtu.be" (v_url rq) = true /\
  forall info,
    getVideoInfo env (v_url rq) (proxyConfig (settings w !! user)) = inr info ->
    let jid := randomUUID env (drawn w) in
    (jobs w !! jid = None ->
     exists w' j,
       post_download env (Some user) b w = (Ok (Json 200 (BJob (Some j))), w') /\
       id j = jid /\ queued_row user rq j /\
       jobs w' = <[jid := j]> (jobs w) /\
       files w' = files w /\
       trace w'
       = EvSpawn (mkTask jid user (v_url rq) (v_format rq) (nonempty (v_quality rq))
                    (proxyConfig (settings w !! user)))
         :: EvInsert j :: trace w) /\
    (is_Some (jobs w !! jid) ->
     exists w',
       post_download env (Some user) b w
       = (Ok (Json 500 (BMessage "Failed to create download job")), w') /\
       jobs w' = jobs w /\ files w' = files w /\ trace w' = trace w).
Proof.
  intros Hu Hv.
  assert (Hb : b_url b = Some (v_url rq) /\
               b_format b = Some (format_text (v_format rq)) /\
               b_quality b = v_quality rq /\
               JsString.includes "youtube.com" (v_url rq)
               || JsString.includes "youtu.be" (v_url rq) = true).
  { unfold downloadRequestSchema in Hv.
    destruct (b_url b) as [url|]; [|discriminate].
    destruct (b_format b) as [f|]; [|discriminate].
    destruct (isUrl env url); [|discriminate]. cbn [andb] in Hv.
    destruct (_ || _) eqn:Hy; [|discriminate].
    destruct (String.eqb_spec f "audio") as [->|_];
      [injection Hv as <-; cbn; now rewrite Hy|].
    destruct (String.eqb_spec f "video") as [->|_]; [|discriminate].
    injection Hv as <-. cbn. now rewrite Hy. }
  destruct Hb as (H1 & H2 & H3 & H4).
  split; [exact H1|]. split; [exact H2|]. split; [exact H3|]. split; [exact H4|].
  intros info Hi jid. unfold post_download. rewrite requireAuth_pass by assumption.
  rewrite Hv. cbv [try_catch bind getUserSettings get]. rewrite Hi.
  unfold createDownloadJob. fold jid. split.
  - intros Hfree. rewrite Hfree. cbv [spawn modify ret]. cbn.
    eexists _, _. split; [reflexivity|]. cbn. repeat split.
  - intros [j' Htaken]. rewrite Htaken. cbv [ret]. cbn.
    eexists. split; [reflexivity|]. repeat split.
Qed.

(** X14. The owner deletes a job: the reply is 200, the row is gone and the
    other rows are as they were, the files of the job have been cleaned up,
    and the deletion is the last thing announced to the owner. From then on
    every route asked for the job refuses, whoever asks: 401 without a
    session, 404 with one, and nothing changes. *)
Theorem deleted_job_is_gone (w : World) (user jobId : string) (j : DownloadJob) :
  user <> "" ->
  jobs w !! jobId = Some j ->
  userId j = user ->
  exists w',
    delete_job env (Some user) jobId w = (Ok (Json 200 BSuccess), w') /\
    jobs w' = delete jobId (jobs w) /\
    files w' = cleanupDownloadFile env jobId (files w) /\
    settings w' = settings w /\
    head (trace w') = Some (EvBroadcast user (job_deleted jobId)) /\
    forall session fuel,
      (exists r, post_cancel session jobId w' = (Ok r, w') /\ refused r) /\
      (exists r, post_retry env session jobId w' = (Ok r, w') /\ refused r) /\
      (exists r, delete_job env session jobId w' = (Ok r, w') /\ refused r) /\
      (exists r, get_download env session jobId w' = (Ok r, w') /\ refused r) /\
      (exists r, post_upload_to_nas env fuel session jobId w' = (Ok r, w') /\ refused r).
Proof.
  intros Hu Hj Ho. unfold delete_job at 1. rewrite requireAuth_pass by assumption.
  cbv [try_catch bind getDownloadJob get]. rewrite Hj, (owned_Some _ _ Ho).
  cbv [modify deleteDownloadJob broadcastToUser ret]. cbn.
  eexists. split; [reflexivity|]. cbn.
  split; [reflexivity|]. split; [reflexivity|]. split; [reflexivity|]. split; [reflexivity|].
  intros session fuel. apply missing_job_is_refused. cbn. apply lookup_delete_eq.
Qed.

End RouteOutcomes.

(** ** The names of the files *)

Section FileNames.

Lemma filter_safe (t : ustring) : Forall (fun c => FileName.is_safe c = true) (List.filter FileName.is_safe t).
Proof.
  apply Forall_forall. intros c Hc. apply list_elem_of_In, List.filter_In in Hc. tauto.
Qed.

Lemma safeTitle_safe (title : option ustring) :
  Forall (fun c => FileName.is_safe c = true) (FileName.safeTitle title) /\
  (List.length (FileName.safeTitle title) <= 100)%nat.
Proof.
  unfold FileName.safeTitle. split; [apply Forall_take, filter_safe|].
  rewrite length_take. lia.
Qed.

(** X27. The name under which the file of a job is offered for download and
    announced to the endpoint: the title, or [video] when the job has none,
    without the code units outside of letters, digits, white space, hyphen
    and underscore, cut to 100 code units, then a dot and [mp3] or [mp4]. So
    whatever the title, the name has at most 104 code units and at least 4,
    it has neither a slash nor a backslash nor a NUL, its only dot is the
    one before the extension, and what goes into [Upload-Metadata] for it is
    a base64 text of four characters for every three bytes. *)
Theorem file_names_are_safe (j : DownloadJob) :
  let name := FileName.filename j in
  let t := FileName.safeTitle (videoTitle j) in
  name = (t ++ FileName.units ("." ++ FileName.ext (format j)))%list /\
  Forall (fun c => FileName.is_safe c = true) t /\
  (4 <= List.length name <= 104)%nat /\
  (forall c, c ∈ name -> c <> 47%N /\ c <> 92%N /\ c <> 0%N) /\
  (forall pre post, name = (pre ++ 46%N :: post)%list ->
     pre = t /\ post = FileName.units (FileName.ext (format j))) /\
  ((videoTitle j = None \/ videoTitle j = Some []) ->
   name = FileName.units ("video." ++ FileName.ext (format j))) /\
  FileName.all_chars FileName.is_b64 (FileName.filenameBase64 name) = true /\
  String.length (FileName.filenameBase64 name)
  = (4 * ((List.length (FileName.utf8 name) + 2) / 3))%nat.
Proof.
  cbv zeta. destruct (safeTitle_safe (videoTitle j)) as [Hsafe Hlen].
  assert (Hext : FileName.units ("." ++ FileName.ext (format j))
                 = 46%N :: FileName.units (FileName.ext (format j)))
    by (destruct (format j); reflexivity).
  assert (Hextsafe : Forall (fun c => FileName.is_safe c = true)
                       (FileName.units (FileName.ext (format j))))
    by (destruct (format j); repeat constructor).
  assert (Hname : FileName.filename j
                  = (FileName.safeTitle (videoTitle j)
                     ++ 46%N :: FileName.units (FileName.ext (format j)))%list)
    by (unfold FileName.filename; destruct (format j); reflexivity).
  split; [now rewrite Hext|]. split; [exact Hsafe|]. split.
  { rewrite Hname, length_app. destruct (format j); cbn; lia. }
  split.
  { intros c Hc. rewrite Hname in Hc. apply elem_of_app in Hc as [Hc|Hc].
    - rewrite Forall_forall in Hsafe. specialize (Hsafe c Hc).
      repeat split; intros ->; discriminate.
    - apply elem_of_cons in Hc as [->|Hc]; [repeat split; discriminate|].
      rewrite Forall_forall in Hextsafe. specialize (Hextsafe c Hc).
      repeat split; intros ->; discriminate. }
  split.
  { intros pre post E. rewrite Hname in E.
    assert (Hno : forall l, Forall (fun c => FileName.is_safe c = true) l -> 46%N ∉ l).
    { intros l Hl Hin. rewrite Forall_forall in Hl. now specialize (Hl _ Hin). }
    revert pre E. generalize (Hno _ Hsafe).
    generalize (FileName.safeTitle (videoTitle j)) as t.
    induction t as [|c t IH]; intros Ht pre E.
    - destruct pre as [|d pre]; cbn in E.
      + injection E as <-. now split.
      + injection E as <- E. exfalso. apply (Hno _ Hextsafe). rewrite E.
        apply elem_of_app. right. now left.
    - apply not_elem_of_cons in Ht as [Hc Ht].
      destruct pre as [|d pre]; cbn in E; injection E as E1 E2; [congruence|].
      subst d. destruct (IH Ht pre E2) as [-> ->]. now split. }
  split.
  { intros [Hn|Hn]; unfold FileName.filename, FileName.safeTitle; rewrite Hn;
      destruct (format j); reflexivity. }
  split; [apply base64_text | apply base64_length].
Qed.

End FileNames.

(** ** The list of jobs *)

Section Listing.

#[local] Instance not_older_total : Total not_older.
Proof.
  intros j1 j2. unfold not_older.
  destruct (createdAt j1), (createdAt j2); try tauto. lia.
Qed.

#[local] Instance not_older_trans : Transitive not_older.
Proof.
  intros j1 j2 j3. unfold not_older.
  destruct (createdAt j1), (createdAt j2), (createdAt j3); try tauto. lia.
Qed.

(** X25. [GET /api/jobs] reads and changes nothing. Without a session it
    answers 401. With one it lists the rows of the caller, each row once and
    no row of another user, the newest first (a row is never listed after
    one that was created before it). *)
Theorem listing_shows_own_jobs_newest_first (w : World) (session : option string) :
  (get_jobs session w).2 = w /\
  (nonempty session = None ->
   (get_jobs session w).1 = Ok (inl (Json 401 (BMessage "Unauthorized")))) /\
  (forall user,
     nonempty session = Some user ->
     exists l,
       (get_jobs session w).1 = Ok (inr l) /\
       l ≡ₚ filter (fun j => userId j = user) (map_to_list (jobs w)).*2 /\
       (forall j, j ∈ l <-> exists k, jobs w !! k = Some j /\ userId j = user) /\
       StronglySorted not_older l).
Proof.
  unfold get_jobs. destruct (nonempty session) as [user|].
  - split; [reflexivity|]. split; [discriminate|]. intros ? [= <-].
    eexists. split; [reflexivity|].
    split; [apply merge_sort_Permutation|].
    split; [|apply StronglySorted_merge_sort; apply _].
    intros j. rewrite merge_sort_Permutation, list_elem_of_filter, list_elem_of_fmap.
    split.
    + intros [Hu ([k j'] & -> & Hin)]. apply elem_of_map_to_list in Hin. now exists k.
    + intros (k & Hk & Hu). split; [exact Hu|]. exists (k, j).
      split; [reflexivity | now apply elem_of_map_to_list].
  - split; [reflexivity|]. split; [reflexivity | discriminate].
Qed.

End Listing.

(** ** The test of the connection *)

Section ConnectionTestProperties.

Variable URL_resolve : string -> string -> option string.
Variable fetch : list ConnectionTest.Request -> ConnectionTest.Request -> string + HttpResponse.

Ltac same_answers :=
  repeat match goal with
         | H : inl _ = inr _ |- _ => discriminate H
         | H : None = Some _ |- _ => discriminate H
         | H : inr _ = inr _ |- _ => injection H as H; try subst
         | H : Some _ = Some _ |- _ => injection H as H; try subst
         | H : ?a = Some _, H' : ?a = _ |- _ => rewrite H in H'
         | H : ?a = inr _, H' : ?a = _ |- _ => rewrite H in H'
         | H : ?a = inl _, H' : ?a = _ |- _ => rewrite H in H'
         | H : ?a = None, H' : ?a = _ |- _ => rewrite H in H'
         end.

Ltac failed_test :=
  cbn; split; [right; first [now left | now right]|];
  split;
  [split; [tauto|];
   intros (t & r & u & r' & H1 & H2 & H3 & H4 & H5 & H6); same_answers; (tauto || congruence)
  |split;
   [intros t (r & u & r' & H1 & H2 & H3 & H4 & H5 & H6); same_answers; (tauto || congruence)
   |intros _; lia]].

Ltac passed_test target r1 uploadUrl r2 :=
  cbn; split; [now left|];
  split;
  [split; [intros _; exists target, r1, uploadUrl, r2; repeat split; auto | tauto]
  |split;
   [intros t (r & u & r' & H1 & H2 & H3 & H4 & H5 & H6); same_answers; reflexivity
   |tauto]].

(** X26. The connection test of the settings page. Without a session it
    answers as the middleware does, and without a configured endpoint 400,
    in both cases sending nothing. Otherwise it sends at most three
    requests, in this order: the create request that an upload of a file of
    one mebibyte would send to the same endpoint (same method, address and
    headers), one PATCH with the whole mebibyte of zeros at offset 0 to the
    session, and a DELETE of the session. It reports success exactly when
    the create request was answered 201 with a location that resolves and
    the PATCH 204 or 200, whatever offset the endpoint acknowledged and
    whatever became of the DELETE; every other reply is a failure with
    status 400, or 500 for a location that is no URL, and is sent before
    any DELETE. *)
Theorem connection_test_protocol (session : option string) (st : option UserSettings)
    (now : Z) :
  let run := ConnectionTest.test_synology URL_resolve fetch session st now in
  (nonempty session = None -> run = (ConnectionTest.Unauthorized, [])) /\
  (forall user,
     nonempty session = Some user ->
     nonempty (st ≫= synologyEndpoint) = None ->
     run = (ConnectionTest.Verdict 400 false "TUS server endpoint not configured" None, [])) /\
  (forall user configured,
     nonempty session = Some user ->
     nonempty (st ≫= synologyEndpoint) = Some configured ->
     let endpoint := tusEndpoint configured in
     (exists target,
        run.2 `prefix_of`
          [ConnectionTest.create endpoint now; ConnectionTest.patch target;
           ConnectionTest.cleanup target]) /\
     head run.2 = Some (ConnectionTest.create endpoint now) /\
     ConnectionTest.as_upload (ConnectionTest.create endpoint now)
     = create_request endpoint (1024 * 1024)
         (FileName.units (ConnectionTest.testFileName now)) /\
     (ConnectionTest.is_success run.1 \/ ConnectionTest.is_failure run.1) /\
     (ConnectionTest.is_success run.1
      <-> exists target, ConnectionTest.passes URL_resolve fetch endpoint now target) /\
     (forall target,
        ConnectionTest.passes URL_resolve fetch endpoint now target ->
        run.2 = [ConnectionTest.create endpoint now; ConnectionTest.patch target;
                 ConnectionTest.cleanup target]) /\
     (ConnectionTest.is_failure run.1 -> (List.length run.2 <= 2)%nat)).
Proof.
  cbv zeta. unfold ConnectionTest.test_synology.
  split; [now intros ->|]. split; [now intros user -> ->|].
  intros user configured -> ->. cbv zeta.
  set (endpoint := tusEndpoint configured).
  set (rq1 := ConnectionTest.create endpoint now).
  assert (Hp1 : forall target,
    [rq1] `prefix_of` [rq1; ConnectionTest.patch target; ConnectionTest.cleanup target])
    by (intros target; now eexists [_; _]).
  assert (Hp2 : forall target,
    [rq1; ConnectionTest.patch target]
      `prefix_of` [rq1; ConnectionTest.patch target; ConnectionTest.cleanup target])
    by (intros target; now eexists [_]).
  split; [|split; [|split; [reflexivity|]]].
  - destruct (fetch [] rq1) as [e|r1]; [now exists ""|].
    destruct (negb (rs_status r1 =? 201));
      [destruct (nonempty (headers_get "Tus-Resumable" _)); now exists ""|].
    destruct (nonempty (headers_get "Location" _)) as [uploadUrl|]; [|now exists ""].
    destruct (ConnectionTest.fullUploadUrl _ _ _) as [target|]; [|now exists ""].
    exists target. destruct (fetch [rq1] _) as [e|r2]; [apply Hp2|].
    destruct (_ && _); [apply Hp2 | reflexivity].
  - destruct (fetch [] rq1) as [e|r1]; [reflexivity|].
    destruct (negb (rs_status r1 =? 201));
      [destruct (nonempty (headers_get "Tus-Resumable" _)); reflexivity|].
    destruct (nonempty (headers_get "Location" _)) as [uploadUrl|]; [|reflexivity].
    destruct (ConnectionTest.fullUploadUrl _ _ _) as [target|]; [|reflexivity].
    destruct (fetch [rq1] _) as [e|r2]; [reflexivity|].
    destruct (_ && _); reflexivity.
  - unfold ConnectionTest.passes. fold rq1.
    destruct (fetch [] rq1) as [e|r1] eqn:E1; [failed_test|].
    destruct (Z.eqb_spec (rs_status r1) 201) as [S1|S1]; cbn [negb];
      [|destruct (nonempty (headers_get "Tus-Resumable" _)); failed_test].
    destruct (nonempty (headers_get "Location" (rs_headers r1))) as [uploadUrl|] eqn:L1;
      [|failed_test].
    destruct (ConnectionTest.fullUploadUrl URL_resolve uploadUrl endpoint) as [target|] eqn:U1;
      [|failed_test].
    destruct (fetch [rq1] (ConnectionTest.patch target)) as [e|r2] eqn:E2; [failed_test|].
    destruct (Z.eqb_spec (rs_status r2) 204) as [S2|S2]; cbn [negb andb];
      [passed_test target r1 uploadUrl r2|].
    destruct (Z.eqb_spec (rs_status r2) 200) as [S3|S3]; cbn [negb];
      [passed_test target r1 uploadUrl r2 | failed_test].
Qed.

End ConnectionTestProperties.

(** ** The registry of sockets *)

Section Registry.

Lemma Set_add_elem (ws ws' : Realtime.Socket) (s : list Realtime.Socket) :
  ws ∈ Realtime.Set_add ws' s <-> ws = ws' \/ ws ∈ s.
Proof.
  unfold Realtime.Set_add. case_bool_decide as Hin.
  - split; [now right | now intros [->|]].
  - rewrite elem_of_app, list_elem_of_singleton. tauto.
Qed.

Lemma Set_add_NoDup (ws : Realtime.Socket) (s : list Realtime.Socket) :
  NoDup s -> NoDup (Realtime.Set_add ws s).
Proof.
  intros Hs. unfold Realtime.Set_add. case_bool_decide as Hin; [exact Hs|].
  apply NoDup_app. split; [exact Hs|]. split; [|apply NoDup_singleton].
  intros x Hx Hx'. apply list_elem_of_singleton in Hx'. now subst.
Qed.

Lemma Set_add_nonempty (ws : Realtime.Socket) (s : list Realtime.Socket) :
  Realtime.Set_add ws s <> [].
Proof.
  intros E. assert (H : ws ∈ Realtime.Set_add ws s) by (apply Set_add_elem; now left).
  rewrite E in H. now apply elem_of_nil in H.
Qed.

Lemma sockets_connection (ws ws' : Realtime.Socket) (userId : option string) (u : string)
    (clients : Realtime.Clients) :
  ws ∈ Realtime.sockets (Realtime.connection ws' userId clients) u
  <-> (ws = ws' /\ nonempty userId = Some u) \/ ws ∈ Realtime.sockets clients u.
Proof.
  unfold Realtime.connection, Realtime.sockets.
  destruct (nonempty userId) as [u0|]; [|split; [now right | now intros [[_ ?]|]]].
  cbv zeta. destruct (decide (u = u0)) as [->|Hu].
  - rewrite lookup_alter_eq. case_bool_decide as Hhas; cbn [negb].
    + destruct Hhas as [s0 Hs0]. rewrite Hs0. cbn. rewrite Set_add_elem.
      split; [intros [->|]; [left|right]; auto | intros [[-> _]|]; auto].
    + rewrite lookup_insert_eq. cbn.
      assert (clients !! u0 = None) as -> by (destruct (clients !! u0); [exfalso; eauto | reflexivity]).
      cbn. rewrite Set_add_elem.
      split; [intros [->|]; [left|right]; auto | intros [[-> _]|]; auto].
  - rewrite lookup_alter_ne by congruence.
    assert ((if negb (bool_decide (is_Some (clients !! u0))) then <[u0:=[]]> clients else clients)
            !! u = clients !! u) as ->.
    { destruct (negb _); [now rewrite lookup_insert_ne by congruence | reflexivity]. }
    split; [now right | intros [[_ [= ?]]|]; [congruence | assumption]].
Qed.

Lemma sockets_close (ws ws' : Realtime.Socket) (u u' : string) (clients : Realtime.Clients) :
  ws ∈ Realtime.sockets (Realtime.close ws' u' clients) u
  <-> ws ∈ Realtime.sockets clients u /\ ~ (ws = ws' /\ u = u').
Proof.
  unfold Realtime.close, Realtime.sockets.
  destruct (clients !! u') as [s|] eqn:Hs; cbv zeta.
  - destruct (decide (u = u')) as [->|Hu].
    + rewrite Hs. cbn.
      assert (default [] ((if bool_decide (List.length (Realtime.Set_delete ws' s) = 0%nat)
                then delete u' clients
                else <[u' := Realtime.Set_delete ws' s]> clients) !! u')
              = Realtime.Set_delete ws' s) as ->.
      { case_bool_decide as Hlen.
        - rewrite lookup_delete_eq. cbn. symmetry. now apply nil_length_inv.
        - now rewrite lookup_insert_eq. }
      unfold Realtime.Set_delete. rewrite list_elem_of_filter. tauto.
    + assert ((if bool_decide (List.length (Realtime.Set_delete ws' s) = 0%nat)
                then delete u' clients
                else <[u' := Realtime.Set_delete ws' s]> clients) !! u = clients !! u) as ->.
      { case_bool_decide; [now rewrite lookup_delete_ne by congruence
                          | now rewrite lookup_insert_ne by congruence]. }
      tauto.
  - split; [|tauto]. intros H. split; [exact H|]. intros [_ ->].
    rewrite Hs in H. now apply elem_of_nil in H.
Qed.

Lemma tidy_connection (ws : Realtime.Socket) (userId : option string)
    (clients : Realtime.Clients) :
  Realtime.tidy clients -> Realtime.tidy (Realtime.connection ws userId clients).
Proof.
  intros Ht u s. unfold Realtime.connection.
  destruct (nonempty userId) as [u0|]; [|apply Ht]. cbv zeta.
  destruct (decide (u = u0)) as [->|Hu].
  - rewrite lookup_alter_eq. case_bool_decide as Hhas; cbn [negb].
    + destruct Hhas as [s0 Hs0]. rewrite Hs0. cbn. intros [= <-].
      split; [apply Set_add_nonempty | apply Set_add_NoDup, (Ht u0 s0 Hs0)].
    + rewrite lookup_insert_eq. cbn. intros [= <-].
      split; [apply Set_add_nonempty | apply Set_add_NoDup, NoDup_nil_2].
  - rewrite lookup_alter_ne by congruence.
    destruct (negb _); [rewrite lookup_insert_ne by congruence|]; apply Ht.
Qed.

Lemma tidy_close (ws : Realtime.Socket) (userId : string) (clients : Realtime.Clients) :
  Realtime.tidy clients -> Realtime.tidy (Realtime.close ws userId clients).
Proof.
  intros Ht u s. unfold Realtime.close.
  destruct (clients !! userId) as [s0|] eqn:Hs0; [|apply Ht]. cbv zeta.
  case_bool_decide as Hlen.
  - destruct (decide (u = userId)) as [->|Hu];
      [now rewrite lookup_delete_eq | rewrite lookup_delete_ne by congruence; apply Ht].
  - destruct (decide (u = userId)) as [->|Hu].
    + rewrite lookup_insert_eq. intros [= <-]. split.
      * intros E. now rewrite E in Hlen.
      * apply NoDup_filter, (Ht userId s0 Hs0).
    + rewrite lookup_insert_ne by congruence. apply Ht.
Qed.

Lemma tidy_run (es : list Realtime.WsEvent) :
  forall clients, Realtime.tidy clients -> Realtime.tidy (Realtime.run es clients).
Proof.
  induction es as [|[ws uid|ws u] es IH]; intros clients Ht; [exact Ht| |];
    apply IH; [now apply tidy_connection | now apply tidy_close].
Qed.

Lemma sockets_run (ws : Realtime.Socket) (u : string) (es : list Realtime.WsEvent) :
  ws ∈ Realtime.sockets (Realtime.run es ∅) u <-> Realtime.connected es ws u.
Proof.
  unfold Realtime.connected.
  induction es as [|e es IH] using rev_ind.
  - cbn. unfold Realtime.sockets. rewrite lookup_empty. cbn.
    split; [intros H; now apply elem_of_nil in H | discriminate].
  - unfold Realtime.run in *. rewrite fold_left_app, List.filter_app. cbn [fold_left List.filter].
    destruct e as [ws' uid|ws' u']; cbn [Realtime.step Realtime.concerns].
    + rewrite sockets_connection, IH.
      destruct (decide (ws' = ws)) as [->|Hw]; destruct (decide (nonempty uid = Some u)) as [Hu|Hu];
        rewrite ?(bool_decide_eq_true_2 _ eq_refl), ?(bool_decide_eq_true_2 _ Hu),
          ?(bool_decide_eq_false_2 _ Hw), ?(bool_decide_eq_false_2 _ Hu);
        cbn [andb]; rewrite ?app_nil_r, ?last_snoc; cbn; intuition congruence.
    + rewrite sockets_close, IH.
      destruct (decide (ws' = ws)) as [->|Hw]; destruct (decide (u' = u)) as [->|Hu];
        rewrite ?(bool_decide_eq_true_2 _ eq_refl),
          ?(bool_decide_eq_false_2 _ Hw), ?(bool_decide_eq_false_2 _ Hu);
        cbn [andb]; rewrite ?app_nil_r, ?last_snoc; cbn; intuition congruence.
Qed.

(** X15. The registry of sockets, after any sequence of connections and
    closes from the empty registry: no user is listed with an empty set and
    no socket is listed twice; a socket is listed for a user exactly when
    the last thing that happened to it as a socket of that user is that it
    connected with that user's identifier in its query string; and a
    broadcast to a user goes, once each, to exactly the sockets listed for
    that user that are open, so never to a socket that only connected as
    someone else or that has closed. *)
Theorem registry_follows_history (es : list Realtime.WsEvent)
    (readyState : Realtime.Socket -> Realtime.ReadyState)
    (ws : Realtime.Socket) (userId : string) :
  let clients := Realtime.run es ∅ in
  Realtime.tidy clients /\
  (ws ∈ Realtime.sockets clients userId <-> Realtime.connected es ws userId) /\
  (ws ∈ Realtime.broadcastToUser readyState userId clients
   <-> readyState ws = Realtime.OPEN /\ Realtime.connected es ws userId) /\
  NoDup (Realtime.broadcastToUser readyState userId clients).
Proof.
  cbv zeta.
  assert (Ht : Realtime.tidy (Realtime.run es ∅)).
  { apply tidy_run. intros u s H. now rewrite lookup_empty in H. }
  split; [exact Ht|]. split; [apply sockets_run|].
  rewrite <- sockets_run. unfold Realtime.broadcastToUser, Realtime.sockets.
  destruct (Realtime.run es ∅ !! userId) as [s|] eqn:Hs; cbn.
  - split; [now rewrite list_elem_of_filter | apply NoDup_filter, (Ht userId s Hs)].
  - split; [|apply NoDup_nil_2]. rewrite elem_of_nil. tauto.
Qed.

End Registry.

(** ** The client *)

Section ClientView.

Variable env : Env.

Lemma onmessage_lookup (info : Client.ProgressInfo) (m : WsMessage) (k : string) :
  Client.onmessage info m !! k
  = if Client.about k m then Client.left_by m else info !! k.
Proof.
  destruct m as [job speed eta|j]; cbn [Client.onmessage Client.about Client.left_by].
  - destruct (nonempty (id <$> job)) as [jid|] eqn:Hj.
    + case_bool_decide as Hk.
      * injection Hk as ->. destruct (_ || _);
          [now rewrite lookup_insert_eq | now rewrite lookup_delete_eq].
      * assert (jid <> k) by congruence. destruct (_ || _);
          [now rewrite lookup_insert_ne | now rewrite lookup_delete_ne].
    + now rewrite bool_decide_eq_false_2 by discriminate.
  - destruct (nonempty (Some j)) as [jid|] eqn:Hj.
    + case_bool_decide as Hk.
      * injection Hk as ->. now rewrite lookup_delete_eq.
      * assert (jid <> k) by congruence. now rewrite lookup_delete_ne.
    + now rewrite bool_decide_eq_false_2 by discriminate.
Qed.

Lemma receive_lookup (ms : list WsMessage) (info : Client.ProgressInfo) (k : string) :
  Client.receive ms info !! k
  = match last (List.filter (Client.about k) ms) with
    | Some m => Client.left_by m
    | None => info !! k
    end.
Proof.
  induction ms as [|m ms IH] using rev_ind; [reflexivity|].
  unfold Client.receive in *. rewrite fold_left_app, List.filter_app. cbn [fold_left List.filter].
  rewrite onmessage_lookup, IH.
  destruct (Client.about k m); [now rewrite last_snoc | now rewrite app_nil_r].
Qed.

Lemma messages_to_cons (user : string) (m : WsMessage) (t : list Event) :
  Client.messages_to user (EvBroadcast user m :: t) = (Client.messages_to user t ++ [m])%list.
Proof.
  unfold Client.messages_to. cbn [omap list_omap]. now rewrite String.eqb_refl.
Qed.

(** A last message about the job that has neither speed nor time left
    clears the entry of the job. *)
Lemma quiet_end_clears (user jobId : string) (m : WsMessage) (t : list Event)
    (info : Client.ProgressInfo) :
  Client.about jobId m = true -> Client.left_by m = None ->
  Client.receive (Client.messages_to user (EvBroadcast user m :: t)) info !! jobId = None.
Proof.
  intros Ha Hl. rewrite messages_to_cons, receive_lookup, List.filter_app.
  cbn [List.filter]. now rewrite Ha, last_snoc.
Qed.

(** X16. [jobProgressInfo] of the client after any sequence of messages: the
    entry of a job is what the last message about that job left, the speed
    and the time left of an update that carries one of them, nothing after
    an update that carries neither or after a deletion; and it is the entry
    from before when no message was about the job. So for a client that has
    received every message sent to the user, the entry of the job is gone
    once the owner has cancelled or deleted the job, and once
    [processDownload] has ended on a failed download. *)
Theorem progress_info_follows_last_message (ms : list WsMessage) (info : Client.ProgressInfo)
    (w : World) (user jobId : string) (j : DownloadJob) (fuel : nat) (t : Task) :
  (Client.receive ms info !! jobId
   = match last (List.filter (Client.about jobId) ms) with
     | Some m => Client.left_by m
     | None => info !! jobId
     end) /\
  (user <> "" -> jobId <> "" -> jobs w !! jobId = Some j -> userId j = user -> id j = jobId ->
   Client.receive (Client.messages_to user (trace (post_cancel (Some user) jobId w).2)) info
     !! jobId = None /\
   Client.receive (Client.messages_to user (trace (delete_job env (Some user) jobId w).2)) info
     !! jobId = None) /\
  (forall e,
     t_jobId t <> "" -> jobs w !! t_jobId t = Some j -> id j = t_jobId t ->
     dl_result (download_of env t w) = inl e ->
     Client.receive (Client.messages_to (t_userId t) (trace (processDownload env fuel t w).2)) info
       !! t_jobId t = None).
Proof.
  split; [apply receive_lookup|]. split.
  - intros Hu Hn Hj Ho Hid. split.
    + unfold post_cancel. rewrite requireAuth_pass by assumption.
      cbv [try_catch bind getDownloadJob get]. rewrite Hj, (owned_Some _ _ Ho).
      cbv [updateDownloadJob bind modify getDownloadJob get broadcastToUser ret].
      cbn [fst snd jobs files set_files set_jobs emit trace clock settings drawn].
      rewrite lookup_alter_eq, Hj. cbn [fmap option_fmap option_map].
      apply quiet_end_clears; [|reflexivity].
      cbn. rewrite Hid. destruct jobId; [congruence|]. now apply bool_decide_eq_true_2.
    + unfold delete_job. rewrite requireAuth_pass by assumption.
      cbv [try_catch bind getDownloadJob get]. rewrite Hj, (owned_Some _ _ Ho).
      cbv [modify deleteDownloadJob broadcastToUser ret].
      cbn [fst snd jobs files set_files set_jobs emit trace clock settings drawn].
      apply quiet_end_clears; [|reflexivity].
      cbn. destruct jobId; [congruence|]. now apply bool_decide_eq_true_2.
  - intros e Hn Hj Hid He.
    destruct (download_settles env t w j Hj) as (w3 & j3 & E & Hj3 & Id & S3 & F3 & N3).
    rewrite He in E.
    unfold processDownload, try_catch.
    change (bind (download_started env t)
              (fun _ => bind (await_downloadVideo env t) (fun result => download_resolved env fuel t result)) w)
      with (bind (bind (download_started env t) (fun _ => await_downloadVideo env t))
              (fun result => download_resolved env fuel t result) w).
    unfold bind at 1. rewrite E.
    cbv [download_failed bind updateDownloadJob modify getDownloadJob get broadcastToUser].
    cbn [fst snd jobs files set_files set_jobs emit trace clock settings drawn].
    rewrite lookup_alter_eq, Hj3. cbn [fmap option_fmap option_map].
    apply quiet_end_clears; [|reflexivity].
    cbn. destruct Id as (Hi & _). rewrite Hi, Hid.
    destruct (t_jobId t); [congruence|]. now apply bool_decide_eq_true_2.
Qed.

(** X17. The actions that [JobCard] offers. Every job offers exactly one of
    cancel and delete; retry only with delete and never with the download;
    the manual upload only with the download, only when an endpoint is
    configured and the automatic upload is off. Against the server, for the
    owner of the job and the settings as stored: where the card offers the
    download, the download route refuses only for a missing file; where it
    offers the manual upload, the upload route does not refuse for the
    status, the uploaded flag or the configuration, only for a missing
    file. *)
Theorem card_offers_what_the_server_accepts (w : World) (user jobId : string)
    (j : DownloadJob) (fuel : nat) :
  let st := settings w !! user in
  Client.canCancel j = negb (Client.canDelete j) /\
  (Client.canRetry j = true -> Client.canDelete j = true /\ Client.canDownload j = false) /\
  (Client.canSendToNas st j = true ->
   Client.canDownload j = true /\ Client.nasConfigured st = true /\
   Client.autoUploadEnabled st = false) /\
  (user <> "" -> jobs w !! jobId = Some j -> userId j = user ->
   (Client.canDownload j = true ->
    forall c m,
      (get_download env (Some user) jobId w).1 = Ok (Json c (BMessage m)) ->
      m = "File not found on server") /\
   (Client.canSendToNas st j = true ->
    forall c m,
      (post_upload_to_nas env fuel (Some user) jobId w).1 = Ok (Json c (BMessage m)) ->
      m = "Downloaded file not found on server")).
Proof.
  cbv zeta. split; [|split; [|split]].
  - unfold Client.canCancel, Client.isActive, Client.canDelete.
    destruct (status j); reflexivity.
  - unfold Client.canRetry, Client.canDelete, Client.canDownload.
    destruct (status j); cbn; intros H; try discriminate; now split.
  - unfold Client.canSendToNas, Client.canDownload. intros H.
    repeat (apply andb_true_iff in H as [H ?]).
    split; [exact H|]. split; [assumption|]. now apply negb_true_iff.
  - intros Hu Hj Ho. split.
    + unfold Client.canDownload. intros Hc c m.
      unfold get_download. rewrite requireAuth_pass by assumption.
      cbv [try_catch bind getDownloadJob get ret]. rewrite Hj, (owned_Some _ _ Ho), Hc.
      cbn [negb]. destruct (existing _ _); cbn; [discriminate | congruence].
    + unfold Client.canSendToNas, Client.nasConfigured, Client.truthy. intros H c m.
      repeat (apply andb_true_iff in H as [H ?]).
      apply bool_decide_eq_true_1 in H.
      match goal with Hn : negb (bool_decide (uploadedToNas j = Some 1)) = true |- _ =>
        apply negb_true_iff in Hn; rename Hn into Hfresh end.
      destruct (nonempty (settings w !! user ≫= synologyEndpoint)) as [configured|] eqn:Hcf;
        [|discriminate].
      unfold post_upload_to_nas. rewrite requireAuth_pass by assumption.
      cbv [try_catch bind getDownloadJob getUserSettings get ret].
      rewrite Hj, (owned_Some _ _ Ho), H.
      rewrite bool_decide_eq_true_2 by reflexivity. cbn [negb].
      rewrite Hfresh, Hcf.
      destruct (existing _ _) as [path|]; [|cbn; congruence].
      cbv [settle_fetch]. destruct (fetch env _ _) as [e|r]; [discriminate|].
      destruct (negb (rs_status r =? 201)); [discriminate|].
      destruct (nonempty (headers_get "Location" (rs_headers r))); [|discriminate].
      destruct (fullUploadUrl env _ _ _) as [[url|e|] w1]; [|discriminate|discriminate].
      cbv [updateDownloadJob bind modify getDownloadJob get broadcastToUser ret].
      destruct (upload_background env _ _ _ _ _ _ _) as [[[]|e|] w2]; discriminate.
Qed.

End ClientView.

(** ** The store of sessions *)

Section Sessions.

Context {Session : Type}.
Variable maxAge : Session -> option Z.
Variable JSON_stringify : Session -> string.
Variable JSON_parse : string -> string + Session.
Variable toISOString : Z -> string + string.

Lemma before_lt (a b : string) :
  SessionStore.before a b = true <-> OrderedTypeEx.String_as_OT.lt a b.
Proof.
  unfold SessionStore.before, String.ltb.
  rewrite <- OrderedTypeEx.String_as_OT.cmp_lt. unfold OrderedTypeEx.String_as_OT.cmp.
  destruct (String.compare a b); split; congruence.
Qed.

Lemma before_trans (a b c : string) :
  SessionStore.before a b = true -> SessionStore.before b c = true ->
  SessionStore.before a c = true.
Proof.
  rewrite !before_lt. apply OrderedTypeEx.String_as_OT.lt_trans.
Qed.

Lemma before_irrefl (a : string) : SessionStore.before a a = false.
Proof.
  destruct (SessionStore.before a a) eqn:E; [|reflexivity].
  apply before_lt in E. now destruct (OrderedTypeEx.String_as_OT.lt_not_eq _ _ E).
Qed.

(** X18. [set] and [get]: a session stored under [sid] at the instant [now]
    expires at [now] plus its [cookie.maxAge], or plus seven days when that
    is missing or 0; until the text of that instant is reached, [get] of
    [sid] hands over what [JSON.parse] makes of the [JSON.stringify] of the
    session, and from then on nothing; the sessions under other identifiers
    are read as before, and of two [set] for the same [sid] the later one
    wins. When the date of the expiry is out of range the error goes to the
    callback and the table is unchanged. *)
Theorem stored_session_is_read_back (sid : string) (session : Session) (now : Z)
    (t : SessionStore.Table) :
  let stored := SessionStore.set maxAge JSON_stringify toISOString sid session now t in
  let lifetime := match maxAge session with
                  | Some m => if m =? 0 then 604800000 else m
                  | None => 604800000
                  end in
  (forall error, toISOString (now + lifetime) = inl error -> stored = (Some error, t)) /\
  (forall e,
     toISOString (now + lifetime) = inr e ->
     stored.1 = None /\
     (forall n,
        SessionStore.get JSON_parse sid n stored.2
        = if SessionStore.before n e
          then match JSON_parse (JSON_stringify session) with
               | inl error => inl error
               | inr session' => inr (Some session')
               end
          else inr None) /\
     (forall sid' n,
        sid' <> sid ->
        SessionStore.get JSON_parse sid' n stored.2 = SessionStore.get JSON_parse sid' n t) /\
     (forall session0 now0,
        (SessionStore.set maxAge JSON_stringify toISOString sid session now
           (SessionStore.set maxAge JSON_stringify toISOString sid session0 now0 t).2).2
        = stored.2)).
Proof.
  cbv zeta. unfold SessionStore.set, SessionStore.ttl.
  change SessionStore.week with 604800000. split.
  - intros error ->. reflexivity.
  - intros e ->. cbn [fst snd]. split; [reflexivity|]. split; [|split].
    + intros n. unfold SessionStore.get. now rewrite lookup_insert_eq.
    + intros sid' n Hne. unfold SessionStore.get. now rewrite lookup_insert_ne by congruence.
    + intros session0 now0.
      destruct (toISOString (now0 + _)); cbn [snd]; [reflexivity | apply insert_insert_eq].
Qed.

(** X19. The cleanup of expired sessions hides nothing: it deletes exactly
    the rows whose expiry is before the present, and for every identifier
    [get] at the present or at any later text of time hands over the same
    before and after the cleanup, as [length] counts the same. A row that
    expires at the very text of the present is kept by the cleanup and
    handed over by no [get] from then on. *)
Theorem cleanup_hides_no_session (now later sid : string) (t : SessionStore.Table) :
  SessionStore.before later now = false ->
  let cleaned := SessionStore.clearExpiredSessions now t in
  (forall row,
     cleaned !! sid = Some row
     <-> t !! sid = Some row /\ SessionStore.before (SessionStore.expire row) now = false) /\
  SessionStore.get JSON_parse sid later cleaned = SessionStore.get JSON_parse sid later t /\
  SessionStore.length later cleaned = SessionStore.length later t /\
  (forall row,
     t !! sid = Some row -> SessionStore.expire row = now ->
     cleaned !! sid = Some row /\ SessionStore.get JSON_parse sid later cleaned = inr None).
Proof.
  intros Hlater. cbv zeta.
  assert (Hrow : forall k row,
    SessionStore.clearExpiredSessions now t !! k = Some row
    <-> t !! k = Some row /\ SessionStore.before (SessionStore.expire row) now = false).
  { intros k row. unfold SessionStore.clearExpiredSessions. now rewrite map_lookup_filter_Some. }
  assert (Hvis : forall row,
    SessionStore.before later (SessionStore.expire row) = true ->
    SessionStore.before (SessionStore.expire row) now = false).
  { intros row Hv. destruct (SessionStore.before (SessionStore.expire row) now) eqn:E;
      [|reflexivity].
    now rewrite (before_trans _ _ _ Hv E) in Hlater. }
  assert (Hget : forall k,
    SessionStore.get JSON_parse k later (SessionStore.clearExpiredSessions now t)
    = SessionStore.get JSON_parse k later t).
  { intros k. unfold SessionStore.get.
    destruct (t !! k) as [row|] eqn:Hk.
    - destruct (SessionStore.before later (SessionStore.expire row)) eqn:Hv.
      + rewrite (proj2 (Hrow k row) (conj Hk (Hvis row Hv))). now rewrite Hv.
      + destruct (SessionStore.clearExpiredSessions now t !! k) as [row'|] eqn:Hk';
          [|reflexivity].
        apply Hrow in Hk' as [Hk' _]. rewrite Hk in Hk'. injection Hk' as <-. now rewrite Hv.
    - destruct (SessionStore.clearExpiredSessions now t !! k) as [row'|] eqn:Hk'; [|reflexivity].
      apply Hrow in Hk' as [Hk' _]. congruence. }
  split; [apply Hrow|]. split; [apply Hget|]. split.
  - unfold SessionStore.length. f_equal. apply map_eq. intros k.
    apply option_eq. intros row. rewrite !map_lookup_filter_Some, Hrow. cbn.
    split; [tauto|]. intros [Hk Hv]. split; [split; [exact Hk | now apply Hvis]|exact Hv].
  - intros row Hk He. split; [apply Hrow; split; [exact Hk | rewrite He; apply before_irrefl]|].
    rewrite Hget. unfold SessionStore.get. rewrite Hk, He.
    now rewrite Hlater.
Qed.

(** X20. [destroy], [touch] and [clear]. After [destroy] the session is
    handed over by no [get] and the others are read as before. [touch]
    creates no row and keeps the text of every session; for a row that is
    there it sets the expiry to the present plus the lifetime of the session
    given, whatever the expiry was, so that [get] hands the stored session
    over again until then, also for a row that had expired and not been
    cleaned up. After [clear] nothing is handed over. *)
Theorem destroy_touch_and_clear (sid : string) (session : Session) (now : Z)
    (t : SessionStore.Table) :
  let destroyed := (SessionStore.destroy sid t).2 in
  let touched := (SessionStore.touch maxAge toISOString sid session now t).2 in
  (forall n, SessionStore.get JSON_parse sid n destroyed = inr None) /\
  (forall sid' n,
     sid' <> sid ->
     SessionStore.get JSON_parse sid' n destroyed = SessionStore.get JSON_parse sid' n t) /\
  dom touched = dom t /\
  (forall k, SessionStore.sess <$> touched !! k = SessionStore.sess <$> t !! k) /\
  (forall k, k <> sid -> touched !! k = t !! k) /\
  (forall e row n,
     toISOString (now + SessionStore.ttl maxAge session) = inr e ->
     t !! sid = Some row ->
     SessionStore.expire <$> touched !! sid = Some e /\
     SessionStore.get JSON_parse sid n touched
     = SessionStore.read JSON_parse n (SessionStore.mkRow (SessionStore.sess row) e)) /\
  (forall k n, SessionStore.get JSON_parse k n (SessionStore.clear t).2 = inr None).
Proof.
  cbv zeta. unfold SessionStore.destroy, SessionStore.touch, SessionStore.clear. cbn [snd].
  split; [intros n; unfold SessionStore.get; now rewrite lookup_delete_eq|].
  split; [intros sid' n Hne; unfold SessionStore.get; now rewrite lookup_delete_ne by congruence|].
  split; [destruct (toISOString _); [reflexivity | apply dom_alter_L]|].
  split.
  { intros k. destruct (toISOString _); [reflexivity|]. cbn [snd].
    destruct (decide (k = sid)) as [->|Hk];
      [rewrite lookup_alter_eq; now destruct (t !! sid) | now rewrite lookup_alter_ne by congruence]. }
  split.
  { intros k Hk. destruct (toISOString _); [reflexivity|]. cbn [snd].
    now rewrite lookup_alter_ne by congruence. }
  split.
  { intros e row n -> Hrow. cbn [snd]. unfold SessionStore.get, SessionStore.read.
    rewrite lookup_alter_eq, Hrow. cbn. split; reflexivity. }
  intros k n. unfold SessionStore.get. now rewrite lookup_empty.
Qed.

End Sessions.

(** ** Accounts and sessions of the routes *)

Section Accounts.

Variable randomUUID : nat -> string.
Variable bcrypt_hash : ustring -> nat -> string.
Variable bcrypt_compare : ustring -> string -> bool.

Lemma getUser_None (userId : string) (a : Auth.Accounts) :
  Auth.getUser userId a = None <-> userId ∉ Auth.id <$> Auth.users a.
Proof.
  unfold Auth.getUser. induction (Auth.users a) as [|u l IH]; cbn.
  - split; [intros _ H; now apply elem_of_nil in H | reflexivity].
  - rewrite not_elem_of_cons. destruct (String.eqb_spec (Auth.id u) userId) as [E|E].
    + split; [discriminate | intros [H _]; congruence].
    + rewrite IH. split; [intros H; split; [congruence | exact H] | tauto].
Qed.

Lemma getUserByUsername_None (name : ustring) (a : Auth.Accounts) :
  Auth.getUserByUsername name a = None <-> name ∉ omap Auth.username (Auth.users a).
Proof.
  unfold Auth.getUserByUsername. induction (Auth.users a) as [|u l IH]; cbn.
  - split; [intros _ H; now apply elem_of_nil in H | reflexivity].
  - case_bool_decide as E.
    + rewrite E. cbn. rewrite not_elem_of_cons. split; [discriminate | intros [H _]; congruence].
    + rewrite IH. destruct (Auth.username u) as [n|]; cbn; [|reflexivity].
      rewrite not_elem_of_cons. split; [intros H; split; [congruence | exact H] | tauto].
Qed.

Lemma getUserByUsername_Some (name : ustring) (a : Auth.Accounts) (user : Auth.User) :
  Auth.getUserByUsername name a = Some user ->
  user ∈ Auth.users a /\ Auth.username user = Some name.
Proof.
  intros H. apply List.find_some in H as [Hin Hn].
  split; [now apply list_elem_of_In | now apply bool_decide_eq_true_1 in Hn].
Qed.

Lemma getUser_last (userId : string) (l : list Auth.User) (row : Auth.User) (c : Z) (d : nat) :
  userId ∉ Auth.id <$> l -> Auth.id row = userId ->
  Auth.getUser userId (Auth.mkAccounts (l ++ [row]) c d) = Some row.
Proof.
  intros Hn Hid. unfold Auth.getUser. cbn [Auth.users].
  induction l as [|u l IH]; cbn.
  - now rewrite Hid, String.eqb_refl.
  - cbn in Hn. apply not_elem_of_cons in Hn as [Hu Hl].
    destruct (String.eqb_spec (Auth.id u) userId) as [E|E]; [congruence | now apply IH].
Qed.

Lemma getUserByUsername_last (name : ustring) (l : list Auth.User) (row : Auth.User)
    (c : Z) (d : nat) :
  name ∉ omap Auth.username l -> Auth.username row = Some name ->
  Auth.getUserByUsername name (Auth.mkAccounts (l ++ [row]) c d) = Some row.
Proof.
  intros Hn Hrow. unfold Auth.getUserByUsername. cbn [Auth.users].
  induction l as [|u l IH]; cbn.
  - now rewrite bool_decide_eq_true_2.
  - case_bool_decide as E.
    + exfalso. apply Hn. cbn. rewrite E. cbn. now left.
    + apply IH. intros H. apply Hn. cbn. destruct (Auth.username u); cbn; [now right | exact H].
Qed.

Lemma schemas_agree (b : Auth.Credentials) (v : Auth.Registration) :
  Auth.registerSchema b = Some v ->
  forall first last,
    Auth.loginSchema
      (Auth.mkCredentials (Some (Auth.r_username v)) (Some (Auth.r_password v)) first last)
    = Some (Auth.r_username v, Auth.r_password v) /\
    (3 <= List.length (Auth.r_username v))%nat /\ (6 <= List.length (Auth.r_password v))%nat.
Proof.
  unfold Auth.registerSchema, Auth.loginSchema. intros H first last.
  destruct (Auth.c_username b) as [u|]; [|discriminate].
  destruct (Auth.c_password b) as [p|]; [|discriminate].
  destruct (_ && _) eqn:E; [|discriminate]. injection H as <-. cbn. rewrite E.
  apply andb_true_iff in E as [E1 E2]. apply Z.leb_le in E1, E2.
  split; [reflexivity | lia].
Qed.

(** X21. Registration and the login that follows. For a registration that
    passes the schema (a user name of at least 3 and a password of at least 6
    code units), with a user name that is not taken and a fresh identifier:
    the reply is 200, the session is that of the new user, the table has
    exactly one row more, with the hash of the password, the defaults [en]
    and [light], and [isAdmin] 0. Provided [bcrypt.compare] accepts the
    password against the hash [bcrypt.hash] made of it, a login with the same
    user name and password then succeeds from any session, as that user, and
    leaves the table alone. *)
Theorem registration_then_login (session : option string) (b : Auth.Credentials)
    (v : Auth.Registration) (a : Auth.Accounts) :
  Auth.registerSchema b = Some v ->
  Auth.getUserByUsername (Auth.r_username v) a = None ->
  Auth.getUser (randomUUID (S (Auth.drawn a))) a = None ->
  let hash := bcrypt_hash (Auth.r_password v) (Auth.drawn a) in
  hash <> "" ->
  bcrypt_compare (Auth.r_password v) hash = true ->
  exists user a',
    Auth.post_register randomUUID bcrypt_hash session b a
    = (Auth.Json 200 (Auth.AAccount (Auth.id user) (Some (Auth.r_username v))
                        (Auth.nonblank (Auth.r_firstName v)) (Auth.nonblank (Auth.r_lastName v))
                        (Some 0) None),
       Some (Auth.id user), a') /\
    Auth.users a' = (Auth.users a ++ [user])%list /\
    Auth.id user = randomUUID (S (Auth.drawn a)) /\
    Auth.username user = Some (Auth.r_username v) /\
    Auth.passwordHash user = Some hash /\
    Auth.isAdmin user = Some 0 /\
    Auth.language user = Some "en" /\ Auth.theme user = Some "light" /\
    forall session' first last,
      Auth.post_login bcrypt_compare session'
        (Auth.mkCredentials (Some (Auth.r_username v)) (Some (Auth.r_password v)) first last) a'
      = (Auth.Json 200 (Auth.AAccount (Auth.id user) (Some (Auth.r_username v))
                          (Auth.nonblank (Auth.r_firstName v)) (Auth.nonblank (Auth.r_lastName v))
                          (Some 0) (Some (Some "en", Some "light"))),
         Some (Auth.id user), a').
Proof.
  intros Hv Hname Hid hash Hne Hcmp.
  unfold Auth.post_register. rewrite Hv, Hname.
  unfold Auth.createLocalUser. cbn [Auth.drawn Auth.draw Auth.users Auth.clock].
  change (Auth.getUser ?u (Auth.draw a)) with (Auth.getUser u a).
  change (Auth.getUserByUsername ?u (Auth.draw a)) with (Auth.getUserByUsername u a).
  rewrite Hid, Hname.
  rewrite !bool_decide_eq_false_2 by (intros [? ?]; discriminate).
  apply getUser_None in Hid. apply getUserByUsername_None in Hname.
  erewrite getUser_last; [|exact Hid|reflexivity].
  eexists _, _. split; [reflexivity|]. cbn.
  repeat (split; [reflexivity|]).
  intros session' first last. unfold Auth.post_login.
  rewrite (proj1 (schemas_agree b v Hv first last)).
  erewrite getUserByUsername_last; [|exact Hname|reflexivity]. cbn [Auth.passwordHash].
  unfold hash in *. rewrite (nonempty_Some _ Hne), Hcmp. reflexivity.
Qed.

Lemma post_login_reads (session : option string) (b : Auth.Credentials) (a : Auth.Accounts) :
  (Auth.post_login bcrypt_compare session b a).2 = a.
Proof.
  unfold Auth.post_login. destruct (Auth.loginSchema b) as [[name password]|]; [|reflexivity].
  destruct (Auth.getUserByUsername name a) as [user|]; [|reflexivity].
  destruct (nonempty (Auth.passwordHash user)) as [hash|]; [|reflexivity].
  now destruct (negb (bcrypt_compare password hash)).
Qed.

(** X22. A login opens a session only with the password: whatever the body
    and the table, the table is unchanged; the reply is 200 only when the
    body names a user that is in the table with a password hash that
    [bcrypt.compare] accepts for the password given, and the session is then
    that user's; in every other case the session is left as it was, and the
    reply is either 400 for a body that does not pass the schema or the one
    and the same 401 [Invalid username or password], be the user unknown, be
    the account without a password, or be the password wrong. *)
Theorem login_needs_the_password (session : option string) (b : Auth.Credentials)
    (a : Auth.Accounts) :
  let r := Auth.post_login bcrypt_compare session b a in
  r.2 = a /\
  (Auth.code r.1.1 = 200 ->
   exists name password user hash,
     Auth.c_username b = Some name /\ Auth.c_password b = Some password /\
     Auth.account a name user hash /\ bcrypt_compare password hash = true /\
     r.1.2 = Some (Auth.id user)) /\
  (Auth.code r.1.1 <> 200 ->
   r.1.2 = session /\
   (r.1.1 = Auth.Json 400 (Auth.AInvalid "Invalid login data") \/
    r.1.1 = Auth.Json 401 (Auth.AMessage "Invalid username or password"))).
Proof.
  cbv zeta. unfold Auth.post_login, Auth.loginSchema.
  destruct (Auth.c_username b) as [name|];
    [|cbn; split; [reflexivity|]; split; [discriminate | intros _; split; [reflexivity | now left]]].
  destruct (Auth.c_password b) as [password|];
    [|cbn; split; [reflexivity|]; split; [discriminate | intros _; split; [reflexivity | now left]]].
  destruct (_ && _);
    [|cbn; split; [reflexivity|]; split; [discriminate | intros _; split; [reflexivity | now left]]].
  destruct (Auth.getUserByUsername name a) as [user|] eqn:Hu;
    [|cbn; split; [reflexivity|]; split; [discriminate | intros _; split; [reflexivity | now right]]].
  destruct (nonempty (Auth.passwordHash user)) as [hash|] eqn:Hh;
    [|cbn; split; [reflexivity|]; split; [discriminate | intros _; split; [reflexivity | now right]]].
  destruct (bcrypt_compare password hash) eqn:Hc; cbn [negb];
    [|cbn; split; [reflexivity|]; split; [discriminate | intros _; split; [reflexivity | now right]]].
  cbn. split; [reflexivity|]. split; [|congruence]. intros _.
  exists name, password, user, hash. apply getUserByUsername_Some in Hu as [Hin Hn].
  split; [reflexivity|]. split; [reflexivity|]. split; [|split; [exact Hc | reflexivity]].
  unfold Auth.account. unfold nonempty in Hh.
  destruct (Auth.passwordHash user) as [[|c h]|]; try discriminate.
  injection Hh as <-. split; [exact Hin|]. split; [exact Hn|]. split; [reflexivity | discriminate].
Qed.

Ltac no_new_row :=
  exists []; cbn; rewrite app_nil_r; split; [reflexivity|]; split; [lia|];
  split; intros ? Hu; now apply elem_of_nil in Hu.

Lemma omap_username_map (f : Auth.User -> Auth.User) (l : list Auth.User) :
  (forall u, Auth.username (f u) = Auth.username u) ->
  omap Auth.username (map f l) = omap Auth.username l.
Proof. intros H. induction l as [|u l IH]; cbn; [reflexivity | now rewrite H, IH]. Qed.

(** The identity and the credentials of an account. *)
Lemma credentials_map (f : Auth.User -> Auth.User) (l : list Auth.User) :
  (forall u, Auth.credentials (f u) = Auth.credentials u) ->
  Auth.credentials <$> map f l = Auth.credentials <$> l.
Proof. intros H. induction l as [|u l IH]; cbn; [reflexivity | now rewrite H, IH]. Qed.

(** X23. The table of users under the routes: whatever the session and the
    body, registration, login, logout and the change of preferences keep
    the identifiers and the user names without repetition; registration
    changes no row and adds at most one, which is no administrator; login
    and logout change nothing; the change of preferences adds and removes
    no row and leaves the identifier, the user name, the password hash and
    the administrator flag of every row as they were. *)
Theorem accounts_stay_unique (session : option string) (b : Auth.Credentials)
    (lang thm storeError : option string) (a : Auth.Accounts) :
  let registered := (Auth.post_register randomUUID bcrypt_hash session b a).2 in
  let changed := (Auth.put_preferences session lang thm a).2 in
  (exists new,
     Auth.users registered = (Auth.users a ++ new)%list /\ (List.length new <= 1)%nat /\
     forall u, u ∈ new -> Auth.isAdmin u = Some 0) /\
  (Auth.post_login bcrypt_compare session b a).2 = a /\
  (Auth.post_logout storeError session a).2 = a /\
  Auth.credentials <$> Auth.users changed = Auth.credentials <$> Auth.users a /\
  (Auth.unique a -> Auth.unique registered /\ Auth.unique changed).
Proof.
  cbv zeta.
  assert (Hreg : exists new,
    Auth.users (Auth.post_register randomUUID bcrypt_hash session b a).2
    = (Auth.users a ++ new)%list /\ (List.length new <= 1)%nat /\
    (forall u, u ∈ new -> Auth.isAdmin u = Some 0) /\
    (forall u, u ∈ new ->
       (Auth.id u ∉ Auth.id <$> Auth.users a) /\
       forall n, Auth.username u = Some n -> n ∉ omap Auth.username (Auth.users a))).
  { unfold Auth.post_register.
    destruct (Auth.registerSchema b) as [v|];
      [|no_new_row].
    destruct (Auth.getUserByUsername (Auth.r_username v) a) eqn:Hname;
      [no_new_row|].
    unfold Auth.createLocalUser. cbn [Auth.drawn Auth.draw Auth.users Auth.clock].
    change (Auth.getUser ?u (Auth.draw a)) with (Auth.getUser u a).
    change (Auth.getUserByUsername ?u (Auth.draw a)) with (Auth.getUserByUsername u a).
    rewrite Hname.
    destruct (Auth.getUser (randomUUID (S (Auth.drawn a))) a) eqn:Hid.
    - rewrite bool_decide_eq_true_2 by eauto.
      no_new_row.
    - rewrite !bool_decide_eq_false_2 by (intros [? ?]; discriminate).
      apply getUser_None in Hid. apply getUserByUsername_None in Hname.
      erewrite getUser_last; [|exact Hid|reflexivity].
      eexists [_]. cbn. split; [reflexivity|]. split; [lia|].
      split; intros u Hu; apply list_elem_of_singleton in Hu; subst u; cbn;
        [reflexivity|]. split; [exact Hid | intros n [= <-]; exact Hname]. }
  assert (Hpref :
    Auth.credentials <$> Auth.users (Auth.put_preferences session lang thm a).2
    = Auth.credentials <$> Auth.users a).
  { unfold Auth.put_preferences. destruct (nonempty session); [|reflexivity].
    destruct (Auth.updatePreferencesSchema lang thm) as [[l t]|]; [|reflexivity].
    cbn. apply credentials_map. intros u. now destruct (String.eqb _ _). }
  split; [destruct Hreg as (new & H1 & H2 & H3 & _); now exists new|].
  split; [apply post_login_reads|].
  split; [unfold Auth.post_logout; now destruct storeError|].
  split; [exact Hpref|].
  intros [Hids Hnames]. split.
  - destruct Hreg as (new & H1 & H2 & _ & H4). unfold Auth.unique. rewrite H1.
    destruct new as [|u [|u' new]]; [now rewrite app_nil_r | | cbn in H2; lia].
    destruct (H4 u ltac:(now left)) as [Hi Hn].
    rewrite fmap_app, omap_app. cbn. split.
    + apply NoDup_app. split; [exact Hids|]. split; [|apply NoDup_singleton].
      intros x Hx Hx'. apply list_elem_of_singleton in Hx'. now subst.
    + destruct (Auth.username u) as [n|] eqn:En; cbn; [|now rewrite app_nil_r].
      apply NoDup_app. split; [exact Hnames|]. split; [|apply NoDup_singleton].
      intros x Hx Hx'. apply list_elem_of_singleton in Hx'. subst. now apply (Hn n).
  - unfold Auth.unique.
    assert (E1 : Auth.id <$> Auth.users (Auth.put_preferences session lang thm a).2
                 = Auth.id <$> Auth.users a).
    { apply (f_equal (fmap (fun c : string * option ustring * option string * option Z => c.1.1.1)))
        in Hpref.
      rewrite <- !list_fmap_compose in Hpref. exact Hpref. }
    assert (E2 : omap Auth.username (Auth.users (Auth.put_preferences session lang thm a).2)
                 = omap Auth.username (Auth.users a)).
    { unfold Auth.put_preferences. destruct (nonempty session); [|reflexivity].
      destruct (Auth.updatePreferencesSchema lang thm) as [[l t]|]; [|reflexivity].
      cbn. apply omap_username_map. intros u. now destruct (String.eqb _ _). }
    now rewrite E1, E2.
Qed.

End Accounts.

(** ** The properties above, on the deployment of the examples *)

Section Scenarios.

(** Alice's first job is inserted under the first identifier drawn. *)
Lemma created_job_is_stored_witness :
  exists j w',
    createDownloadJob Demo.env "alice" accepted (mkInfo (FileName.units "clip") "thumb.jpg")
      (Demo.world completed) = (Ok j, w') /\
    getDownloadJob (id j) w' = (Ok (Some j), w') /\
    id j = "job-0" /\ userId j = "alice" /\
    youtubeUrl j = "https://youtube.com/watch?v=2" /\ format j = audio /\
    status j = queued /\ progress j = Some 0 /\ errorMessage j = None /\
    filePath j = None /\ uploadedToNas j = Some 0 /\
    (forall k, k <> id j -> jobs w' !! k = jobs (Demo.world completed) !! k).
Proof.
  apply (proj1 (created_job_is_stored Demo.env (Demo.world completed) "alice" accepted
                  (mkInfo (FileName.units "clip") "thumb.jpg"))).
  reflexivity.
Defined.

(** Alice downloads the file of her completed job. *)
Lemma get_download_only_reads_witness :
  (get_download Demo.env (Some "alice") "j1" (Demo.world completed)).1
  = Ok (Json 200 (BFile artifact1 (FileName.units "clip.mp4") "video/mp4")) /\
  exists user j,
    Some "alice" = Some user /\ jobs (Demo.world completed) !! "j1" = Some j /\
    userId j = user /\ status j = completed /\
    is_Some (files (Demo.world completed) !! artifact1) /\
    FileName.units "clip.mp4" = FileName.filename j.
Proof.
  split; [reflexivity|].
  apply (proj2 (get_download_only_reads Demo.env (Demo.world completed) (Some "alice") "j1")
           artifact1 (FileName.units "clip.mp4") "video/mp4").
  reflexivity.
Defined.

(** A caller without a session. *)
Lemma unauthenticated_is_refused_witness :
  let w := Demo.world completed in
  let refused := (Ok (Json 401 (BMessage "Unauthorized")), w) in
  post_download Demo.env None submission w = refused /\
  post_cancel None "j1" w = refused /\
  post_retry Demo.env None "j1" w = refused /\
  delete_job Demo.env None "j1" w = refused /\
  get_download Demo.env None "j1" w = refused /\
  post_upload_to_nas Demo.env 8 None "j1" w = refused.
Proof.
  apply (unauthenticated_is_refused Demo.env (Demo.world completed) None 8 "j1" submission).
  reflexivity.
Defined.

(** The video of Alice's queued job cannot be fetched. *)
Lemma download_error_fails_the_job_witness :
  exists w' j',
    processDownload env_unavailable 8 task1 (Demo.world queued) = (Ok tt, w') /\
    jobs w' !! "j1" = Some j' /\ same_identity (Demo.job1 queued) j' /\
    status j' = failed /\ progress j' = Some 0 /\
    errorMessage j' = Some "Video unavailable" /\
    files w' = dl_files (download_of env_unavailable task1 (Demo.world queued)) /\
    no_request (Demo.world queued) w'.
Proof.
  apply (proj2 (download_error_fails_the_job env_unavailable 8 task1 (Demo.world queued))
           (Demo.job1 queued) "Video unavailable"); reflexivity.
Defined.

(** Alice's queued job, fetched with no endpoint configured. *)
Lemma download_without_upload_completes_witness :
  exists w' j',
    processDownload Demo.env 8 task1 (world_no_nas queued) = (Ok tt, w') /\
    jobs w' !! "j1" = Some j' /\ same_identity (Demo.job1 queued) j' /\
    status j' = completed /\ progress j' = Some 100 /\
    filePath j' = Some artifact1 /\ fileSize j' = Some twelve_MiB /\
    files w' = dl_files (download_of Demo.env task1 (world_no_nas queued)) /\
    no_request (world_no_nas queued) w'.
Proof.
  apply (download_without_upload_completes Demo.env 8 task1 (world_no_nas queued)
           (Demo.job1 queued) (mkResult artifact1 twelve_MiB)).
  - reflexivity.
  - reflexivity.
  - left. reflexivity.
Defined.

(** Alice's file of twelve mebibytes is uploaded, by the route and by the
    automatic upload. *)
Lemma upload_completes_the_job_witness :
  let sent :=
    create_request "https://nas.local/files/" twelve_MiB (FileName.units "clip.mp4")
    :: chunk_requests session_url artifact1 twelve_MiB in
  (exists w' j',
     post_upload_to_nas Demo.env 8 (Some "alice") "j1" (Demo.world completed)
     = (Ok (Json 200 (BUploadStarted "Upload started" (FileName.units "clip.mp4") twelve_MiB)),
        w') /\
     jobs w' !! "j1" = Some j' /\ uploaded_row (Demo.job1 completed) j' /\
     files w' = delete artifact1 (files (Demo.world completed)) /\
     requests (trace w') = (requests (trace (Demo.world completed)) ++ sent)%list) /\
  (exists w' j',
     autoUploadToNas Demo.env 8 "j1" "alice" "https://nas.local" (Demo.world completed)
     = (Ok tt, w') /\
     jobs w' !! "j1" = Some j' /\ uploaded_row (Demo.job1 completed) j' /\
     files w' = delete artifact1 (files (Demo.world completed)) /\
     requests (trace w') = (requests (trace (Demo.world completed)) ++ sent)%list).
Proof.
  destruct (upload_completes_the_job Demo.env (Demo.world completed) "alice" "j1"
              (Demo.job1 completed) "https://nas.local" artifact1 twelve_MiB 8
              created_response "http://nas.local/files/abc" session_url)
    as (Hm & Ha).
  - unfold twelve_MiB. lia.
  - intros hist. reflexivity.
  - reflexivity.
  - reflexivity.
  - reflexivity.
  - apply demo_applies_chunks.
  - vm_compute. lia.
  - split; [apply Hm; now apply demo_uploadable | apply Ha; now apply demo_stored].
Defined.

(** The endpoint has no room for the first chunk of Alice's file. *)
Lemma refused_chunk_fails_the_job_witness :
  exists w' j',
    post_upload_to_nas env_full 8 (Some "alice") "j1" (Demo.world completed)
    = (Ok (Json 200 (BUploadStarted "Upload started" (FileName.units "clip.mp4") twelve_MiB)),
       w') /\
    jobs w' !! "j1" = Some j' /\
    failed_row "TUS patch failed: 507" (Demo.job1 completed) j' /\
    files w' = files (Demo.world completed) /\
    requests (trace w')
    = (requests (trace (Demo.world completed))
       ++ [create_request "https://nas.local/files/" twelve_MiB (FileName.units "clip.mp4");
           patch_request session_url artifact1 0 (Z.min CHUNK_SIZE twelve_MiB)])%list.
Proof.
  apply (refused_chunk_fails_the_job env_full (Demo.world completed) "alice" "j1"
           (Demo.job1 completed) "https://nas.local" artifact1 twelve_MiB 7
           created_response "http://nas.local/files/abc" session_url "TUS patch failed: 507").
  - now apply demo_uploadable.
  - unfold twelve_MiB. lia.
  - reflexivity.
  - reflexivity.
  - reflexivity.
  - reflexivity.
  - intros hist. reflexivity.
Defined.

(** The endpoint acknowledges the first of the three chunks of Alice's file
    with an offset that is no number: the upload ends there. *)
Lemma acknowledged_offset_is_trusted_witness :
  (Z.min CHUNK_SIZE twelve_MiB < twelve_MiB) /\
  exists w' j',
    post_upload_to_nas env_garbled 8 (Some "alice") "j1" (Demo.world completed)
    = (Ok (Json 200 (BUploadStarted "Upload started" (FileName.units "clip.mp4") twelve_MiB)),
       w') /\
    jobs w' !! "j1" = Some j' /\ uploaded_row (Demo.job1 completed) j' /\
    files w' = delete artifact1 (files (Demo.world completed)) /\
    requests (trace w')
    = (requests (trace (Demo.world completed))
       ++ [create_request "https://nas.local/files/" twelve_MiB (FileName.units "clip.mp4");
           patch_request session_url artifact1 0 (Z.min CHUNK_SIZE twelve_MiB)])%list.
Proof.
  split; [reflexivity|].
  apply (acknowledged_offset_is_trusted env_garbled (Demo.world completed) "alice" "j1"
           (Demo.job1 completed) "https://nas.local" artifact1 twelve_MiB 7
           created_response
           (mkResponse 204 "No Content" [("Upload-Offset", "done")] (Some ""))
           "http://nas.local/files/abc" session_url).
  - now apply demo_uploadable.
  - unfold twelve_MiB. lia.
  - reflexivity.
  - reflexivity.
  - reflexivity.
  - reflexivity.
  - intros hist. reflexivity.
  - left. reflexivity.
  - exact I.
Defined.

(** Alice submits a video by its address. *)
Lemma accepted_submission_queues_one_job_witness :
  let w := Demo.world completed in
  exists w' j,
    post_download Demo.env (Some "alice") submission w = (Ok (Json 200 (BJob (Some j))), w') /\
    id j = "job-0" /\ queued_row "alice" accepted j /\
    jobs w' = <["job-0" := j]> (jobs w) /\
    files w' = files w /\
    trace w'
    = EvSpawn (mkTask "job-0" "alice" "https://youtube.com/watch?v=2" audio (Some "best") None)
      :: EvInsert j :: trace w.
Proof.
  destruct (accepted_submission_queues_one_job Demo.env (Demo.world completed) "alice"
              submission accepted) as (_ & _ & _ & _ & H).
  - discriminate.
  - reflexivity.
  - apply (proj1 (H (mkInfo (FileName.units "clip") "thumb.jpg") eq_refl)). reflexivity.
Defined.

(** Alice deletes her job; Bob and Alice then ask for it. *)
Lemma deleted_job_is_gone_witness :
  exists w',
    delete_job Demo.env (Some "alice") "j1" (Demo.world completed)
    = (Ok (Json 200 BSuccess), w') /\
    jobs w' = delete "j1" (jobs (Demo.world completed)) /\
    (exists r, post_retry Demo.env (Some "alice") "j1" w' = (Ok r, w') /\ refused r) /\
    (exists r, get_download Demo.env (Some "bob") "j1" w' = (Ok r, w') /\ refused r).
Proof.
  destruct (deleted_job_is_gone Demo.env (Demo.world completed) "alice" "j1"
              (Demo.job1 completed)) as (w' & E & Hj & _ & _ & _ & H).
  - discriminate.
  - reflexivity.
  - reflexivity.
  - exists w'. split; [exact E|]. split; [exact Hj|].
    split; [apply (H (Some "alice") 8%nat) | apply (H (Some "bob") 8%nat)].
Defined.

(** Alice cancels her job while her client shows a speed for it. *)
Lemma progress_info_follows_last_message_witness :
  info1 !! "j1" = Some (Some "1.0MiB/s", Some "00:10") /\
  Client.receive
    (Client.messages_to "alice" (trace (post_cancel (Some "alice") "j1" (Demo.world downloading)).2))
    info1 !! "j1" = None /\
  Client.receive
    (Client.messages_to "alice"
       (trace (delete_job Demo.env (Some "alice") "j1" (Demo.world downloading)).2))
    info1 !! "j1" = None.
Proof.
  split; [reflexivity|].
  apply (proj1 (proj2 (progress_info_follows_last_message Demo.env [] info1
                         (Demo.world downloading) "alice" "j1" (Demo.job1 downloading) 8 task1)));
    (discriminate || reflexivity).
Defined.

(** The card of Alice's completed job, with the automatic upload off. *)
Lemma card_offers_what_the_server_accepts_witness :
  Client.canSendToNas (settings world_manual !! "alice") (Demo.job1 completed) = true /\
  Client.canDownload (Demo.job1 completed) = true /\
  Client.nasConfigured (settings world_manual !! "alice") = true /\
  Client.autoUploadEnabled (settings world_manual !! "alice") = false.
Proof.
  split; [reflexivity|].
  apply (proj1 (proj2 (proj2 (card_offers_what_the_server_accepts Demo.env world_manual
                                "alice" "j1" (Demo.job1 completed) 8)))).
  reflexivity.
Defined.

(** Alice's session, stored for an hour. *)
Lemma stored_session_is_read_back_witness :
  let stored :=
    SessionStore.set demo_maxAge demo_stringify demo_toISOString "sid-a"
      ("alice", Some 3600000) 1700000000000 sessions1 in
  stored.1 = None /\
  SessionStore.get demo_parse "sid-a" "1700003599999" stored.2 = inr (Some ("alice", None)) /\
  SessionStore.get demo_parse "sid-a" "1700003600000" stored.2 = inr None /\
  SessionStore.get demo_parse "sid-now" "1700000000000" stored.2
  = SessionStore.get demo_parse "sid-now" "1700000000000" sessions1.
Proof.
  destruct (proj2 (stored_session_is_read_back demo_maxAge demo_stringify demo_parse
                     demo_toISOString "sid-a" ("alice", Some 3600000) 1700000000000 sessions1)
              "1700003600000" eq_refl) as (H1 & H2 & H3 & _).
  split; [exact H1|]. split; [exact (H2 "1700003599999")|]. split; [exact (H2 "1700003600000")|].
  apply H3. discriminate.
Defined.

(** The cleanup at the instant at which Carol's session expires. *)
Lemma cleanup_hides_no_session_witness :
  let cleaned := SessionStore.clearExpiredSessions "1700000500000" sessions1 in
  SessionStore.before "1700000500001" "1700000500000" = false /\
  cleaned !! "sid-old" = None /\
  cleaned !! "sid-now" = Some (SessionStore.mkRow "carol" "1700000500000") /\
  SessionStore.get demo_parse "sid-now" "1700000500001" cleaned = inr None /\
  SessionStore.length "1700000500001" cleaned = SessionStore.length "1700000500001" sessions1.
Proof.
  destruct (cleanup_hides_no_session demo_parse "1700000500000" "1700000500001" "sid-now"
              sessions1 eq_refl) as (_ & _ & Hl & Hb).
  split; [reflexivity|]. split; [reflexivity|].
  destruct (Hb (SessionStore.mkRow "carol" "1700000500000") eq_refl eq_refl) as [Hk Hg].
  split; [exact Hk|]. split; [exact Hg | exact Hl].
Defined.

(** Alice registers, and logs in. *)
Lemma registration_then_login_witness :
  exists user a',
    Auth.post_register demo_uuid demo_hash None alice_credentials no_accounts
    = (Auth.Json 200 (Auth.AAccount (Auth.id user) (Some (FileName.units "alice"))
                        (Some (FileName.units "Alice")) None (Some 0) None),
       Some (Auth.id user), a') /\
    Auth.users a' = [user] /\
    Auth.id user = "user-1" /\
    Auth.isAdmin user = Some 0 /\
    Auth.post_login demo_compare None
      (Auth.mkCredentials (Some (FileName.units "alice")) (Some (FileName.units "secret1"))
         None None) a'
    = (Auth.Json 200 (Auth.AAccount (Auth.id user) (Some (FileName.units "alice"))
                        (Some (FileName.units "Alice")) None (Some 0)
                        (Some (Some "en", Some "light"))),
       Some (Auth.id user), a').
Proof.
  destruct (registration_then_login demo_uuid demo_hash demo_compare None alice_credentials
              (Auth.mkRegistration (FileName.units "alice") (FileName.units "secret1")
                 (Some (FileName.units "Alice")) None) no_accounts)
    as (user & a' & E & Hu & Hi & _ & _ & Ha & _ & _ & Hl).
  - reflexivity.
  - reflexivity.
  - reflexivity.
  - discriminate.
  - reflexivity.
  - exists user, a'. split; [exact E|]. split; [exact Hu|]. split; [exact Hi|].
    split; [exact Ha | apply Hl].
Defined.

(** Nobody is logged in by a wrong password. *)
Lemma login_needs_the_password_witness :
  let a := (Auth.post_register demo_uuid demo_hash None alice_credentials no_accounts).2 in
  let wrong :=
    Auth.post_login demo_compare None
      (Auth.mkCredentials (Some (FileName.units "alice")) (Some (FileName.units "secret2"))
         None None) a in
  let unknown :=
    Auth.post_login demo_compare None
      (Auth.mkCredentials (Some (FileName.units "mallory")) (Some (FileName.units "secret1"))
         None None) a in
  wrong.1.2 = None /\ unknown.1.2 = None /\ wrong.1.1 = unknown.1.1.
Proof.
  cbv zeta.
  destruct (login_needs_the_password demo_compare None
              (Auth.mkCredentials (Some (FileName.units "alice")) (Some (FileName.units "secret2"))
                 None None)
              (Auth.post_register demo_uuid demo_hash None alice_credentials no_accounts).2)
    as (_ & _ & Hw).
  destruct (Hw ltac:(vm_compute; discriminate)) as [Hw1 _].
  split; [exact Hw1|]. split; reflexivity.
Defined.

(** The connection test against an endpoint that passes it. *)
Lemma connection_test_protocol_witness :
  let run :=
    ConnectionTest.test_synology demo_resolve test_server_ok (Some "alice") (Some Demo.nas)
      1700000000000 in
  ConnectionTest.is_success run.1 /\
  run.2 = [ConnectionTest.create "https://nas.local/files/" 1700000000000;
           ConnectionTest.patch "https://nas.local/files/t1";
           ConnectionTest.cleanup "https://nas.local/files/t1"] /\
  ConnectionTest.is_failure
    (ConnectionTest.test_synology demo_resolve test_server_plain (Some "alice") (Some Demo.nas)
       1700000000000).1.
Proof.
  destruct (proj2 (proj2 (connection_test_protocol demo_resolve test_server_ok (Some "alice")
                            (Some Demo.nas) 1700000000000)) "alice" "https://nas.local"
              eq_refl eq_refl) as (_ & _ & _ & _ & Hs & Hr & _).
  assert (Hp : ConnectionTest.passes demo_resolve test_server_ok "https://nas.local/files/"
                 1700000000000 "https://nas.local/files/t1").
  { eexists _, _, _. repeat split; try reflexivity. now left. }
  split; [apply Hs; eexists; exact Hp|]. split; [exact (Hr _ Hp)|].
  vm_compute. now left.
Defined.

(** Alice's video is fetched and the endpoint answers 500 to the upload:
    the job stays in [uploading], with its file. *)
Lemma finished_download_is_never_failed_witness :
  let run := processDownload env_500 8 task1 (Demo.world queued) in
  (forall e, run.1 <> Throw e) /\
  (exists j',
     jobs run.2 !! "j1" = Some j' /\ same_identity (Demo.job1 queued) j' /\
     (status j' = completed \/ status j' = uploading) /\
     filePath j' = Some artifact1 /\ fileSize j' = Some twelve_MiB) /\
  status <$> jobs run.2 !! "j1" = Some uploading.
Proof.
  destruct (finished_download_is_never_failed env_500 8 task1 (Demo.world queued)
              (Demo.job1 queued) (mkResult artifact1 twelve_MiB) eq_refl eq_refl)
    as [Hn Hj].
  split; [exact Hn|]. split; [exact Hj | reflexivity].
Defined.

(** The endpoint answers 500 to the create request for Alice's job: in the
    route, and in [processDownload] run for the job when it is queued. *)
Lemma create_failure_keeps_job_and_file_witness :
  let rq := create_request "https://nas.local/files/" twelve_MiB (FileName.units "clip.mp4") in
  (exists w',
     post_upload_to_nas env_500 8 (Some "alice") "j1" (Demo.world completed)
     = (Ok (Json 400 (BUploadError (rejected_message response_500)
                        (rejected_details response_500))), w') /\
     JsString.includes "500" (rejected_message response_500) = true /\
     jobs w' = jobs (Demo.world completed) /\
     jobs w' !! "j1" = Some (Demo.job1 completed) /\
     status (Demo.job1 completed) = completed /\
     files w' = files (Demo.world completed) /\
     requests (trace w') = [rq]) /\
  (exists w' message,
     autoUploadToNas env_500 8 "j1" "alice" "https://nas.local" (Demo.world completed)
     = (Throw message, w') /\
     message = "TUS create failed: 500" /\
     JsString.includes "500" message = true /\
     files w' = files (Demo.world completed) /\
     requests (trace w') = [rq]) /\
  (exists w' j',
     processDownload env_500 8 task1 (Demo.world queued) = (Ok tt, w') /\
     jobs w' !! "j1" = Some j' /\ same_identity (Demo.job1 queued) j' /\
     status j' = uploading /\ status j' <> failed /\
     files w' = dl_files (download_of env_500 task1 (Demo.world queued)) /\
     files w' !! artifact1 = Some twelve_MiB /\
     requests (trace w') = [rq]).
Proof.
  destruct (create_failure_keeps_job_and_file env_500 (Demo.world completed) "alice" "j1"
              (Demo.job1 completed) "https://nas.local" artifact1 twelve_MiB 8 response_500)
    as (Hm & Ha & Hp).
  - now apply demo_stored.
  - discriminate.
  - intros hist. reflexivity.
  - split; [apply Hm; now apply demo_uploadable|]. split; [exact Ha|].
    apply (Hp task1 (Demo.world queued) (Demo.job1 queued) (mkResult artifact1 twelve_MiB));
      (reflexivity || discriminate).
Defined.


End Scenarios.
